(** * dspy/clients/anyscale.py: the AnyScale fine-tuning client

    A shallow embedding of the module [src/dspy/clients/anyscale.py] and the
    properties its specification states about it.

    Layout:
    - [PyData]: the Python values that travel through the module (scalars,
      lists, tuples, sets, insertion-ordered dicts) with the interpreter's
      [==], [<] and [sorted];
    - [Config]: [generate_config_files] with its inner [freeze] and
      [hash_dict];
    - [Flow]: the effectful part ([verify_dataset], [submit_data],
      [wait_for_training], [finetune_anyscale]) over an explicit
      state-and-exception monad that records every outside effect. *)

From Stdlib Require Import ZArith Ascii String List Bool Lia OrderedTypeEx.
From stdpp Require Import base option list sorting strings pretty.

Local Open Scope string_scope.
Local Open Scope Z_scope.

Set Warnings "-register-all".

(** ** Python data *)

Module PyData.

(** Scalars.  These are also the keys a YAML mapping or a keyword
    dictionary can carry.  Floating point numbers are left out. *)
Inductive atom : Type :=
| ANone
| ABool (b : bool)
| AInt (n : Z)
| AStr (s : string).

(** Values.  A [VDict] keeps its entries in insertion order, which is the
    order [d.items()] yields them in; a [VSet] keeps its elements in the
    order iteration yields them in. *)
Inductive pyval : Type :=
| VAtom (a : atom)
| VList (xs : list pyval)
| VTuple (xs : list pyval)
| VSet (xs : list pyval)
| VDict (kvs : list (atom * pyval)).

Definition VStr (s : string) : pyval := VAtom (AStr s).
Definition VInt (n : Z) : pyval := VAtom (AInt n).
Definition VBool (b : bool) : pyval := VAtom (ABool b).
Definition VNone : pyval := VAtom ANone.

Definition dict : Type := list (atom * pyval).

(** *** [==] and [<] on scalars

    [bool] is a subclass of [int]: [True == 1] and [False < 1].  [None] is
    equal to itself only and takes part in no ordering.  Strings are ordered
    by code point, which on their UTF-8 bytes is the byte-wise order. *)

Definition num_of (a : atom) : option Z :=
  match a with
  | ABool b => Some (Z.b2z b)
  | AInt n => Some n
  | _ => None
  end.

Definition atom_eq (a b : atom) : bool :=
  match a, b with
  | ANone, ANone => true
  | AStr s, AStr t => String.eqb s t
  | _, _ =>
      match num_of a, num_of b with
      | Some m, Some n => Z.eqb m n
      | _, _ => false
      end
  end.

(** [None] stands for the [TypeError] that [<] raises between operands of
    unrelated types. *)
Definition atom_lt (a b : atom) : option bool :=
  match a, b with
  | AStr s, AStr t => Some (String.ltb s t)
  | _, _ =>
      match num_of a, num_of b with
      | Some m, Some n => Some (Z.ltb m n)
      | _, _ => None
      end
  end.

(** *** [==] on values

    Sequences are equal when they have the same length and equal items; sets
    when each has the other's elements; dicts when each has the other's
    entries.  A list never equals a tuple. *)

Fixpoint py_eq (x y : pyval) {struct x} : bool :=
  let seq_eq :=
    fix go (xs ys : list pyval) {struct xs} : bool :=
      match xs, ys with
      | [], [] => true
      | x' :: xs', y' :: ys' => py_eq x' y' && go xs' ys'
      | _, _ => false
      end in
  match x, y with
  | VAtom a, VAtom b => atom_eq a b
  | VList xs, VList ys => seq_eq xs ys
  | VTuple xs, VTuple ys => seq_eq xs ys
  | VSet xs, VSet ys =>
      forallb (fun x' => existsb (fun y' => py_eq x' y') ys) xs
      && forallb (fun y' => existsb (fun x' => py_eq x' y') xs) ys
  | VDict xs, VDict ys =>
      forallb (fun '(k, v) =>
                 existsb (fun '(k', v') => atom_eq k k' && py_eq v v') ys) xs
      && forallb (fun '(k', v') =>
                    existsb (fun '(k, v) => atom_eq k k' && py_eq v v') xs) ys
  | _, _ => false
  end.

Definition py_subset (xs ys : list pyval) : bool :=
  forallb (fun x => existsb (fun y => py_eq x y) ys) xs.

(** *** [<] on values

    Lists and tuples compare lexicographically: the first pair of items that
    are not [==] decides, by [<] on that pair; when one sequence is a prefix
    of the other the shorter one is the smaller.  Sets are ordered by proper
    inclusion.  Dicts, and operands of different kinds, raise [TypeError]. *)

Fixpoint py_lt (x y : pyval) {struct x} : option bool :=
  let seq_lt :=
    fix go (xs ys : list pyval) {struct xs} : option bool :=
      match xs, ys with
      | [], [] => Some false
      | [], _ :: _ => Some true
      | _ :: _, [] => Some false
      | x' :: xs', y' :: ys' => if py_eq x' y' then go xs' ys' else py_lt x' y'
      end in
  match x, y with
  | VAtom a, VAtom b => atom_lt a b
  | VList xs, VList ys => seq_lt xs ys
  | VTuple xs, VTuple ys => seq_lt xs ys
  | VSet xs, VSet ys => Some (py_subset xs ys && negb (py_subset ys xs))
  | _, _ => None
  end.

(** The two sequence comparisons and the inclusion of dicts on their own:
    [py_eq] and [py_lt] on lists and tuples are [seq_eq] and [seq_lt], and
    [py_eq] on dicts is [dict_sub] both ways ([py_eq_list] and the lemmas
    after it). *)
Fixpoint seq_eq (xs ys : list pyval) : bool :=
  match xs, ys with
  | [], [] => true
  | x :: xs', y :: ys' => py_eq x y && seq_eq xs' ys'
  | _, _ => false
  end.

Fixpoint seq_lt (xs ys : list pyval) : option bool :=
  match xs, ys with
  | [], [] => Some false
  | [], _ :: _ => Some true
  | _ :: _, [] => Some false
  | x :: xs', y :: ys' => if py_eq x y then seq_lt xs' ys' else py_lt x y
  end.

Definition dict_sub (xs ys : dict) : bool :=
  forallb (fun e => existsb (fun e' => atom_eq e.1 e'.1 && py_eq e.2 e'.2) ys) xs.

(** *** [sorted]

    The builtin is a stable sort that asks only [<] of its items and lets an
    exception raised by a comparison escape.  It is modelled by a stable
    insertion sort: items are taken left to right and each is placed before
    the first item it is smaller than.  The two agree wherever [<] is a
    total preorder on the items (every stable sort returns the same list
    then), and wherever two of the items are of unrelated classes (every
    sort raises then).  On items that [<] orders only in part (sets, tuples
    that hold sets) the builtin, which looks for runs and inserts by
    bisection, may compare other pairs and return another order; what is
    proved below of the order a sort returns is stated for items of the
    first two kinds. *)

Section Sorted.
  Context {A : Type} (lt : A -> A -> option bool).

Fixpoint insert_sorted (x : A) (acc : list A) : option (list A) :=
    match acc with
    | [] => Some [x]
    | y :: acc' =>
        b ← lt x y;
        if b : bool then Some (x :: acc) else cons y <$> insert_sorted x acc'
    end.

Definition sorted_from (acc : option (list A)) (l : list A) : option (list A) :=
    foldl (fun acc x => acc ≫= insert_sorted x) acc l.

Definition sorted_by (l : list A) : option (list A) := sorted_from (Some []) l.

  (** The order a successful [sorted] leaves its result in. *)
Definition sort_le (x y : A) : Prop := x = y \/ lt x y = Some true.
End Sorted.

Definition py_sorted : list pyval -> option (list pyval) := sorted_by py_lt.

(** Induction over values that reaches inside the containers. *)
Section pyval_induction.
  Variable P : pyval -> Prop.
  Hypothesis Hatom : forall a, P (VAtom a).
  Hypothesis Hlist : forall xs, Forall P xs -> P (VList xs).
  Hypothesis Htuple : forall xs, Forall P xs -> P (VTuple xs).
  Hypothesis Hset : forall xs, Forall P xs -> P (VSet xs).
  Hypothesis Hdict : forall kvs, Forall (fun kv => P kv.2) kvs -> P (VDict kvs).

Fixpoint pyval_nested_ind (v : pyval) : P v :=
    let all :=
      fix all (xs : list pyval) : Forall P xs :=
        match xs with
        | [] => Forall_nil_2 P
        | x :: xs' => Forall_cons_2 P x xs' (pyval_nested_ind x) (all xs')
        end in
    match v with
    | VAtom a => Hatom a
    | VList xs => Hlist xs (all xs)
    | VTuple xs => Htuple xs (all xs)
    | VSet xs => Hset xs (all xs)
    | VDict kvs =>
        Hdict kvs
          ((fix allkv (kvs : list (atom * pyval)) : Forall (fun kv => P kv.2) kvs :=
              match kvs with
              | [] => Forall_nil_2 _
              | kv :: kvs' =>
                  Forall_cons_2 (fun kv => P kv.2) kv kvs'
                    (pyval_nested_ind kv.2) (allkv kvs')
              end) kvs)
    end.
End pyval_induction.

(** *** Truth value, [is None] *)

Definition truthy (v : pyval) : bool :=
  match v with
  | VAtom ANone => false
  | VAtom (ABool b) => b
  | VAtom (AInt n) => negb (n =? 0)
  | VAtom (AStr s) => negb (String.eqb s "")
  | VList xs | VTuple xs | VSet xs => negb (Nat.eqb (length xs) 0)
  | VDict kvs => negb (Nat.eqb (length kvs) 0)
  end.

Definition is_none (v : pyval) : bool :=
  match v with VAtom ANone => true | _ => false end.

(** *** Dictionary operations

    Keys are looked up with [==] (so [1] and [True] name the same entry);
    [d[k] = v] overwrites the value of an existing key where it stands and
    appends a new key at the end. *)

Fixpoint dict_get (d : dict) (k : atom) : option pyval :=
  match d with
  | [] => None
  | (k', v) :: d' => if atom_eq k' k then Some v else dict_get d' k
  end.

Definition dict_has (d : dict) (k : atom) : bool := bool_decide (is_Some (dict_get d k)).

Fixpoint dict_set (d : dict) (k : atom) (v : pyval) : dict :=
  match d with
  | [] => [(k, v)]
  | (k', v') :: d' => if atom_eq k' k then (k', v) :: d' else (k', v') :: dict_set d' k v
  end.

Definition dict_update (d other : dict) : dict :=
  foldl (fun acc kv => dict_set acc kv.1 kv.2) d other.

(** [del d[k]]; a dict holds a key once, and no entry of the key stays. *)
Fixpoint dict_del (d : dict) (k : atom) : dict :=
  match d with
  | [] => []
  | (k', v) :: d' => if atom_eq k' k then dict_del d' k else (k', v) :: dict_del d' k
  end.

(** [d.pop(k, default)] *)
Definition dict_pop (d : dict) (k : atom) (default : pyval) : pyval * dict :=
  match dict_get d k with
  | Some v => (v, dict_del d k)
  | None => (default, d)
  end.

Definition dict_keys (d : dict) : list atom := d.*1.

End PyData.

(** ** The config renderer's canonical form *)

Module Freeze.
Import PyData.

(** [freeze] (an inner function of [generate_config_files]).  For a list or a
    set the source sorts the raw elements and freezes them in sorted order;
    here every element carries its frozen form through the sort, which is
    the same computation ([freeze_list] below) in a shape whose recursion is
    structural. *)
Fixpoint freeze (d : pyval) : option pyval :=
  let frozen_sorted := fun xs : list pyval =>
    s ← sorted_by (fun p q : pyval * option pyval => py_lt p.1 q.1)
                  (map (fun x => (x, freeze x)) xs);
    VTuple <$> mapM snd s in
  match d with
  | VDict kvs =>
      items ← mapM (fun kv : atom * pyval =>
                      fv ← freeze kv.2; Some (VTuple [VAtom kv.1; fv])) kvs;
      VTuple <$> py_sorted items
  | VList xs => frozen_sorted xs
  | VSet xs => frozen_sorted xs
  | _ => Some d
  end.

End Freeze.

(** ** Strings and paths *)

Module PyStr.

Definition lower_ascii (c : ascii) : ascii :=
  let n := nat_of_ascii c in
  if (Nat.leb 65 n && Nat.leb n 90)%bool then ascii_of_nat (n + 32) else c.

(** [s.lower()], on ASCII letters. *)
Fixpoint lower (s : string) : string :=
  match s with
  | EmptyString => EmptyString
  | String c s' => String (lower_ascii c) (lower s')
  end.

(** [sub in s] *)
Fixpoint contains (sub s : string) : bool :=
  String.prefix sub s ||
  match s with
  | EmptyString => false
  | String _ s' => contains sub s'
  end.

(** [s[:n]] *)
Fixpoint take (n : nat) (s : string) : string :=
  match n, s with
  | S n', String c s' => String c (take n' s')
  | _, _ => EmptyString
  end.

(** [s.split("/")]: the pieces between the separators, in order; the result
    is never empty. *)
Fixpoint split_on (sep : ascii) (s : string) : list string :=
  match s with
  | EmptyString => [EmptyString]
  | String c s' =>
      if Ascii.eqb c sep then EmptyString :: split_on sep s'
      else match split_on sep s' with
           | [] => [String c EmptyString]
           | piece :: rest => String c piece :: rest
           end
  end.

Definition slash : ascii := "/"%char.

(** [s.split("/")[-1]] *)
Definition last_component (s : string) : string :=
  List.last (split_on slash s) EmptyString.

Fixpoint ends_with_slash (s : string) : bool :=
  match s with
  | EmptyString => false
  | String c EmptyString => Ascii.eqb c slash
  | String _ s' => ends_with_slash s'
  end.

(** One step of [posixpath.join]: an absolute component replaces what was
    joined so far, otherwise it is appended after exactly one separator. *)
Definition join2 (path b : string) : string :=
  if String.prefix "/" b then b
  else if (String.eqb path "" || ends_with_slash path)%bool then path ++ b
  else path ++ "/" ++ b.

(** [os.path.join(a, *p)] *)
Definition path_join (a : string) (p : list string) : string := foldl join2 a p.

End PyStr.

(** ** Effects: exceptions, the log, the outside world *)

Module Eff.
Import PyData.

Inductive exn : Type :=
| AssertionError (msg : string)
| NotImplementedError (msg : string)
| RuntimeError (msg : string)
| AttributeError (msg : string)
| KeyError (key : string)
| TypeError (msg : string)
| IndexError (msg : string)
| ExternalError (msg : string).

(** [str(e)] *)
Definition exn_str (e : exn) : string :=
  match e with
  | AssertionError m | NotImplementedError m | RuntimeError m
  | AttributeError m | TypeError m | IndexError m | ExternalError m => m
  | KeyError k => "'" ++ k ++ "'"
  end.

Inductive outcome (A : Type) : Type :=
| Returned (a : A)
| Raised (e : exn).
Arguments Returned {A} a.
Arguments Raised {A} e.

Inductive level : Type := INFO | ERROR.

(** What the module does to the world outside the interpreter, in the order
    it does it. *)
Inductive event : Type :=
| Log (lv : level) (msg : string)
| EnvRead (name : string)
| FileRead (path : string)
| YamlLoad (path : pyval)
| YamlDump (path : string) (data : pyval)
| Validate (dataset : list pyval)
| MessageLengths (dataset : list pyval)
| SaveData (dataset : list pyval) (provider : string)
| OsSystem (command : string)
| JobConfigNew (fields : dict)
| JobSubmit (config : pyval)
| JobWait (id : string) (timeout_s : Z)
| ModelGet (job_id : string)
| CopyLoraWeights (storage_uri : pyval) (job_id : string)
| ServeConfigUpdate (lora_dynamic_path : string) (serve_config_path : pyval).

(** The interpreter state the module touches: the dict objects it shares
    with its caller (by reference), the [job_id] attribute of the job object
    it is handed, and the effects so far. *)
Record state : Type := mkState {
  heap : list dict;
  job_id_attr : option string;
  trace : list event
}.

Definition M (A : Type) : Type := state -> outcome A * state.

Definition ret {A} (a : A) : M A := fun s => (Returned a, s).

Definition bind {A B} (m : M A) (k : A -> M B) : M B :=
  fun s => match m s with
           | (Returned a, s') => k a s'
           | (Raised e, s') => (Raised e, s')
           end.

Definition raise {A} (e : exn) : M A := fun s => (Raised e, s).

(** [try: m except Exception as e: h e] *)
Definition try_except {A} (m : M A) (h : exn -> M A) : M A :=
  fun s => match m s with
           | (Returned a, s') => (Returned a, s')
           | (Raised e, s') => h e s'
           end.

Definition record (ev : event) (s : state) : state :=
  mkState (heap s) (job_id_attr s) (trace s ++ [ev]).

Definition emit (ev : event) : M unit := fun s => (Returned tt, record ev s).

(** A call that leaves the interpreter: it is recorded, and answered by the
    world, which has seen everything done before. *)
Definition ask {A} (ev : event) (answer : list event -> outcome A) : M A :=
  fun s => (answer (trace s), record ev s).

Definition info (msg : string) : M unit := emit (Log INFO msg).
Definition error (msg : string) : M unit := emit (Log ERROR msg).

Definition assert (b : bool) (msg : string) : M unit :=
  if b then ret tt else raise (AssertionError msg).

#[global] Instance M_ret : MRet M := @ret.
#[global] Instance M_bind : MBind M := fun A B k m => bind m k.

End Eff.

(** ** The world the module runs in

    Functions of the interpreter and of the rest of the package that are
    not part of this module are pure parameters ([hash], [str], the OpenAI
    data checks); files, the storage bucket and the platform SDK answer
    according to what has happened before. *)

Module World.
Import PyData Eff.

(** [TrainingMethod] is declared in [dspy/clients/finetune.py]; this module
    names its member [SFT] only, the others are carried by name. *)
Inductive TrainingMethod : Type :=
| SFT
| OtherMethod (name : string).

#[global] Instance TrainingMethod_eq_dec : EqDecision TrainingMethod.
Proof. solve_decision. Defined.

Record world : Type := mkWorld {
  (* the interpreter *)
  py_hash : pyval -> Z;
  py_str : pyval -> string;
  methods_repr : list TrainingMethod -> string;
  environ : string -> option string;
  (* dspy.clients.openai, dspy.clients.finetune *)
  openai_data_validation : list pyval -> outcome pyval;
  check_message_lengths : list pyval -> outcome (list Z);
  save_data : list event -> list pyval -> string -> outcome string;
  (* files *)
  yaml_safe_load : list event -> pyval -> outcome pyval;
  yaml_safe_dump : list event -> string -> pyval -> outcome unit;
  read_jsonl : list event -> string -> outcome (list pyval);
  (* the platform SDK and the bucket *)
  job_config_new : list event -> dict -> outcome pyval;
  job_submit : list event -> pyval -> outcome string;
  job_wait : list event -> string -> Z -> outcome unit;
  model_get : list event -> string -> outcome pyval;
  copy_blobs : list event -> pyval -> pyval -> string -> outcome (list string * string);
  rewrite_serve_config : list event -> string -> pyval -> outcome unit
}.

End World.

(** ** [generate_config_files] *)

Module Config.
Import PyData PyStr Eff World Freeze.

Definition key (s : string) : atom := AStr s.

(** [kwargs.get(name, default)] *)
Definition get_or (kwargs : dict) (name : string) (default : pyval) : pyval :=
  from_option id default (dict_get kwargs (key name)).

(** [kwargs[name]] *)
Definition getitem (kwargs : dict) (name : string) : M pyval :=
  match dict_get kwargs (key name) with
  | Some v => ret v
  | None => raise (KeyError name)
  end.

(** [get_yaml_config], the template chosen from the model's name. *)
Definition get_yaml_config (model_name : string) : outcome string :=
  if contains "llama" (lower model_name) then
    if contains "70b" model_name then Returned "llama-3-70b.yaml"
    else if contains "13b" model_name then Returned "llama-3-70b.yaml"
    else Returned "llama-3-8b.yaml"
  else if contains "mistral" (lower model_name) then
    if contains "mixtral" (lower model_name) then Returned "mixtral-8x7b.yaml"
    else Returned "mistral-7b.yaml"
  else Raised (RuntimeError "No default yaml found for the model").

(** What [dict.update] accepts as its argument: a mapping, or an iterable of
    two-item sequences (the empty string is an iterable of none). *)
Definition as_pairs (v : pyval) : option dict :=
  let pair := fun x : pyval =>
    match x with
    | VList [VAtom k; v'] | VTuple [VAtom k; v'] => Some (k, v')
    | _ => None
    end in
  match v with
  | VDict kvs => Some kvs
  | VList xs | VTuple xs | VSet xs => mapM pair xs
  | VAtom (AStr "") => Some []
  | VAtom _ => None
  end.

(** [target.update(arg)] for a [target] that is a dict. *)
Definition update_with (target : dict) (arg : pyval) : M dict :=
  match as_pairs arg with
  | Some kvs => ret (dict_update target kvs)
  | None => raise (TypeError "cannot convert dictionary update sequence")
  end.

(** A value is hashable when no list, set or dict occurs in it. *)
Fixpoint hashable (v : pyval) : bool :=
  match v with
  | VAtom _ => true
  | VTuple xs => forallb hashable xs
  | _ => false
  end.

Definition opt_str (o : option string) : pyval :=
  match o with Some s => VStr s | None => VNone end.

Definition fixed_fields (model : pyval) (train_path : string)
    (eval_path : option string) : dict :=
  [ (key "model_id", model);
    (key "train_path", VStr train_path);
    (key "valid_path", opt_str eval_path);
    (key "logger", VDict [(key "provider", VStr "wandb")]);
    (key "num_checkpoints_to_keep", VInt 10) ].

(** [{k: v for k, v in d.items() if v is not None}] *)
Definition drop_none (d : dict) : dict :=
  List.filter (fun kv : atom * pyval => negb (is_none kv.2)) d.

Definition config_filename (h : Z) : string :=
  "model_config_dspy_" ++ pretty h ++ ".yaml".

Section WithWorld.
  Variable w : world.

  (** [hash_dict] (inner function): [hash(freeze(d))].  Both failures are
      [TypeError]s; the texts are shortened (the interpreter names the
      types of the operands of the failed comparison, and the type of the
      unhashable value). *)
Definition hash_dict (d : pyval) : M Z :=
    match freeze d with
    | None => raise (TypeError "'<' not supported between instances")
    | Some f =>
        if hashable f then ret (py_hash w f)
        else raise (TypeError "unhashable type")
    end.

  (** The naming step: lines 278 to 283. *)
Definition name_config (model_config_data : dict) : M string :=
    dict_sorted_hash ← hash_dict (VDict model_config_data);
    let dict_sorted_hash :=
      if dict_sorted_hash <? 0 then - dict_sorted_hash else dict_sorted_hash in
    ret (config_filename dict_sorted_hash).

Definition default_env (name : string) : pyval :=
    VStr (default "" (environ w name)).

Definition generate_config_files (train_path : string)
      (eval_path : option string) (kwargs : dict) : M (pyval * pyval) :=
    let base_model_yaml_path := get_or kwargs "train_config_yaml" VNone in
    model ← getitem kwargs "model";
    assert (negb (is_none model)) "Model is required to generate the config files";;
    let use_lora := get_or kwargs "use_lora" (VBool false) in
    let example_dir := "" in
    let lora_path :=
      if truthy use_lora then "configs/training/lora"
      else "configs/training/full_param" in
    base_model_yaml_path ←
      (if truthy base_model_yaml_path then ret base_model_yaml_path
       else
         match model with
         | VAtom (AStr model_name) =>
             match get_yaml_config model_name with
             | Returned default_model_yaml_path =>
                 let p := path_join example_dir [lora_path; default_model_yaml_path] in
                 info ("Using default yaml template for model: " ++ p);;
                 ret (VStr p)
             | Raised e => raise e
             end
         | _ => raise (AttributeError "object has no attribute 'lower'")
         end);
    loaded ← ask (YamlLoad base_model_yaml_path) (fun t => yaml_safe_load w t base_model_yaml_path);
    model_config_data ←
      match loaded with
      | VDict d => update_with d (get_or kwargs "hyperparameters" (VDict []))
      | VSet _ => raise (TypeError "'set' object does not support item assignment")
      | _ => raise (AttributeError "object has no attribute 'update'")
      end;
    let model_config_data := dict_set model_config_data (key "model_id") model in
    let custom_modifications := fixed_fields model train_path eval_path in
    let custom_modifications :=
      if truthy (get_or kwargs "output_dir" VNone)
      then dict_set custom_modifications (key "output_dir") (get_or kwargs "output_dir" VNone)
      else custom_modifications in
    let model_config_data := dict_update model_config_data custom_modifications in
    let model_config_data := drop_none model_config_data in
    filename ← name_config model_config_data;
    info ("Model config data: " ++ py_str w (VDict model_config_data));;
    ask (YamlDump filename (VDict model_config_data))
        (fun t => yaml_safe_dump w t filename (VDict model_config_data));;
    let compute_config_dict : dict :=
      [ (key "name", VStr "dspy-llmforge-fine-tuning-job");
        (key "entrypoint", VStr ("llmforge anyscale finetune " ++ filename));
        (key "working_dir", VStr ".");
        (key "image_uri", VStr "localhost:5555/anyscale/llm-forge:0.5.6");
        (key "requirements", VList [VStr "wandb"]);
        (key "env_vars",
         VDict [ (key "WANDB_API_KEY", default_env "WANDB_API_KEY");
                 (key "HF_TOKEN", default_env "HF_TOKEN");
                 (key "HF_HOME", default_env "HF_HOME") ]) ] in
    compute_config_dict ←
      update_with compute_config_dict (get_or kwargs "compute_config" (VDict []));
    compute_config ← ask (JobConfigNew compute_config_dict)
                         (fun t => job_config_new w t compute_config_dict);
    let job_runner_config_path :=
      get_or kwargs "compute_yaml_path" (VStr "job_runner_config.yaml") in
    ret (job_runner_config_path, compute_config).
End WithWorld.

End Config.

(** ** The fine-tuning flow *)

Module Flow.
Import PyData PyStr Eff World Freeze Config.

(** [TRAINING_METHODS_ANYSCALE] *)
Definition TRAINING_METHODS_ANYSCALE : list TrainingMethod := [SFT].

Definition PROVIDER_ANYSCALE : string := "anyscale".

(** What a caller may hand to [wait_for_training]: a plain value such as
    the job's id, or the job object. *)
Inductive wait_arg : Type :=
| ArgVal (v : pyval)
| ArgJob.

Section WithWorld.
  Variable w : world.

  (** *** Shared dict objects *)

Definition deref (r : nat) : M dict :=
    fun s => (Returned (default [] (heap s !! r)), s).

Definition store (r : nat) (d : dict) : M unit :=
    fun s => (Returned tt, mkState (<[r := d]> (heap s)) (job_id_attr s) (trace s)).

  (** A new empty dict object: [{}]. *)
Definition new_dict : M nat :=
    fun s => (Returned (length (heap s)),
              mkState (heap s ++ [[]]) (job_id_attr s) (trace s)).

  (** [train_kwargs or {}]: the caller's object when it is a non-empty
      dict, a new empty dict when the caller passed [None] or an empty
      dict. *)
Definition or_new_dict (train_kwargs : option nat) : M nat :=
    match train_kwargs with
    | None => new_dict
    | Some r =>
        d ← deref r;
        if truthy (VDict d) then ret r else new_dict
    end.

Definition set_job_id (job_id : string) : M unit :=
    fun s => (Returned tt, mkState (heap s) (Some job_id) (trace s)).

  (** [job.job_id] *)
Definition get_job_id : M pyval :=
    fun s => (Returned (opt_str (job_id_attr s)), s).

  (** [f(..., **kwargs)]: the keys must be strings, and none may repeat a
      keyword the call already gives. *)
Definition spread (given : list string) (kwargs : dict) : M dict :=
    if forallb (fun k => match k with AStr _ => true | _ => false end) (dict_keys kwargs)
    then
      if existsb (fun name => dict_has kwargs (key name)) given
      then raise (TypeError "got multiple values for keyword argument")
      else ret kwargs
    else raise (TypeError "keywords must be strings").

  (** *** [verify_dataset] *)
Definition verify_dataset (dataset : list pyval) : M bool :=
    dataset_validation ←
      ask (Validate dataset) (fun _ => openai_data_validation w dataset);
    if truthy dataset_validation then
      error ("Dataset validation failed: " ++ py_str w dataset_validation);;
      ret false
    else
      convo_lens ← ask (MessageLengths dataset) (fun _ => check_message_lengths w dataset);
      ret true.

  (** *** [submit_data] *)

  (** The body of the loop over [datasets.items()]. *)
Definition upload (name path storage : string) : M string :=
    items ← ask (FileRead path) (fun t => read_jsonl w t path);
    let num_items := length items in
    info ("Number of items in " ++ name ++ " data: " ++ pretty num_items);;
    let remote_path := path_join storage [last_component path] in
    info ("Uploading " ++ name ++ " data to S3 at " ++ remote_path);;
    (if String.eqb (take 2 remote_path) "s3" then
       emit (OsSystem ("aws s3 cp " ++ path ++ " " ++ remote_path))
     else if String.eqb (take 2 remote_path) "gs" then
       emit (OsSystem ("gcloud storage cp " ++ path ++ " " ++ remote_path))
     else
       emit (OsSystem ("cp " ++ path ++ " " ++ remote_path));;
       info ("Copied " ++ path ++ " to " ++ remote_path));;
    ret remote_path.

Fixpoint upload_all (datasets : list (string * string)) (storage : string)
      : M (list (string * string)) :=
    match datasets with
    | [] => ret []
    | (name, path) :: rest =>
        remote_path ← upload name path storage;
        ids ← upload_all rest storage;
        ret ((name, remote_path) :: ids)
    end.

Definition file_id (ids : list (string * string)) (name : string) : option string :=
    snd <$> List.find (fun e => String.eqb e.1 name) ids.

Definition submit_data (train_path : string) (eval_path : option string)
      : M (string * option string) :=
    emit (EnvRead "ANYSCALE_ARTIFACT_STORAGE");;
    storage ← match environ w "ANYSCALE_ARTIFACT_STORAGE" with
              | Some s => ret s
              | None => raise (KeyError "ANYSCALE_ARTIFACT_STORAGE")
              end;
    let datasets :=
      ("train", train_path) ::
      match eval_path with
      | Some p => if truthy (VStr p) then [("val", p)] else []
      | None => []
      end in
    fine_tuning_file_ids ← upload_all datasets storage;
    match file_id fine_tuning_file_ids "train" with
    | Some t => ret (t, file_id fine_tuning_file_ids "val")
    | None => raise (KeyError "train")
    end.

  (** *** [start_remote_training], [get_model_info] *)
Definition start_remote_training (compute_config : pyval) (kwargs : dict) : M string :=
    ask (JobSubmit compute_config) (fun t => job_submit w t compute_config).

Definition get_model_info (job_id : string) : M pyval :=
    ask (ModelGet job_id) (fun t => model_get w t job_id).

  (** *** [wait_for_training]

      The module defines the function twice.  The first definition
      (line 158) takes the job's id. *)
Definition wait_for_training_158 (job_id : string) : M unit :=
    ask (JobWait job_id 18000) (fun t => job_wait w t job_id 18000).

  (** The second definition (line 317) takes the job object and reads its
      [job_id] attribute.  Being the later [def] of the name, it is the one
      the module's namespace holds when [finetune_anyscale] runs. *)
Definition wait_for_training (job : wait_arg) : M unit :=
    info "Waiting for training to complete";;
    match job with
    | ArgJob =>
        id ← get_job_id;
        match id with
        | VAtom (AStr job_id) =>
            ask (JobWait job_id 18000) (fun t => job_wait w t job_id 18000)
        | _ => raise (ExternalError "job id is not a string")
        end
    | ArgVal _ => raise (AttributeError "object has no attribute 'job_id'")
    end.

  (** *** [copy_lora_weights], [update_model_config]

      No property below reaches into these two; they are kept as calls
      answered by the bucket and the file system. *)
Definition copy_lora_weights (storage_uri model_info : pyval) (job_id : string)
      : M (list string * string) :=
    try_except
      (ask (CopyLoraWeights storage_uri job_id)
           (fun t => copy_blobs w t storage_uri model_info job_id))
      (fun e => error ("An error occurred: " ++ exn_str e);; raise e).

Definition update_model_config (lora_dynamic_path : string)
      (serve_config_path : pyval) : M unit :=
    ask (ServeConfigUpdate lora_dynamic_path serve_config_path)
        (fun t => rewrite_serve_config w t lora_dynamic_path serve_config_path).

  (** *** [finetune_anyscale]

      The body of the [try] block, with the training method as a parameter
      (the source fixes it to [SFT] and notes that it could be an
      argument). *)
Definition finetune_body (train_method : TrainingMethod) (model : string)
      (train_data : list pyval) (train_kwargs : option nat) : M string :=
    train_kwargs ← or_new_dict train_kwargs;
    kw ← deref train_kwargs;
    assert (negb (dict_has kw (key "model"))) "Model should not be in the train_kwargs";;
    store train_kwargs (dict_set kw (key "model") (VStr model));;
    info "[Finetune] Starting training process...";;
    (if bool_decide (train_method ∈ TRAINING_METHODS_ANYSCALE) then ret tt
     else raise (NotImplementedError
                   ("AnyScale can only support "
                    ++ methods_repr w TRAINING_METHODS_ANYSCALE
                    ++ " for the time being")));;
    info "[Finetune] Retrieving the `serve_config_path` if provided, otherwise defaulting to `serve_1B.yaml`...";;
    kw ← deref train_kwargs;
    let popped := dict_pop kw (key "serve_config_path") (VStr "serve_1B.yaml") in
    let serve_config_path := popped.1 in
    store train_kwargs popped.2;;
    info "[Finetune] Validating the dataset format...";;
    verified ← verify_dataset train_data;
    (if verified : bool then ret tt
     else
       let err := "[Finetune] Error: Unable to verify that the dataset is in the correct format." in
       error err;;
       raise (RuntimeError err));;
    info "[Finetune] Converting data to JSONL format...";;
    data_path ← ask (SaveData train_data PROVIDER_ANYSCALE)
                    (fun t => save_data w t train_data PROVIDER_ANYSCALE);
    info "[Finetune] Submitting data to remote storage...";;
    submitted ← submit_data data_path None;
    let remote_train_path := submitted.1 in
    info ("[Finetune] Data submitted. Remote train path: " ++ remote_train_path);;
    info "[Finetune] Generating configuration files...";;
    kw ← deref train_kwargs;
    kwargs ← spread ["train_path"; "eval_path"] kw;
    generated ← generate_config_files w remote_train_path None kwargs;
    let compute_config := generated.2 in
    info "[Finetune] Starting remote training...";;
    kw ← deref train_kwargs;
    kwargs ← spread ["compute_config"] kw;
    job_id ← start_remote_training compute_config kwargs;
    set_job_id job_id;;
    info ("[Finetune] Remote training started. Job ID: " ++ job_id);;
    info "[Finetune] Waiting for training to complete...";;
    id ← get_job_id;
    wait_for_training (ArgVal id);;
    info "[Finetune] Training completed.";;
    info "[Finetune] Retrieving model information...";;
    model_info ← get_model_info job_id;
    info ("[Finetune] Model info retrieved: " ++ py_str w model_info);;
    storage_uri ←
      match model_info with
      | VDict d => getitem d "storage_uri"
      | _ => raise (TypeError "object is not subscriptable")
      end;
    info ("[Finetune] Copying LoRA weights from " ++ py_str w storage_uri ++ "...");;
    copied ← copy_lora_weights storage_uri model_info job_id;
    let model_names := copied.1 in
    let lora_dynamic_path := copied.2 in
    info ("[Finetune] LoRA weights copied. Model names: "
          ++ py_str w (VList (VStr <$> model_names)));;
    info "[Finetune] Setting result in future object...";;
    last_model_checkpoint ←
      match List.last (Some <$> model_names) None with
      | Some name => ret name
      | None => raise (IndexError "list index out of range")
      end;
    info "[Finetune] Training process completed successfully.";;
    info "[Finetune] Updating model config with the proper dynamic path";;
    update_model_config lora_dynamic_path serve_config_path;;
    ret last_model_checkpoint.

  (** The function itself: the [try] block and its [except] clause. *)
Definition finetune_with (train_method : TrainingMethod) (model : string)
      (train_data : list pyval) (train_kwargs : option nat) : M string :=
    try_except
      (finetune_body train_method model train_data train_kwargs)
      (fun e =>
         error ("[Finetune] Error occurred during training: " ++ exn_str e);;
         raise e).

Definition finetune_anyscale : string -> list pyval -> option nat -> M string :=
    finetune_with SFT.

  (** A call from outside: the caller owns at most one dict object, the
      one it passes as [train_kwargs], and a job object that was just
      constructed ([job_id] is [None]). *)
Definition caller_state (train_kwargs : option dict) : state :=
    mkState (option_list train_kwargs) None [].

Definition caller_ref (train_kwargs : option dict) : option nat :=
    match train_kwargs with Some _ => Some 0%nat | None => None end.

Definition call_finetune_with (train_method : TrainingMethod) (model : string)
      (train_data : list pyval) (train_kwargs : option dict) : outcome string * state :=
    finetune_with train_method model train_data (caller_ref train_kwargs)
                  (caller_state train_kwargs).

Definition call_finetune_anyscale : string -> list pyval -> option dict ->
                                      outcome string * state :=
    call_finetune_with SFT.

  (** The caller's dict object as the call left it. *)
Definition kwargs_after (train_kwargs : option dict) (s : state) : option dict :=
    match train_kwargs with Some _ => heap s !! 0%nat | None => None end.
End WithWorld.

End Flow.

(** ** The dataset check the validator delegates to *)

Module OpenAI.
Import PyData Eff.

(** Modelled from the spec: [openai_data_validation] of
    [dspy/clients/openai.py], which is not among the sources at hand.  The
    specification says one thing of it: validation rejects a dataset
    containing an unsupported message role.  A record is a dict whose
    ["messages"] entry lists dicts with a ["role"]; which roles are
    supported is a parameter; the result is the dict of error counts, empty
    when nothing is wrong. *)
Section Roles.
  Variable supported : string -> bool.

Definition messages_of (record : pyval) : list pyval :=
    match record with
    | VDict d =>
        match dict_get d (AStr "messages") with
        | Some (VList ms) => ms
        | _ => []
        end
    | _ => []
    end.

Definition role_ok (message : pyval) : bool :=
    match message with
    | VDict d =>
        match dict_get d (AStr "role") with
        | Some (VAtom (AStr r)) => supported r
        | _ => false
        end
    | _ => false
    end.

Definition has_unsupported_role (dataset : list pyval) : bool :=
    existsb (fun m => negb (role_ok m)) (dataset ≫= messages_of).

Definition data_validation (dataset : list pyval) : outcome pyval :=
    let bad := List.filter (fun m => negb (role_ok m)) (dataset ≫= messages_of) in
    Returned (VDict match bad with
                    | [] => []
                    | _ => [(AStr "unrecognized_role", VInt (Z.of_nat (length bad)))]
                    end).
End Roles.

Definition chat_roles (r : string) : bool :=
  bool_decide (r ∈ ["system"; "user"; "assistant"; "function"]).

End OpenAI.

(** ** A small world to run the module in *)

Module Demo.
Import PyData PyStr Eff World.

(** A hash that sees the whole value: scalars by their number or their
    bytes, sequences position by position. *)
Definition modulus : Z := 2 ^ 61 - 1.

Fixpoint string_hash (s : string) : Z :=
  match s with
  | EmptyString => 5381
  | String c s' => (Z.of_nat (nat_of_ascii c) + 33 * string_hash s') mod modulus
  end.

Definition atom_hash (a : atom) : Z :=
  match a with
  | ANone => -97
  | ABool b => Z.b2z b
  | AInt n => n
  | AStr s => string_hash s
  end.

Fixpoint hash (v : pyval) : Z :=
  match v with
  | VAtom a => atom_hash a
  | VList xs | VTuple xs | VSet xs =>
      fold_right (fun x acc => (hash x - 31 * acc) mod modulus - 2 ^ 60) 17 xs
  | VDict kvs =>
      fold_right (fun kv acc => (atom_hash kv.1 + hash kv.2 + acc) mod modulus) 0 kvs
  end.

Definition env (name : string) : option string :=
  if String.eqb name "ANYSCALE_ARTIFACT_STORAGE" then Some "s3://bucket/artifacts"
  else None.

Definition template : pyval :=
  VDict [ (AStr "learning_rate", VInt 3);
          (AStr "num_checkpoints_to_keep", VInt 1);
          (AStr "logger", VDict [(AStr "provider", VStr "none")]) ].

Definition world : World.world := {|
  py_hash := hash;
  py_str := fun _ => "...";
  methods_repr := fun _ => "[SFT]";
  environ := env;
  openai_data_validation := OpenAI.data_validation OpenAI.chat_roles;
  check_message_lengths := fun ds => Returned ((fun _ => 1) <$> ds);
  save_data := fun _ _ _ => Returned "/tmp/dspy/data.jsonl";
  yaml_safe_load := fun _ _ => Returned template;
  yaml_safe_dump := fun _ _ _ => Returned tt;
  read_jsonl := fun _ _ => Returned [VNone];
  job_config_new := fun _ d => Returned (VDict d);
  job_submit := fun _ _ => Returned "prodjob_1";
  job_wait := fun _ _ _ => Returned tt;
  model_get := fun _ _ => Returned (VDict [(AStr "storage_uri", VStr "gs://b/x/y")]);
  copy_blobs := fun _ _ _ _ => Returned (["m:epoch-0"], "gs://b/dspy/lora_weights");
  rewrite_serve_config := fun _ _ _ => Returned tt
|}.

Definition message (role content : string) : pyval :=
  VDict [(AStr "role", VStr role); (AStr "content", VStr content)].

Definition record (ms : list pyval) : pyval := VDict [(AStr "messages", VList ms)].

Definition good_data : list pyval :=
  [record [message "user" "2+2?"; message "assistant" "4"]].

Definition bad_data : list pyval :=
  [record [message "user" "2+2?"; message "oracle" "4"]].

End Demo.

(** ** Vocabulary of the config-naming properties *)

Module Canon.
Import PyData Freeze.

(** Equal up to the order of dictionary keys, at any depth: the entries of
    a dict may come in another order, and their values are again equal up
    to the order of keys. *)
Inductive reorder : pyval -> pyval -> Prop :=
| reorder_atom a : reorder (VAtom a) (VAtom a)
| reorder_list xs ys : Forall2 reorder xs ys -> reorder (VList xs) (VList ys)
| reorder_tuple xs ys : Forall2 reorder xs ys -> reorder (VTuple xs) (VTuple ys)
| reorder_set xs ys : Forall2 reorder xs ys -> reorder (VSet xs) (VSet ys)
| reorder_dict kvs kvs' kvs'' :
    Forall2 (fun e e' => e.1 = e'.1 /\ reorder e.2 e'.2) kvs kvs' ->
    kvs' ≡ₚ kvs'' ->
    reorder (VDict kvs) (VDict kvs'').

(** No two of the keys are [==]. *)
Fixpoint distinct_keys (ks : list atom) : bool :=
  match ks with
  | [] => true
  | k :: ks' => negb (existsb (atom_eq k) ks') && distinct_keys ks'
  end.

(** A value as the interpreter can hold it: every dict in it has distinct
    keys. *)
Fixpoint well_formed (v : pyval) : bool :=
  match v with
  | VAtom _ => true
  | VList xs | VTuple xs | VSet xs => forallb well_formed xs
  | VDict kvs => distinct_keys (dict_keys kvs) && forallb (fun kv => well_formed kv.2) kvs
  end.

(** Entries are sorted by key. *)
Definition key_lt (e e' : atom * pyval) : option bool := atom_lt e.1 e'.1.

(** The canonical form in the words of the specification: the entries of a
    dict sorted by key, with canonical values; the elements of a list or a
    set sorted, each in canonical form; anything else as it is.  (As in
    [freeze], an element carries its canonical form through the sort.) *)
Fixpoint canonical (v : pyval) : option pyval :=
  let sorted_elements := fun xs : list pyval =>
    s ← sorted_by (fun p q : pyval * option pyval => py_lt p.1 q.1)
                  (map (fun x => (x, canonical x)) xs);
    VTuple <$> mapM snd s in
  match v with
  | VDict kvs =>
      entries ← mapM (fun kv : atom * pyval =>
                        c ← canonical kv.2; Some (kv.1, c)) kvs;
      sorted ← sorted_by key_lt entries;
      Some (VTuple ((fun e : atom * pyval => VTuple [VAtom e.1; e.2]) <$> sorted))
  | VList xs => sorted_elements xs
  | VSet xs => sorted_elements xs
  | _ => Some v
  end.

(** The pair [(key, frozen value)] that [freeze] sorts for an entry. *)
Definition item (e : atom * pyval) : pyval := VTuple [VAtom e.1; e.2].

(** An entry with its value frozen. *)
Definition frozen_entry (kv : atom * pyval) : option (atom * pyval) :=
  fv ← freeze kv.2; Some (kv.1, fv).

(** Entries with the same keys and values equal up to the order of keys. *)
Definition reorder_entry (e e' : atom * pyval) : Prop :=
  e.1 = e'.1 /\ reorder e.2 e'.2.

(** Scalars that [<] can compare are of one kind: numbers, or strings. *)
Definition kind (a : atom) : option bool :=
  match a with
  | ANone => None
  | ABool _ | AInt _ => Some false
  | AStr _ => Some true
  end.

(** Two values that [<] puts in order, or that are one and the same. *)
Definition comparable (x y : pyval) : Prop :=
  (x = y /\ py_lt x y = Some false)
  \/ (py_lt x y = Some true /\ py_lt y x = Some false)
  \/ (py_lt y x = Some true /\ py_lt x y = Some false).

(** A list whose elements are mutually orderable. *)
Definition mutually_orderable (l : list pyval) : Prop :=
  Forall (fun x => Forall (comparable x) l) l.

(** The file name for a hash value, in the words of the specification. *)
Definition filename_of_hash (h : Z) : string :=
  "model_config_dspy_" ++ pretty (Z.to_N (Z.abs h)) ++ ".yaml".

End Canon.

(** ** Vocabulary of the properties *)

Module Laws.
Import PyData PyStr Eff World Freeze Config Flow.

(** Every run of [m] relates the state it starts in to the state it ends
    in by [R], whether it returns or raises. *)
Definition steps {A} (R : state -> state -> Prop) (m : M A) : Prop :=
  forall s, R s (m s).2.

(** The trace grew by events that all satisfy [Q]. *)
Definition emits (Q : event -> Prop) (s s' : state) : Prop :=
  exists evs, trace s' = (trace s ++ evs)%list /\ Forall Q evs.

Definition keeps {X} (f : state -> X) (s s' : state) : Prop := f s' = f s.

(** The job-wait step and what the flow does after it. *)
Definition wait_or_later (ev : event) : bool :=
  match ev with
  | JobWait _ _ | ModelGet _ | CopyLoraWeights _ _ | ServeConfigUpdate _ _ => true
  | _ => false
  end.

(** Data upload, config generation, job submission and everything after. *)
Definition upload_or_later (ev : event) : bool :=
  match ev with
  | Log _ _ | Validate _ | MessageLengths _ => false
  | _ => true
  end.

(** The [job_id] attribute is left alone and only [Q]-events happen. *)
Definition quiet (Q : event -> Prop) (s s' : state) : Prop :=
  job_id_attr s' = job_id_attr s /\ emits Q s s'.

Definition attribute_error : exn :=
  AttributeError "object has no attribute 'job_id'".

Definition validation_error : string :=
  "[Finetune] Error: Unable to verify that the dataset is in the correct format.".

(** What holds of a piece of the flow in which the wait step is the second
    definition of [wait_for_training]: started before a job was submitted,
    it raises, it never reaches the platform's wait or anything after it,
    and once a job id has been stored the exception is the attribute
    error. *)
Definition stuck_at_wait {A} (m : M A) : Prop :=
  forall s, job_id_attr s = None ->
    let r := m s in
    (exists e, r.1 = Raised e)
    /\ emits (fun ev => wait_or_later ev = false) s r.2
    /\ (forall id, job_id_attr r.2 = Some id -> r.1 = Raised attribute_error).

(** [w] with another answer of the message-length check. *)
Definition with_lengths (w : world) (f : list pyval -> outcome (list Z)) : world :=
  mkWorld (py_hash w) (py_str w) (methods_repr w) (environ w)
          (openai_data_validation w) f (save_data w)
          (yaml_safe_load w) (yaml_safe_dump w) (read_jsonl w)
          (job_config_new w) (job_submit w) (job_wait w) (model_get w)
          (copy_blobs w) (rewrite_serve_config w).

(** The validator's verdict depends on the lengths the message-length
    check reports: two reports lead to different outcomes for some
    dataset. *)
Definition lengths_decide : Prop :=
  exists (w : world) (dataset : list pyval) (lens lens' : list Z) (s : state),
    (verify_dataset (with_lengths w (fun _ => Returned lens)) dataset s).1
    <> (verify_dataset (with_lengths w (fun _ => Returned lens')) dataset s).1.

(** The copy command for a destination, chosen by its first two
    characters. *)
Definition copy_command (path remote_path : string) : string :=
  if String.prefix "s3" remote_path then "aws s3 cp " ++ path ++ " " ++ remote_path
  else if String.prefix "gs" remote_path then
    "gcloud storage cp " ++ path ++ " " ++ remote_path
  else "cp " ++ path ++ " " ++ remote_path.

(** The commands handed to [os.system], in order. *)
Definition shell_commands (t : list event) : list string :=
  omap (fun ev => match ev with OsSystem c => Some c | _ => None end) t.

(** Where [submit_data] puts a local file. *)
Definition destination (storage path : string) : string :=
  path_join storage [last_component path].

(** The fixed operational fields of a model config. *)
Definition has_fixed_fields (data : pyval) : Prop :=
  exists d,
    data = VDict d
    /\ dict_get d (key "logger") = Some (VDict [(key "provider", VStr "wandb")])
    /\ dict_get d (key "num_checkpoints_to_keep") = Some (VInt 10).

(** The YAML documents written, in order, with their file names. *)
Definition dumped (t : list event) : list (string * pyval) :=
  omap (fun ev => match ev with YamlDump p d => Some (p, d) | _ => None end) t.

Definition no_dump (ev : event) : bool :=
  match ev with YamlDump _ _ => false | _ => true end.

(** A piece of the config renderer that writes the model config: whatever
    it writes has the fixed fields, and if it returns it has written
    exactly one document. *)
Definition writes_fixed_fields {A} (m : M A) : Prop :=
  forall s,
    let r := m s in
    exists evs,
      trace r.2 = (trace s ++ evs)%list
      /\ Forall (fun pd => has_fixed_fields pd.2) (dumped evs)
      /\ (forall a, r.1 = Returned a -> exists path data, dumped evs = [(path, data)]).

(** The frame claim as the specification has it, for one caller-supplied
    mapping: with
    ["model"] not a key, the call leaves the caller's object changed. *)
Definition mutates_callers_kwargs (w : world) (model : string)
    (train_data : list pyval) (d : dict) : Prop :=
  dict_has d (key "model") = false ->
  kwargs_after (Some d) (call_finetune_anyscale w model train_data (Some d)).2
  <> Some d.

End Laws.

(** ** Vocabulary of the properties of the config renderer *)

Module Shape.
Import PyData PyStr Eff World Freeze Config Canon.

(** What [<] looks at first: operands of different classes raise
    [TypeError], and so do [None] and dicts, even against themselves. *)
Inductive sort_class : Type := Number | Text | ListClass | TupleClass | SetClass.

Definition class_of (v : pyval) : option sort_class :=
  match v with
  | VAtom (ABool _ | AInt _) => Some Number
  | VAtom (AStr _) => Some Text
  | VList _ => Some ListClass
  | VTuple _ => Some TupleClass
  | VSet _ => Some SetClass
  | VAtom ANone | VDict _ => None
  end.

(** Some two elements of the list are of different classes, or one of
    them takes part in no ordering at all. *)
Definition mixed (l : list pyval) : Prop :=
  exists (i j : nat) (x y : pyval),
    i <> j /\ l !! i = Some x /\ l !! j = Some y
    /\ (class_of x <> class_of y \/ class_of x = None).

(** Every tuple in the value, wherever [freeze] can meet it, is hashable:
    [freeze] turns lists, sets and dicts into tuples and returns anything
    else, a tuple included, as it is. *)
Fixpoint tuples_hashable (v : pyval) : bool :=
  match v with
  | VAtom _ => true
  | VTuple xs => forallb hashable xs
  | VList xs | VSet xs => forallb tuples_hashable xs
  | VDict kvs => forallb (fun kv : atom * pyval => tuples_hashable kv.2) kvs
  end.

Definition is_number (v : pyval) : bool :=
  match v with VAtom (ABool _ | AInt _) => true | _ => false end.

Definition is_text (v : pyval) : bool :=
  match v with VAtom (AStr _) => true | _ => false end.

(** A config as a YAML document usually is: scalars, lists of numbers or
    of strings, and mappings with distinct string keys. *)
Fixpoint regular (v : pyval) : bool :=
  match v with
  | VAtom _ => true
  | VList xs => forallb is_number xs || forallb is_text xs
  | VDict kvs =>
      distinct_keys (dict_keys kvs)
      && forallb (fun kv : atom * pyval => is_text (VAtom kv.1)) kvs
      && forallb (fun kv : atom * pyval => regular kv.2) kvs
  | VTuple _ | VSet _ => false
  end.

(** A regular config in which tuples may stand wherever a scalar may:
    [freeze] returns a tuple as it is, whatever it holds. *)
Fixpoint plain (v : pyval) : bool :=
  match v with
  | VAtom _ | VTuple _ => true
  | VList xs => forallb is_number xs || forallb is_text xs
  | VDict kvs =>
      distinct_keys (dict_keys kvs)
      && forallb (fun kv : atom * pyval => is_text (VAtom kv.1)) kvs
      && forallb (fun kv : atom * pyval => plain kv.2) kvs
  | VSet _ => false
  end.

(** The stability of the file name read for every mapping: whatever the
    config, it and each of its key-reorderings get one and the same file
    name. *)
Definition every_mapping_gets_one_name : Prop :=
  forall (w : world) (d d' : dict) (s : state),
    well_formed (VDict d) = true ->
    reorder (VDict d) (VDict d') ->
    exists name,
      name_config w d s = (Returned name, s)
      /\ name_config w d' s = (Returned name, s).

(** The model config that [generate_config_files] names and writes, from
    the template it loaded and the entries of the hyperparameters: lines
    250 to 267. *)
Definition merged_config (template hyperparameters : dict) (model : pyval)
    (train_path : string) (eval_path : option string) (kwargs : dict) : dict :=
  let custom_modifications := fixed_fields model train_path eval_path in
  let custom_modifications :=
    if truthy (get_or kwargs "output_dir" VNone)
    then dict_set custom_modifications (key "output_dir") (get_or kwargs "output_dir" VNone)
    else custom_modifications in
  drop_none
    (dict_update (dict_set (dict_update template hyperparameters) (key "model_id") model)
                 custom_modifications).

(** The keys [generate_config_files] sets itself. *)
Definition reserved (k : atom) : bool :=
  existsb (atom_eq k)
    [ key "model_id"; key "train_path"; key "valid_path"; key "logger";
      key "num_checkpoints_to_keep"; key "output_dir" ].

(** The job configs handed to the platform's [JobConfig], in order. *)
Definition job_configs (t : list event) : list dict :=
  omap (fun ev => match ev with JobConfigNew fields => Some fields | _ => None end) t.

(** The YAML files read, in order. *)
Definition loaded (t : list event) : list pyval :=
  omap (fun ev => match ev with YamlLoad p => Some p | _ => None end) t.

End Shape.

(** ** More vocabulary of the config renderer *)

Module Render.
Import PyData PyStr Eff World Freeze Config Canon.

(** The template [generate_config_files] reads: the caller's
    [train_config_yaml] when that is truthy, otherwise the default for the
    model's family in the directory of the training mode (lines 220 to
    246). *)
Definition template_of (kwargs : dict) (model : pyval) : outcome pyval :=
  let base_model_yaml_path := get_or kwargs "train_config_yaml" VNone in
  let lora_path :=
    if truthy (get_or kwargs "use_lora" (VBool false)) then "configs/training/lora"
    else "configs/training/full_param" in
  if truthy base_model_yaml_path then Returned base_model_yaml_path
  else
    match model with
    | VAtom (AStr model_name) =>
        match get_yaml_config model_name with
        | Returned default_model_yaml_path =>
            Returned (VStr (path_join "" [lora_path; default_model_yaml_path]))
        | Raised e => Raised e
        end
    | _ => Raised (AttributeError "object has no attribute 'lower'")
    end.

(** The fields of the job config before the caller's [compute_config] is
    merged in (lines 289 to 302). *)
Definition default_job_config (w : world) (filename : string) : dict :=
  [ (key "name", VStr "dspy-llmforge-fine-tuning-job");
    (key "entrypoint", VStr ("llmforge anyscale finetune " ++ filename));
    (key "working_dir", VStr ".");
    (key "image_uri", VStr "localhost:5555/anyscale/llm-forge:0.5.6");
    (key "requirements", VList [VStr "wandb"]);
    (key "env_vars",
     VDict [ (key "WANDB_API_KEY", default_env w "WANDB_API_KEY");
             (key "HF_TOKEN", default_env w "HF_TOKEN");
             (key "HF_HOME", default_env w "HF_HOME") ]) ].

(** The first of the mappings that has the key decides. *)
Fixpoint first_of (ds : list dict) (k : atom) : option pyval :=
  match ds with
  | [] => None
  | d :: ds' =>
      match dict_get d k with
      | Some v => Some v
      | None => first_of ds' k
      end
  end.

(** The fixed fields with the caller's [output_dir], when that is truthy
    (lines 254 to 264). *)
Definition custom_modifications (model : pyval) (train_path : string)
    (eval_path : option string) (kwargs : dict) : dict :=
  if truthy (get_or kwargs "output_dir" VNone)
  then dict_set (fixed_fields model train_path eval_path) (key "output_dir")
         (get_or kwargs "output_dir" VNone)
  else fixed_fields model train_path eval_path.

(** The outcome of the naming step (lines 278 to 283). *)
Definition name_of (w : world) (cfg : dict) : outcome string :=
  match freeze (VDict cfg) with
  | None => Raised (TypeError "'<' not supported between instances")
  | Some c =>
      if hashable c then
        let dict_sorted_hash := py_hash w c in
        Returned (config_filename
                    (if dict_sorted_hash <? 0 then - dict_sorted_hash else dict_sorted_hash))
      else Raised (TypeError "unhashable type")
  end.

Definition is_log (ev : event) : bool :=
  match ev with Log _ _ => true | _ => false end.

(** The state after more events. *)
Definition after (s : state) (evs : list event) : state :=
  mkState (heap s) (job_id_attr s) (trace s ++ evs).

End Render.

(** ** Vocabulary of further properties of the uploader and of the flow *)

Module Upload.
Import PyData PyStr Eff World Config Flow.

(** A remote path directly under the storage root: the root, a separator
    where the root does not end in one, and a name without separators. *)
Definition under (storage remote : string) : Prop :=
  exists name,
    contains "/" name = false
    /\ (remote = storage ++ name \/ remote = storage ++ "/" ++ name).

(** The characters of a string. *)
Definition chars (s : string) : list ascii := list_ascii_of_string s.

(** What the [except] clause of [finetune_anyscale] logs for an
    exception. *)
Definition failure_log (e : exn) : event :=
  Log ERROR ("[Finetune] Error occurred during training: " ++ exn_str e).

(** [w] without a storage root in the environment. *)
Definition without_storage (w : world) : world :=
  mkWorld (py_hash w) (py_str w) (methods_repr w)
          (fun name => if String.eqb name "ANYSCALE_ARTIFACT_STORAGE" then None
                       else environ w name)
          (openai_data_validation w) (check_message_lengths w) (save_data w)
          (yaml_safe_load w) (yaml_safe_dump w) (read_jsonl w)
          (job_config_new w) (job_submit w) (job_wait w) (model_get w)
          (copy_blobs w) (rewrite_serve_config w).

End Upload.

(** ** The order of the steps of the flow *)

Module Pipeline.
Import PyData PyStr Eff World Config Flow.

(** The calls that leave the module, numbered in the order in which
    [finetune_anyscale] makes them; log lines belong to no step. *)
Definition step_of (ev : event) : option nat :=
  match ev with
  | Log _ _ => None
  | Validate _ => Some 0%nat
  | MessageLengths _ => Some 1%nat
  | SaveData _ _ => Some 2%nat
  | EnvRead _ => Some 3%nat
  | FileRead _ => Some 4%nat
  | OsSystem _ => Some 5%nat
  | YamlLoad _ => Some 6%nat
  | YamlDump _ _ => Some 7%nat
  | JobConfigNew _ => Some 8%nat
  | JobSubmit _ => Some 9%nat
  | JobWait _ _ => Some 10%nat
  | ModelGet _ => Some 11%nat
  | CopyLoraWeights _ _ => Some 12%nat
  | ServeConfigUpdate _ _ => Some 13%nat
  end.

Definition steps_taken (t : list event) : list nat := omap step_of t.

(** The last step of the flow that is ever reached is the submission of
    the job. *)
Definition last_step : nat := 10.

(** A piece of the flow that starts when the steps below [lo] are done:
    it takes the next steps in order, each once; when it returns [a] the
    steps below [hi a] are done, and when it raises it has taken some of
    them.  It stores a job id only when all the steps are done. *)
Definition in_order {A} (lo : nat) (hi : A -> nat) (m : M A) : Prop :=
  forall s,
    exists evs,
      trace (m s).2 = (trace s ++ evs)%list
      /\ match (m s).1 with
         | Returned a =>
             steps_taken evs = seq lo (hi a - lo) /\ (lo <= hi a <= last_step)%nat
         | Raised _ =>
             exists n, steps_taken evs = seq lo n /\ (lo + n <= last_step)%nat
         end
      /\ (job_id_attr (m s).2 = job_id_attr s
          \/ (lo + length (steps_taken evs))%nat = last_step).

End Pipeline.

(** * Properties *)

Import PyData PyStr Eff World Freeze Config Flow Canon Laws.

(** ** Reasoning about runs *)

Section Steps.
  Context (R : state -> state -> Prop) `{!PreOrder R} (Q : event -> Prop).
  Hypothesis R_record : forall ev s, Q ev -> R s (record ev s).

Lemma steps_ret {A} (a : A) : steps R (mret a).
  Proof. intros s. reflexivity. Qed.

Lemma steps_raise {A} (e : exn) : steps R (@raise A e).
  Proof. intros s. reflexivity. Qed.

Lemma steps_bind {A B} (m : M A) (k : A -> M B) :
    steps R m -> (forall a, steps R (k a)) -> steps R (m ≫= k).
  Proof.
    intros Hm Hk s. unfold mbind, M_bind, bind.
    specialize (Hm s). destruct (m s) as [[a|e] s']; simpl in *; [|done].
    etrans; [exact Hm|apply Hk].
  Qed.

Lemma steps_try_except {A} (m : M A) (h : exn -> M A) :
    steps R m -> (forall e, steps R (h e)) -> steps R (try_except m h).
  Proof.
    intros Hm Hh s. unfold try_except.
    specialize (Hm s). destruct (m s) as [[a|e] s']; simpl in *; [done|].
    etrans; [exact Hm|apply Hh].
  Qed.

Lemma steps_emit ev : Q ev -> steps R (emit ev).
  Proof. intros HQ s. by apply R_record. Qed.

Lemma steps_ask {A} ev (answer : list event -> outcome A) :
    Q ev -> steps R (ask ev answer).
  Proof. intros HQ s. by apply R_record. Qed.

Lemma steps_assert b msg : steps R (assert b msg).
  Proof. destruct b; [apply steps_ret|apply steps_raise]. Qed.

Lemma steps_deref r : steps R (deref r).
  Proof. intros s. reflexivity. Qed.

Lemma steps_get_job_id : steps R get_job_id.
  Proof. intros s. reflexivity. Qed.
End Steps.

#[local] Instance emits_preorder Q : PreOrder (emits Q).
Proof.
  split.
  - intros s. exists []. by rewrite app_nil_r.
  - intros s1 s2 s3 (e1 & H1 & F1) (e2 & H2 & F2). exists (e1 ++ e2)%list.
    split; [by rewrite H2, H1, app_assoc|by apply Forall_app].
Qed.

#[local] Instance keeps_preorder {X} (f : state -> X) : PreOrder (keeps f).
Proof. split; unfold keeps; [done|]. intros s1 s2 s3 H1 H2. congruence. Qed.

#[local] Instance quiet_preorder Q : PreOrder (quiet Q).
Proof.
  split.
  - intros s. split; [done|reflexivity].
  - intros s1 s2 s3 [J1 E1] [J2 E2]. split; [congruence|by etrans].
Qed.

Lemma emits_record Q ev s : Q ev -> emits Q s (record ev s).
Proof. intros HQ. exists [ev]. split; [done|by apply Forall_singleton]. Qed.

Lemma quiet_record Q ev s : Q ev -> quiet Q s (record ev s).
Proof. intros HQ. split; [done|by apply emits_record]. Qed.

Lemma keeps_heap_record (Q : event -> Prop) ev s : Q ev -> keeps heap s (record ev s).
Proof. done. Qed.

(** Walks through a monadic term, one primitive at a time.  [HR] says
    that recording an allowed event is a step of the relation at hand,
    [side] shows that an event is allowed, [extra] closes the calls that
    have a lemma of their own. *)
Ltac walk HR side extra :=
  repeat first
    [ extra
    | apply steps_ret; tc_solve
    | apply steps_raise; tc_solve
    | apply steps_assert; tc_solve
    | apply steps_deref; tc_solve
    | apply steps_get_job_id; tc_solve
    | apply (steps_emit _ _ HR); side
    | apply (steps_ask _ _ HR); side
    | apply steps_bind; [tc_solve| |intros ?]
    | apply steps_try_except; [tc_solve| |intros ?]
    | progress (cbv zeta)
    | case_match ].

(** The calls the flow makes before it waits for the job. *)
Section BeforeWait.
  Context (R : state -> state -> Prop) `{!PreOrder R} (Q : event -> Prop).
  Hypothesis R_record : forall ev s, Q ev -> R s (record ev s).
  Hypothesis Q_early : forall ev, wait_or_later ev = false -> Q ev.
  Variable w : world.

Local Ltac go := walk R_record ltac:(apply Q_early; reflexivity) fail.

Lemma steps_verify_dataset ds : steps R (verify_dataset w ds).
  Proof. unfold verify_dataset, error. go. Qed.

Lemma steps_upload name path storage : steps R (upload w name path storage).
  Proof. unfold upload, info. go. Qed.

Lemma steps_upload_all datasets storage : steps R (upload_all w datasets storage).
  Proof.
    induction datasets as [|[name path] rest IH]; simpl.
    - go.
    - walk R_record ltac:(apply Q_early; reflexivity)
           ltac:(first [apply steps_upload | apply IH]).
  Qed.

Lemma steps_submit_data train_path eval_path :
    steps R (submit_data w train_path eval_path).
  Proof.
    unfold submit_data.
    walk R_record ltac:(apply Q_early; reflexivity) ltac:(apply steps_upload_all).
  Qed.

Lemma steps_generate_config_files train_path eval_path kwargs :
    steps R (generate_config_files w train_path eval_path kwargs).
  Proof.
    unfold generate_config_files, name_config, hash_dict, update_with, getitem, info.
    go.
  Qed.

Lemma steps_spread given kwargs : steps R (spread given kwargs).
  Proof. unfold spread. go. Qed.

Lemma steps_start_remote_training cfg kwargs :
    steps R (start_remote_training w cfg kwargs).
  Proof. unfold start_remote_training. go. Qed.
End BeforeWait.

Lemma quiet_store Q r d : steps (quiet Q) (store r d).
Proof. intros s. split; [done|]. exists []. by rewrite app_nil_r. Qed.

Lemma quiet_new_dict Q : steps (quiet Q) new_dict.
Proof. intros s. split; [done|]. exists []. by rewrite app_nil_r. Qed.

(** Runs the monad's plumbing, leaving calls to the module's functions and
    to the world in place. *)
Ltac run :=
  cbv [mbind M_bind bind mret M_ret ret raise try_except assert emit ask info
       error record set_job_id get_job_id deref store new_dict
       wait_for_training heap job_id_attr trace fst snd];
  cbv beta iota.

(** ** The job-wait step *)

Section WaitStep.
  Variable w : world.
Let Qw : event -> Prop := fun ev => wait_or_later ev = false.

Lemma stuck_bind {A B} (m : M A) (k : A -> M B) :
    steps (quiet Qw) m -> (forall a, stuck_at_wait (k a)) -> stuck_at_wait (m ≫= k).
  Proof.
    intros Hm Hk s Hs. unfold mbind, M_bind, bind.
    destruct (Hm s) as [Hj He]. destruct (m s) as [[a|e] s']; simpl in *.
    - destruct (Hk a s') as (Hr & Hev & Hid); [congruence|].
      split; [done|]. split; [|done]. by etrans.
    - split; [by eexists|]. split; [done|]. intros id Hid. congruence.
  Qed.

  (** From the moment the job id is stored, whatever is planned after the
      wait. *)
Lemma stuck_after_submit {A} (job_id : string) (rest : M A) :
    stuck_at_wait
      (set_job_id job_id;;
       info ("[Finetune] Remote training started. Job ID: " ++ job_id);;
       info "[Finetune] Waiting for training to complete...";;
       id ← get_job_id;
       wait_for_training w (ArgVal id);;
       rest).
  Proof.
    intros s Hs. run. split; [by eexists|]. split; [|done].
    eexists [_; _; _]. split; [by rewrite <- !app_assoc|].
    by repeat constructor.
  Qed.

Lemma stuck_try_except (m : M string) :
    stuck_at_wait m ->
    stuck_at_wait
      (try_except m (fun e =>
         error ("[Finetune] Error occurred during training: " ++ exn_str e);;
         raise e)).
  Proof.
    intros Hm s Hs. destruct (Hm s Hs) as ([e He] & Hev & Hid).
    unfold try_except. destruct (m s) as [[a|e'] s']; simpl in *; [done|].
    injection He as ->. split; [by eexists|]. split; [|done].
    etrans; [exact Hev|]. by apply emits_record.
  Qed.

Lemma finetune_body_stuck method model train_data train_kwargs :
    stuck_at_wait (finetune_body w method model train_data train_kwargs).
  Proof.
    unfold finetune_body, or_new_dict, info, error.
    repeat
      (apply stuck_bind;
       [ solve [ walk (quiet_record Qw) ltac:(reflexivity)
                   ltac:(first [ apply quiet_store | apply quiet_new_dict
                               | apply (steps_verify_dataset _ Qw (quiet_record Qw)); done
                               | apply (steps_submit_data _ Qw (quiet_record Qw)); done
                               | apply (steps_generate_config_files _ Qw (quiet_record Qw)); done
                               | apply steps_spread; tc_solve
                               | apply (steps_start_remote_training _ Qw (quiet_record Qw)); done ]) ]
       | intros ? ]).
    apply stuck_after_submit.
  Qed.
End WaitStep.

(** C4 (the code departs from the claim).  Whatever the world answers,
    [finetune_anyscale] never returns: it raises, the platform's wait is
    never invoked and model info is never retrieved; and as soon as a job
    has been submitted and its id stored, the exception is the
    [AttributeError] of the second [wait_for_training], which is handed the
    job id where it expects the job object. *)
Theorem finetune_anyscale_never_waits (w : world) (model : string)
    (train_data : list pyval) (train_kwargs : option dict) :
  let r := call_finetune_anyscale w model train_data train_kwargs in
  (exists e, r.1 = Raised e)
  /\ Forall (fun ev => wait_or_later ev = false) (trace r.2)
  /\ (forall id, job_id_attr r.2 = Some id -> r.1 = Raised attribute_error).
Proof.
  pose proof (stuck_try_except _
                (finetune_body_stuck w SFT model train_data (caller_ref train_kwargs))
                (caller_state train_kwargs) eq_refl) as (Hr & (evs & Ht & Hq) & Hid).
  cbv zeta. split; [exact Hr|]. split; [|exact Hid].
  unfold call_finetune_anyscale, call_finetune_with, finetune_with.
  by rewrite Ht.
Qed.

(** The first definition of [wait_for_training], which the second one
    shadows, is the one that does what the flow needs. *)
Lemma wait_for_training_158_waits (w : world) (job_id : string) (s : state) :
  wait_for_training_158 w job_id s
  = (job_wait w (trace s) job_id 18000, record (JobWait job_id 18000) s).
Proof. reflexivity. Qed.

Lemma wait_for_training_on_id (w : world) (v : pyval) (s : state) :
  wait_for_training w (ArgVal v) s
  = (Raised attribute_error, record (Log INFO "Waiting for training to complete") s).
Proof. reflexivity. Qed.

(** A run in the demo world: the job is submitted, then the wait fails. *)
Example finetune_demo_run :
  let r := call_finetune_anyscale Demo.world "meta-llama/Llama-3-8b" Demo.good_data None in
  r.1 = Raised attribute_error
  /\ job_id_attr r.2 = Some "prodjob_1"
  /\ List.last (trace r.2) (Log INFO "")
     = Log ERROR "[Finetune] Error occurred during training: object has no attribute 'job_id'".
Proof. vm_compute. done. Qed.

(** ** Running [finetune_anyscale] from its first line *)

Lemma try_bind {A B} (m : M A) (k : A -> M B) (h : exn -> M B) (s : state) :
  try_except (m ≫= k) h s
  = match m s with
    | (Returned a, s') => try_except (k a) h s'
    | (Raised e, s') => h e s'
    end.
Proof. unfold try_except, mbind, M_bind, bind. by destruct (m s) as [[a|e] s']. Qed.

Ltac exec := rewrite try_bind; simpl.

Lemma keeps_heap_set_job_id id : steps (keeps heap) (set_job_id id).
Proof. done. Qed.

(** From the validation step on, the flow leaves the dict objects alone. *)
Ltac heap_frame w :=
  let HR := constr:(keeps_heap_record (fun _ => True)) in
  unfold wait_for_training, get_model_info, copy_lora_weights,
    update_model_config, info, error;
  walk HR ltac:(exact I)
       ltac:(first [ apply keeps_heap_set_job_id
                   | apply (steps_verify_dataset _ (fun _ => True) HR); done
                   | apply (steps_submit_data _ (fun _ => True) HR); done
                   | apply (steps_generate_config_files _ (fun _ => True) HR); done
                   | apply steps_spread; tc_solve
                   | apply (steps_start_remote_training _ (fun _ => True) HR); done ]).

Lemma dict_get_set (d : dict) (k : atom) (v : pyval) :
  atom_eq k k = true -> dict_get (dict_set d k v) k = Some v.
Proof.
  intros Hk. induction d as [|[k' v'] d IH]; simpl.
  - by rewrite Hk.
  - destruct (atom_eq k' k) eqn:E; simpl; by rewrite E.
Qed.

Lemma atom_eq_refl (a : atom) : atom_eq a a = true.
Proof.
  destruct a as [|b|n|s]; simpl; try done.
  - by destruct b.
  - apply Z.eqb_refl.
  - apply String.eqb_refl.
Qed.

Lemma atom_eq_sym (a b : atom) : atom_eq a b = atom_eq b a.
Proof.
  destruct a as [|x|m|s], b as [|y|n|t]; simpl; try done;
    try apply Z.eqb_sym; try apply String.eqb_sym.
Qed.

Lemma atom_eq_trans (a b c : atom) :
  atom_eq a b = true -> atom_eq b c = true -> atom_eq a c = true.
Proof.
  destruct a as [|x|m|s], b as [|y|n|t], c as [|z|p|u]; simpl; try done;
    rewrite ?Z.eqb_eq, ?String.eqb_eq; congruence.
Qed.

Lemma dict_get_del (d : dict) (k : atom) : dict_get (dict_del d k) k = None.
Proof.
  induction d as [|[k' v'] d IH]; simpl; [done|].
  destruct (atom_eq k' k) eqn:E; simpl; [done|]. by rewrite E.
Qed.

Lemma dict_get_del_ne (d : dict) (k k' : atom) :
  atom_eq k k' = false -> dict_get (dict_del d k) k' = dict_get d k'.
Proof.
  intros Hne. induction d as [|[k0 v0] d IH]; simpl; [done|].
  destruct (atom_eq k0 k) eqn:E; simpl.
  - destruct (atom_eq k0 k') eqn:E'; [|done].
    rewrite atom_eq_sym in E. by rewrite (atom_eq_trans _ _ _ E E') in Hne.
  - by rewrite IH.
Qed.

Lemma dict_pop_get (d : dict) (k : atom) (default : pyval) :
  dict_get (dict_pop d k default).2 k = None.
Proof.
  unfold dict_pop. destruct (dict_get d k) eqn:E; simpl; [|done].
  apply dict_get_del.
Qed.

Lemma dict_pop_get_ne (d : dict) (k k' : atom) (default : pyval) :
  atom_eq k k' = false ->
  dict_get (dict_pop d k default).2 k' = dict_get d k'.
Proof.
  intros Hne. unfold dict_pop. destruct (dict_get d k) eqn:E; simpl; [|done].
  by apply dict_get_del_ne.
Qed.

Lemma dict_has_false (d : dict) (k : atom) :
  dict_has d k = false <-> dict_get d k = None.
Proof.
  unfold dict_has. rewrite bool_decide_eq_false, <- eq_None_not_Some. done.
Qed.

(** ** The caller's keyword dictionary *)

(** C10 (counterexample).  An empty dict is a caller-supplied mapping that
    satisfies the precondition, and the call leaves it empty:
    [train_kwargs or {}] replaces a falsy argument by a new dict, and it is
    the new dict that receives ["model"]. *)
Lemma empty_kwargs_left_unchanged :
  ~ mutates_callers_kwargs Demo.world "meta-llama/Llama-3-8b" Demo.good_data [].
Proof. intros H. by apply H. Qed.

(** C10 (amended).  For a caller-supplied mapping that is not empty and has
    no key ["model"], the caller's own dict object ends up with the key
    ["model"] bound to the model and without the key
    ["serve_config_path"], whatever happens later in the call; so it is not
    left unchanged.  All other keys keep their values. *)
Theorem nonempty_kwargs_mutated_in_place (w : world) (model : string)
    (train_data : list pyval) (d : dict) :
  d <> [] ->
  dict_has d (key "model") = false ->
  let r := call_finetune_anyscale w model train_data (Some d) in
  let d' := (dict_pop (dict_set d (key "model") (VStr model))
                      (key "serve_config_path") (VStr "serve_1B.yaml")).2 in
  kwargs_after (Some d) r.2 = Some d'
  /\ dict_get d' (key "model") = Some (VStr model)
  /\ dict_get d' (key "serve_config_path") = None
  /\ d' <> d.
Proof.
  intros Hd Hm r d'.
  assert (Hmodel : dict_get d' (key "model") = Some (VStr model)).
  { unfold d'. rewrite dict_pop_get_ne by done. by apply dict_get_set. }
  split; [|split; [done|split; [apply dict_pop_get|]]].
  - unfold r, call_finetune_anyscale, call_finetune_with, finetune_with,
      finetune_body, kwargs_after.
    exec. destruct d as [|kv d]; [done|]. simpl.
    exec. exec. rewrite Hm. simpl. exec. exec. exec. exec. exec. exec.
    match goal with
    | |- heap (?m ?s).2 !! _ = _ =>
        assert (Hk : steps (keeps heap) m) by heap_frame w;
        rewrite (Hk s)
    end.
    done.
  - intros Heq. rewrite Heq in Hmodel.
    apply dict_has_false in Hm. congruence.
Qed.

(** C10 (a run of the amended statement). *)
Lemma nonempty_kwargs_mutated_in_place_witness :
  kwargs_after (Some [(key "serve_config_path", VStr "serve.yaml");
                      (key "use_lora", VBool true)])
    (call_finetune_anyscale Demo.world "meta-llama/Llama-3-8b" Demo.good_data
       (Some [(key "serve_config_path", VStr "serve.yaml");
              (key "use_lora", VBool true)])).2
  = Some [(key "use_lora", VBool true);
          (key "model", VStr "meta-llama/Llama-3-8b")].
Proof.
  exact (proj1 (nonempty_kwargs_mutated_in_place Demo.world
                  "meta-llama/Llama-3-8b" Demo.good_data
                  [(key "serve_config_path", VStr "serve.yaml");
                   (key "use_lora", VBool true)]
                  ltac:(discriminate) ltac:(reflexivity))).
Defined.

(** ** Rejections before anything is uploaded *)

Lemma verify_dataset_false (w : world) (ds : list pyval) (s : state) :
  (verify_dataset w ds s).1 = Returned false ->
  exists v, openai_data_validation w ds = Returned v /\ truthy v = true.
Proof.
  unfold verify_dataset. unfold mbind, M_bind, bind, ask. simpl.
  destruct (openai_data_validation w ds) as [v|e]; [|done].
  destruct (truthy v) eqn:Hv; [by eauto|].
  simpl. by destruct (check_message_lengths w ds).
Qed.

(** C7.  When the dataset fails validation, nothing is uploaded, no config
    is generated and no job is submitted: the call raises, having done
    nothing but log and validate.  When moreover the caller respects the
    function's asserted precondition (no key ["model"] in [train_kwargs]),
    the exception is the [RuntimeError] with the fixed message, logged as an
    error just before it is raised (and once more by the [except]
    clause). *)
Theorem invalid_dataset_raises_before_upload (w : world) (model : string)
    (train_data : list pyval) (train_kwargs : option dict) :
  (forall s, (verify_dataset w train_data s).1 = Returned false) ->
  let r := call_finetune_anyscale w model train_data train_kwargs in
  ((exists e, r.1 = Raised e)
   /\ Forall (fun ev => upload_or_later ev = false) (trace r.2))
  /\ ((forall d, train_kwargs = Some d -> dict_has d (key "model") = false) ->
      r.1 = Raised (RuntimeError validation_error)
      /\ exists v,
          openai_data_validation w train_data = Returned v
          /\ trace r.2 =
             [ Log INFO "[Finetune] Starting training process...";
               Log INFO "[Finetune] Retrieving the `serve_config_path` if provided, otherwise defaulting to `serve_1B.yaml`...";
               Log INFO "[Finetune] Validating the dataset format...";
               Validate train_data;
               Log ERROR ("Dataset validation failed: " ++ py_str w v);
               Log ERROR validation_error;
               Log ERROR ("[Finetune] Error occurred during training: " ++ validation_error) ]).
Proof.
  intros Hv r.
  destruct (verify_dataset_false w train_data (caller_state None) (Hv _))
    as (v & Hval & Htruthy).
  assert (Hver : forall s, verify_dataset w train_data s
            = (Returned false,
               record (Log ERROR ("Dataset validation failed: " ++ py_str w v))
                      (record (Validate train_data) s))).
  { intros s. unfold verify_dataset, mbind, M_bind, bind, ask. simpl.
    by rewrite Hval, Htruthy. }
  unfold r, call_finetune_anyscale, call_finetune_with, finetune_with, finetune_body.
  destruct train_kwargs as [[|kv d]|]; simpl.
  - repeat exec. rewrite Hver. repeat exec. split; [split|]; [by eexists|by repeat constructor|].
    intros _. split; [done|]. by exists v.
  - exec. exec.
    destruct (dict_has (kv :: d) (key "model")) eqn:Hm; simpl.
    + split; [split|]; [by eexists|by repeat constructor|].
      intros H. by rewrite (H _ eq_refl) in Hm.
    + repeat exec. rewrite Hver. repeat exec.
      split; [split|]; [by eexists|by repeat constructor|].
      intros _. split; [done|]. by exists v.
  - repeat exec. rewrite Hver. repeat exec. split; [split|]; [by eexists|by repeat constructor|].
    intros _. split; [done|]. by exists v.
Qed.

(** C7 (a run).  The demo dataset with a message of role ["oracle"]. *)
Lemma invalid_dataset_raises_before_upload_witness :
  (call_finetune_anyscale Demo.world "meta-llama/Llama-3-8b" Demo.bad_data None).1
  = Raised (RuntimeError validation_error).
Proof.
  exact (proj1 (proj2 (invalid_dataset_raises_before_upload Demo.world
                         "meta-llama/Llama-3-8b" Demo.bad_data None
                         (fun s => eq_refl))
                 ltac:(intros d H; discriminate H))).
Defined.

(** C8.  [TRAINING_METHODS_ANYSCALE] holds [SFT] only, and for a training
    method that is not in it the function (called as its asserted
    precondition asks: no key ["model"] in [train_kwargs]) raises
    [NotImplementedError] right after its first log line: the dataset is not
    validated and nothing is uploaded.  The source fixes the method to
    [SFT]; the method is the parameter of [finetune_with]. *)
Theorem unsupported_method_not_implemented (w : world) (method : TrainingMethod)
    (model : string) (train_data : list pyval) (train_kwargs : option dict) :
  method ∉ TRAINING_METHODS_ANYSCALE ->
  (forall d, train_kwargs = Some d -> dict_has d (key "model") = false) ->
  let r := call_finetune_with w method model train_data train_kwargs in
  let msg := "AnyScale can only support "
             ++ methods_repr w TRAINING_METHODS_ANYSCALE
             ++ " for the time being" in
  TRAINING_METHODS_ANYSCALE = [SFT]
  /\ r.1 = Raised (NotImplementedError msg)
  /\ trace r.2 =
     [ Log INFO "[Finetune] Starting training process...";
       Log ERROR ("[Finetune] Error occurred during training: " ++ msg) ].
Proof.
  intros Hmethod Hm r msg. split; [done|].
  apply (bool_decide_eq_false_2 _) in Hmethod.
  unfold r, call_finetune_with, finetune_with, finetune_body.
  destruct train_kwargs as [[|kv d]|]; simpl.
  - repeat exec. rewrite Hmethod. by repeat exec.
  - exec. exec. rewrite (Hm _ eq_refl). simpl. repeat exec.
    rewrite Hmethod. by repeat exec.
  - repeat exec. rewrite Hmethod. by repeat exec.
Qed.

(** C8 (a run).  The method named ["Preference"]. *)
Lemma unsupported_method_not_implemented_witness :
  (call_finetune_with Demo.world (OtherMethod "Preference")
     "meta-llama/Llama-3-8b" Demo.good_data None).1
  = Raised (NotImplementedError "AnyScale can only support [SFT] for the time being").
Proof.
  exact (proj1 (proj2 (unsupported_method_not_implemented Demo.world
                         (OtherMethod "Preference") "meta-llama/Llama-3-8b"
                         Demo.good_data None
                         ltac:(by apply (bool_decide_eq_false_1 _))
                         ltac:(intros d H; discriminate H)))).
Defined.

(** ** The dataset validator *)

Lemma verify_dataset_run (w : world) (ds : list pyval) (s : state) :
  verify_dataset w ds s
  = match openai_data_validation w ds with
    | Raised e => (Raised e, record (Validate ds) s)
    | Returned v =>
        if truthy v then
          (Returned false,
           record (Log ERROR ("Dataset validation failed: " ++ py_str w v))
                  (record (Validate ds) s))
        else
          (match check_message_lengths w ds with
           | Returned _ => Returned true
           | Raised e => Raised e
           end,
           record (MessageLengths ds) (record (Validate ds) s))
    end.
Proof.
  unfold verify_dataset, mbind, M_bind, bind, ask, error, emit, mret, M_ret, ret.
  simpl. destruct (openai_data_validation w ds) as [v|e]; [|done].
  destruct (truthy v); [done|]. simpl.
  by destruct (check_message_lengths w ds).
Qed.

(** C5 (counterexample).  The lengths reported by the message-length
    check never change the verdict. *)
Lemma reported_lengths_do_not_decide : ~ lengths_decide.
Proof.
  intros (w & ds & lens & lens' & s & Hne). apply Hne.
  rewrite !verify_dataset_run. simpl.
  destruct (openai_data_validation w ds) as [v|e]; [|done].
  by destruct (truthy v).
Qed.

(** The role check of the modelled [openai_data_validation] reports a
    problem for a dataset with an unsupported role. *)
Lemma data_validation_rejects_roles (supported : string -> bool) (ds : list pyval) :
  OpenAI.has_unsupported_role supported ds = true ->
  exists v, OpenAI.data_validation supported ds = Returned v /\ truthy v = true.
Proof.
  unfold OpenAI.has_unsupported_role, OpenAI.data_validation. intros H.
  eexists. split; [done|].
  apply existsb_exists in H as (m & Hin & Hm).
  destruct (List.filter _ _) as [|m' bad] eqn:E; [|done].
  assert (In m []) as []. rewrite <- E. apply filter_In. done.
Qed.

(** C5 (amended).  [verify_dataset] returns [False] exactly when the shape
    validation reports a problem, in particular (for a shape validation
    that does what the specification says of it) for a dataset containing
    an unsupported message role.  On a dataset whose shape is fine it runs
    the message-length check and returns [True] whatever lengths are
    reported. *)
Theorem verify_dataset_verdict (w : world) (supported : string -> bool)
    (dataset : list pyval) (s : state) :
  (forall ds, OpenAI.has_unsupported_role supported ds = true ->
     exists v, openai_data_validation w ds = Returned v /\ truthy v = true) ->
  let r := verify_dataset w dataset s in
  (r.1 = Returned false <->
     exists v, openai_data_validation w dataset = Returned v /\ truthy v = true)
  /\ (OpenAI.has_unsupported_role supported dataset = true -> r.1 = Returned false)
  /\ (forall v lens,
        openai_data_validation w dataset = Returned v -> truthy v = false ->
        check_message_lengths w dataset = Returned lens ->
        r.1 = Returned true /\ MessageLengths dataset ∈ trace r.2).
Proof.
  intros Hroles r.
  assert (Hfalse : (exists v, openai_data_validation w dataset = Returned v
                              /\ truthy v = true) -> r.1 = Returned false).
  { intros (v & Hv & Ht). unfold r. by rewrite verify_dataset_run, Hv, Ht. }
  split; [split; [apply verify_dataset_false|exact Hfalse]|].
  split; [intros H; apply Hfalse, Hroles, H|].
  intros v lens Hv Ht Hl. unfold r. rewrite verify_dataset_run, Hv, Ht, Hl.
  split; [done|]. simpl. apply elem_of_app. right. by constructor.
Qed.

(** C5 (a run).  The demo dataset with a message of role ["oracle"] is
    rejected. *)
Lemma verify_dataset_verdict_witness :
  (verify_dataset Demo.world Demo.bad_data (caller_state None)).1 = Returned false.
Proof.
  exact (proj1 (proj2 (verify_dataset_verdict Demo.world OpenAI.chat_roles
                         Demo.bad_data (caller_state None)
                         (data_validation_rejects_roles OpenAI.chat_roles)))
           eq_refl).
Defined.

(** ** The storage uploader *)

Lemma run_bind {A B} (m : M A) (k : A -> M B) (s : state) :
  (m ≫= k) s
  = match m s with
    | (Returned a, s') => k a s'
    | (Raised e, s') => (Raised e, s')
    end.
Proof. reflexivity. Qed.

(** Slicing the first two characters off and comparing is asking for a
    prefix of two characters. *)
Lemma take_2_prefix (c1 c2 : ascii) (s : string) :
  String.eqb (take 2 s) (String c1 (String c2 "")) = String.prefix (String c1 (String c2 "")) s.
Proof.
  destruct s as [|a [|b s]]; simpl; try done.
  - destruct (Ascii.eqb_spec a c1), (ascii_dec c1 a); subst; done.
  - destruct (Ascii.eqb_spec a c1), (ascii_dec c1 a); subst; try done.
    destruct (Ascii.eqb_spec b c2), (ascii_dec c2 b); subst; try done.
    by destruct s.
Qed.

Ltac upload_steps :=
  cbv [mbind M_bind bind mret M_ret ret info emit record heap job_id_attr trace];
  by rewrite <- !app_assoc.

Section Upload.
  Variable w : world.
  Hypothesis files_readable : forall t path, exists items, read_jsonl w t path = Returned items.

Lemma upload_run (name path storage : string) (s : state) :
    exists evs,
      upload w name path storage s
      = (Returned (destination storage path),
         mkState (heap s) (job_id_attr s) (trace s ++ evs))
      /\ shell_commands evs = [copy_command path (destination storage path)].
  Proof.
    destruct (files_readable (trace s) path) as [items Hitems].
    unfold upload. fold (destination storage path).
    rewrite run_bind. unfold ask at 1. rewrite Hitems.
    unfold copy_command. rewrite <- !take_2_prefix.
    destruct (String.eqb (take 2 (destination storage path)) "s3");
      [|destruct (String.eqb (take 2 (destination storage path)) "gs")].
    - eexists [_; _; _; _]. split; [upload_steps|reflexivity].
    - eexists [_; _; _; _]. split; [upload_steps|reflexivity].
    - eexists [_; _; _; _; _]. split; [upload_steps|reflexivity].
  Qed.
End Upload.

Lemma shell_commands_app (t1 t2 : list event) :
  shell_commands (t1 ++ t2) = (shell_commands t1 ++ shell_commands t2)%list.
Proof. apply omap_app. Qed.

Lemma upload_all_run (w : world) (datasets : list (string * string))
    (storage : string) (s : state) :
  (forall t path, exists items, read_jsonl w t path = Returned items) ->
  exists evs,
    upload_all w datasets storage s
    = (Returned ((fun e => (e.1, destination storage e.2)) <$> datasets),
       mkState (heap s) (job_id_attr s) (trace s ++ evs))
    /\ shell_commands evs
       = (fun e => copy_command e.2 (destination storage e.2)) <$> datasets.
Proof.
  intros Hread. revert s.
  induction datasets as [|[name path] rest IH]; intros s; simpl.
  - exists []. by rewrite app_nil_r; destruct s.
  - destruct (upload_run w Hread name path storage s) as (e1 & H1 & Hc1).
    destruct (IH (mkState (heap s) (job_id_attr s) (trace s ++ e1))) as (e2 & H2 & Hc2).
    exists (e1 ++ e2)%list. split.
    + rewrite run_bind, H1, run_bind, H2. simpl. by rewrite app_assoc.
    + by rewrite shell_commands_app, Hc1, Hc2.
Qed.

(** C9.  With the storage root in the environment and readable files,
    [submit_data] returns the storage root joined with the last component
    of the local train path (and likewise for the eval path, when one is
    given), and the commands it hands to the shell are one copy per file,
    chosen by the first two characters of the destination: the AWS CLI for
    ["s3"], the gcloud CLI for ["gs"], a plain [cp] for anything else. *)
Theorem submit_data_copies_by_prefix (w : world) (train_path : string)
    (eval_path : option string) (storage : string) (s : state) :
  environ w "ANYSCALE_ARTIFACT_STORAGE" = Some storage ->
  (forall t path, exists items, read_jsonl w t path = Returned items) ->
  let r := submit_data w train_path eval_path s in
  let val := p ← eval_path; if truthy (VStr p) then Some p else None in
  r.1 = Returned (destination storage train_path, destination storage <$> val)
  /\ (exists evs,
        trace r.2 = (trace s ++ evs)%list
        /\ shell_commands evs
           = copy_command train_path (destination storage train_path)
             :: option_list ((fun p => copy_command p (destination storage p)) <$> val))
  /\ (forall path remote,
        copy_command path remote
        = if String.eqb (take 2 remote) "s3" then "aws s3 cp " ++ path ++ " " ++ remote
          else if String.eqb (take 2 remote) "gs" then
            "gcloud storage cp " ++ path ++ " " ++ remote
          else "cp " ++ path ++ " " ++ remote).
Proof.
  intros Henv Hread r val.
  assert (Hrun : exists evs,
    r = (Returned (destination storage train_path, destination storage <$> val),
         mkState (heap s) (job_id_attr s) (trace s ++ evs))
    /\ shell_commands evs
       = copy_command train_path (destination storage train_path)
         :: option_list ((fun p => copy_command p (destination storage p)) <$> val)).
  { unfold r, submit_data.
    set (datasets := ("train", train_path) :: _).
    destruct (upload_all_run w datasets storage
                (record (EnvRead "ANYSCALE_ARTIFACT_STORAGE") s) Hread)
      as (evs & Hup & Hc).
    exists (EnvRead "ANYSCALE_ARTIFACT_STORAGE" :: evs). split.
    - rewrite run_bind. unfold emit at 1. rewrite Henv, run_bind.
      unfold ret at 1. rewrite run_bind, Hup.
      unfold datasets, val, record. simpl.
      rewrite <- app_assoc. simpl.
      destruct eval_path as [p|]; simpl; [|done].
      by destruct (negb (String.eqb p "")).
    - transitivity (shell_commands evs); [reflexivity|].
      rewrite Hc. unfold datasets, val. simpl.
      destruct eval_path as [p|]; simpl; [|done].
      by destruct (negb (String.eqb p "")). }
  destruct Hrun as (evs & Hr & Hc). rewrite Hr.
  split; [done|]. split; [by exists evs|].
  intros path remote. unfold copy_command. by rewrite !take_2_prefix.
Qed.

(** C9 (a run).  The demo world stores under ["s3://bucket/artifacts"]. *)
Lemma submit_data_copies_by_prefix_witness :
  (submit_data Demo.world "/tmp/dspy/data.jsonl" None (caller_state None)).1
  = Returned ("s3://bucket/artifacts/data.jsonl", None).
Proof.
  exact (proj1 (submit_data_copies_by_prefix Demo.world "/tmp/dspy/data.jsonl" None
                  "s3://bucket/artifacts" (caller_state None) eq_refl
                  (fun _ _ => ex_intro _ [VNone] eq_refl))).
Defined.

(** ** The model config on disk *)

Lemma dict_get_set_ne (d : dict) (k k' : atom) (v : pyval) :
  atom_eq k k' = false -> dict_get (dict_set d k v) k' = dict_get d k'.
Proof.
  intros Hne. induction d as [|[k0 v0] d IH]; simpl.
  - by rewrite Hne.
  - destruct (atom_eq k0 k) eqn:E; simpl; [|by rewrite IH].
    destruct (atom_eq k0 k') eqn:E'; [|done].
    rewrite atom_eq_sym in E. by rewrite (atom_eq_trans _ _ _ E E') in Hne.
Qed.

Lemma dict_get_drop_none (d : dict) (k : atom) (v : pyval) :
  dict_get d k = Some v -> is_none v = false -> dict_get (drop_none d) k = Some v.
Proof.
  intros Hget Hv. induction d as [|[k0 v0] d IH]; simpl in *; [done|].
  destruct (atom_eq k0 k) eqn:E.
  - injection Hget as ->. rewrite Hv. simpl. by rewrite E.
  - destruct (negb (is_none v0)); simpl; [rewrite E|]; by apply IH.
Qed.

Lemma fixed_fields_survive (d : dict) (model : pyval) (train_path : string)
    (eval_path : option string) (kwargs : dict) :
  has_fixed_fields
    (VDict (drop_none
      (dict_update (dict_set d (key "model_id") model)
         (if truthy (get_or kwargs "output_dir" VNone)
          then dict_set (fixed_fields model train_path eval_path) (key "output_dir")
                 (get_or kwargs "output_dir" VNone)
          else fixed_fields model train_path eval_path)))).
Proof.
  eexists. split; [done|].
  destruct (truthy _); unfold fixed_fields, dict_update; simpl;
    split; apply dict_get_drop_none; try done;
    repeat first [ by apply dict_get_set | rewrite dict_get_set_ne by done ].
Qed.

Section Written.
  Variable w : world.
Let Qd : event -> Prop := fun ev => no_dump ev = true.

Lemma dumped_app (t1 t2 : list event) :
    dumped (t1 ++ t2) = (dumped t1 ++ dumped t2)%list.
  Proof. apply omap_app. Qed.

Lemma dumped_no_dump (evs : list event) : Forall Qd evs -> dumped evs = [].
  Proof.
    induction 1 as [|ev evs Hev _ IH]; [done|].
    destruct ev; try done; exact IH.
  Qed.

Lemma writes_before {A B} (m : M A) (k : A -> M B) :
    steps (emits Qd) m -> (forall a, writes_fixed_fields (k a)) ->
    writes_fixed_fields (m ≫= k).
  Proof.
    intros Hm Hk s. rewrite run_bind.
    destruct (Hm s) as (e1 & Ht1 & Hq1). destruct (m s) as [[a|e] s']; simpl in *.
    - destruct (Hk a s') as (e2 & Ht2 & Hg & Hr).
      exists (e1 ++ e2)%list. rewrite dumped_app, (dumped_no_dump e1 Hq1). simpl.
      split; [by rewrite Ht2, Ht1, app_assoc|done].
    - exists e1. rewrite (dumped_no_dump e1 Hq1). by repeat split.
  Qed.

Lemma writes_at_dump {B} (path : string) (data : pyval)
      (answer : list event -> outcome unit) (k : unit -> M B) :
    has_fixed_fields data -> (forall a, steps (emits Qd) (k a)) ->
    writes_fixed_fields (ask (YamlDump path data) answer ≫= k).
  Proof.
    intros Hdata Hk s. rewrite run_bind. unfold ask at 1.
    destruct (answer (trace s)) as [a|e]; simpl.
    - destruct (Hk a (record (YamlDump path data) s)) as (e2 & Ht2 & Hq2).
      exists (YamlDump path data :: e2). simpl in *.
      rewrite Ht2, <- app_assoc. split; [done|].
      change (dumped (YamlDump path data :: e2)) with ((path, data) :: dumped e2).
      rewrite (dumped_no_dump e2 Hq2). split; [by repeat constructor|by eauto].
    - exists [YamlDump path data]. split; [done|]. split; [by repeat constructor|done].
  Qed.

Lemma generate_config_files_writes train_path eval_path kwargs :
    writes_fixed_fields (generate_config_files w train_path eval_path kwargs).
  Proof.
    unfold generate_config_files, name_config, hash_dict, update_with, getitem, info.
    cbv zeta.
    repeat
      (apply writes_before;
       [ solve [ walk (emits_record Qd) ltac:(reflexivity) fail ]
       | intros ?; cbv zeta ]).
    apply writes_at_dump.
    - apply fixed_fields_survive.
    - intros _. walk (emits_record Qd) ltac:(reflexivity) fail.
  Qed.
End Written.

(** Hyperparameters that try to set both fields, over a template that sets
    them too: the written config has the fixed values, at the positions the
    template gave the keys. *)
Example fixed_fields_override_hyperparameters :
  (dumped (trace (generate_config_files Demo.world "s3://bucket/artifacts/data.jsonl" None
    [ (key "model", VStr "meta-llama/Llama-3-8b");
      (key "hyperparameters",
       VDict [ (key "num_checkpoints_to_keep", VInt 3);
               (key "logger", VDict [(key "provider", VStr "tensorboard")]) ]) ]
    (caller_state None)).2)).*2
  = [ VDict [ (key "learning_rate", VInt 3);
              (key "num_checkpoints_to_keep", VInt 10);
              (key "logger", VDict [(key "provider", VStr "wandb")]);
              (key "model_id", VStr "meta-llama/Llama-3-8b");
              (key "train_path", VStr "s3://bucket/artifacts/data.jsonl") ] ].
Proof. vm_compute. reflexivity. Qed.

(** ** [sorted]: what the insertion sort guarantees *)

Section SortLaws.
  Context {A : Type} (lt : A -> A -> option bool).

Lemma sorted_from_None (l : list A) : sorted_from lt None l = None.
  Proof. by induction l. Qed.

Lemma sorted_from_cons (acc : option (list A)) (x : A) (l : list A) :
    sorted_from lt acc (x :: l) = sorted_from lt (acc ≫= insert_sorted lt x) l.
  Proof. done. Qed.

Lemma sorted_from_snoc (acc : option (list A)) (l : list A) (x : A) :
    sorted_from lt acc (l ++ [x]) = sorted_from lt acc l ≫= insert_sorted lt x.
  Proof. unfold sorted_from. by rewrite foldl_app. Qed.

Lemma insert_sorted_perm (x : A) (acc acc' : list A) :
    insert_sorted lt x acc = Some acc' -> acc' ≡ₚ x :: acc.
  Proof.
    revert acc'. induction acc as [|y acc IH]; intros acc' H; simpl in H.
    - by injection H as <-.
    - destruct (lt x y) as [[]|]; simpl in H; [by injection H as <-| |done].
      destruct (insert_sorted lt x acc) as [a|]; [|done]. injection H as <-.
      rewrite (IH a eq_refl). apply Permutation_swap.
  Qed.

Lemma sorted_from_perm (l acc s : list A) :
    sorted_from lt (Some acc) l = Some s -> s ≡ₚ acc ++ l.
  Proof.
    revert acc. induction l as [|x l IH]; intros acc H.
    - injection H as <-. by rewrite app_nil_r.
    - rewrite sorted_from_cons in H. simpl in H.
      destruct (insert_sorted lt x acc) as [a|] eqn:E;
        [|by rewrite sorted_from_None in H].
      rewrite (IH a H), (insert_sorted_perm _ _ _ E). simpl. apply Permutation_middle.
  Qed.

Lemma sorted_by_perm (l s : list A) : sorted_by lt l = Some s -> s ≡ₚ l.
  Proof. apply sorted_from_perm. Qed.

  (** Two lists that [<] cannot tell apart are sorted alike. *)
  Section Alike.
    Context {B : Type} (lt' : B -> B -> option bool) (R : A -> B -> Prop).
    Hypothesis lt_alike :
      forall x x' y y', R x x' -> R y y' -> lt x y = lt' x' y'.

Lemma insert_sorted_alike (x : A) (x' : B) (acc : list A) (acc' : list B) :
      R x x' -> Forall2 R acc acc' ->
      option_Forall2 (Forall2 R) (insert_sorted lt x acc) (insert_sorted lt' x' acc').
    Proof.
      intros Hx Hacc. induction Hacc as [|y y' acc acc' Hy Hacc IH]; simpl.
      - by repeat constructor.
      - rewrite <- (lt_alike _ _ _ _ Hx Hy).
        destruct (lt x y) as [[]|]; simpl; [by repeat constructor| |constructor].
        destruct IH; simpl; by repeat constructor.
    Qed.

Lemma sorted_from_alike (l : list A) (l' : list B) (acc : option (list A))
        (acc' : option (list B)) :
      Forall2 R l l' -> option_Forall2 (Forall2 R) acc acc' ->
      option_Forall2 (Forall2 R) (sorted_from lt acc l) (sorted_from lt' acc' l').
    Proof.
      intros Hl. revert acc acc'.
      induction Hl as [|x x' l l' Hx Hl IH]; intros acc acc' Hacc; [done|].
      rewrite !sorted_from_cons. apply IH.
      destruct Hacc; simpl; [by apply insert_sorted_alike|constructor].
    Qed.

Lemma sorted_by_alike (l : list A) (l' : list B) :
      Forall2 R l l' ->
      option_Forall2 (Forall2 R) (sorted_by lt l) (sorted_by lt' l').
    Proof. intros Hl. apply sorted_from_alike; [done|by repeat constructor]. Qed.
  End Alike.

  (** On items that [<] orders totally, [sorted] succeeds, and what it
      returns does not depend on the order they came in. *)
  Section Total.
    Variable P : A -> Prop.
    Hypothesis trichotomy : forall x y, P x -> P y ->
      (x = y /\ lt x y = Some false)
      \/ (lt x y = Some true /\ lt y x = Some false)
      \/ (lt y x = Some true /\ lt x y = Some false).
    Hypothesis transitive : forall x y z, P x -> P y -> P z ->
      lt x y = Some true -> lt y z = Some true -> lt x z = Some true.

    Local Abbreviation le := (sort_le lt).

Lemma le_trans (x y z : A) : P x -> P y -> P z -> le x y -> le y z -> le x z.
    Proof.
      intros Hx Hy Hz [Hxy|Hxy] [Hyz|Hyz]; subst; unfold sort_le; eauto.
    Qed.

Lemma le_antisym (x y : A) : P x -> P y -> le x y -> le y x -> x = y.
    Proof.
      intros Hx Hy [Hxy|Hxy] [Hyx|Hyx]; subst; try done.
      destruct (trichotomy x y Hx Hy) as [[? ?]|[[? ?]|[? ?]]]; congruence.
    Qed.

Lemma insert_sorted_total (x : A) (acc : list A) :
      P x -> Forall P acc -> StronglySorted le acc ->
      exists acc', insert_sorted lt x acc = Some acc' /\ StronglySorted le acc'.
    Proof.
      intros Hx. induction acc as [|y acc IH]; intros HP Hs; simpl.
      - eexists. split; [reflexivity|]. by repeat constructor.
      - apply Forall_cons in HP as [Hy HP].
        apply StronglySorted_inv in Hs as [Hs Hle].
        destruct (IH HP Hs) as (a & Ha & Hsa).
        assert (Hyx : le y x -> exists acc', cons y <$> insert_sorted lt x acc = Some acc'
                                      /\ StronglySorted le acc').
        { intros Hyx. rewrite Ha. eexists. split; [reflexivity|]. constructor; [done|].
          rewrite (insert_sorted_perm _ _ _ Ha). by constructor. }
        destruct (trichotomy x y Hx Hy) as [[-> ->]|[[Hlt _]|[Hlt ->]]]; simpl.
        + apply Hyx. by left.
        + rewrite Hlt. simpl. eexists. split; [reflexivity|]. constructor; [by constructor|].
          constructor; [by right|].
          rewrite Forall_forall in Hle, HP. apply Forall_forall. intros z Hz.
          apply (le_trans x y z); auto. by right.
        + apply Hyx. by right.
    Qed.

Lemma sorted_from_total (l acc : list A) :
      Forall P l -> Forall P acc -> StronglySorted le acc ->
      exists s, sorted_from lt (Some acc) l = Some s /\ StronglySorted le s.
    Proof.
      revert acc. induction l as [|x l IH]; intros acc Hl Hacc Hs.
      - by exists acc.
      - apply Forall_cons in Hl as [Hx Hl]. rewrite sorted_from_cons. simpl.
        destruct (insert_sorted_total x acc Hx Hacc Hs) as (a & Ha & Hsa).
        rewrite Ha. apply IH; [done| |done].
        rewrite (insert_sorted_perm _ _ _ Ha). by constructor.
    Qed.

Lemma sorted_by_total (l : list A) :
      Forall P l ->
      exists s, sorted_by lt l = Some s /\ StronglySorted le s /\ s ≡ₚ l.
    Proof.
      intros Hl.
      destruct (sorted_from_total l [] Hl ltac:(constructor) ltac:(constructor))
        as (s & Hs & Hss).
      exists s. split; [done|]. split; [done|]. by apply sorted_by_perm.
    Qed.

Lemma strongly_sorted_unique (s s' : list A) :
      Forall P s -> StronglySorted le s -> StronglySorted le s' -> s ≡ₚ s' -> s = s'.
    Proof.
      revert s'. induction s as [|x s IH]; intros s' HP Hs Hs' Hperm.
      - by apply Permutation_nil_l in Hperm.
      - destruct s' as [|y s']; [by apply Permutation_nil_r in Hperm|].
        apply Forall_cons in HP as [Hx HP].
        apply StronglySorted_inv in Hs as [Hs Hle].
        apply StronglySorted_inv in Hs' as [Hs' Hle'].
        assert (HPy : P y).
        { assert (y ∈ x :: s) as Hin by (rewrite Hperm; left).
          apply elem_of_cons in Hin as [->|Hin]; [done|].
          by apply (proj1 (Forall_forall _ _) HP). }
        assert (x = y) as <-.
        { apply le_antisym; [done..| |].
          - assert (y ∈ x :: s) as Hin by (rewrite Hperm; left).
            apply elem_of_cons in Hin as [->|Hin]; [by left|].
            by apply (proj1 (Forall_forall _ _) Hle).
          - assert (x ∈ y :: s') as Hin by (rewrite <- Hperm; left).
            apply elem_of_cons in Hin as [->|Hin]; [by left|].
            by apply (proj1 (Forall_forall _ _) Hle'). }
        f_equal. apply IH; [done..|]. by apply Permutation_cons_inv in Hperm.
    Qed.

Lemma sorted_by_permutation (l l' : list A) :
      Forall P l -> l ≡ₚ l' -> sorted_by lt l = sorted_by lt l'.
    Proof.
      intros Hl Hperm.
      assert (Hl' : Forall P l') by by rewrite <- Hperm.
      destruct (sorted_by_total l Hl) as (s & -> & Hs & Hp).
      destruct (sorted_by_total l' Hl') as (s' & -> & Hs' & Hp').
      f_equal. apply strongly_sorted_unique; [by rewrite Hp|done..|].
      by rewrite Hp, Hp'.
    Qed.
  End Total.
End SortLaws.

(** ** [==] and [<]: the order theory of values *)

Lemma str_ltb_lt (s t : string) : String.ltb s t = true <-> String_as_OT.lt s t.
Proof.
  unfold String.ltb. rewrite <- String_as_OT.cmp_lt. unfold String_as_OT.cmp.
  by destruct (String.compare s t).
Qed.

Lemma str_ltb_trans (s t u : string) :
  String.ltb s t = true -> String.ltb t u = true -> String.ltb s u = true.
Proof. rewrite !str_ltb_lt. apply String_as_OT.lt_trans. Qed.

Lemma str_ltb_asym (s t : string) : String.ltb s t = true -> String.ltb t s = false.
Proof.
  unfold String.ltb. rewrite (String.compare_antisym t s).
  by destruct (String.compare s t).
Qed.

Lemma str_ltb_total (s t : string) :
  String.ltb s t = false -> String.ltb t s = false -> s = t.
Proof.
  unfold String.ltb. rewrite (String.compare_antisym t s).
  destruct (String.compare s t) eqn:E; try done.
  intros _ _. by apply String.compare_eq_iff.
Qed.

Lemma atom_lt_eq_l (a a' b : atom) : atom_eq a a' = true -> atom_lt a b = atom_lt a' b.
Proof.
  destruct a as [|x|m|s], a' as [|x'|m'|s'], b as [|y|n|t]; simpl; try done;
    rewrite ?Z.eqb_eq, ?String.eqb_eq; by intros ->.
Qed.

Lemma atom_lt_eq_r (a b b' : atom) : atom_eq b b' = true -> atom_lt a b = atom_lt a b'.
Proof.
  destruct a as [|x|m|s], b as [|y|n|t], b' as [|y'|n'|t']; simpl; try done;
    rewrite ?Z.eqb_eq, ?String.eqb_eq; by intros ->.
Qed.

Lemma atom_lt_asym (a b : atom) : atom_lt a b = Some true -> atom_lt b a = Some false.
Proof.
  destruct a as [|x|m|s], b as [|y|n|t]; simpl; try done;
    intros [= H]; f_equal; try (by apply str_ltb_asym); lia.
Qed.

Lemma atom_lt_trans (a b c : atom) :
  atom_lt a b = Some true -> atom_lt b c = Some true -> atom_lt a c = Some true.
Proof.
  destruct a as [|x|m|s], b as [|y|n|t], c as [|z|p|u]; simpl; try done;
    intros [= H1] [= H2]; f_equal; try (by eapply str_ltb_trans); lia.
Qed.

(** The equations of [==] and [<] on sequences. *)
Lemma existsb_ext_in {A} (f g : A -> bool) (l : list A) :
  (forall x, In x l -> f x = g x) -> existsb f l = existsb g l.
Proof.
  induction l as [|x l IH]; intros H; simpl; [done|].
  rewrite (H x), IH; [done| |by left]. intros y Hy. apply H. by right.
Qed.

Lemma forallb_ext_in {A} (f g : A -> bool) (l : list A) :
  (forall x, In x l -> f x = g x) -> forallb f l = forallb g l.
Proof.
  induction l as [|x l IH]; intros H; simpl; [done|].
  rewrite (H x), IH; [done| |by left]. intros y Hy. apply H. by right.
Qed.

Lemma Forall_In {A} (P : A -> Prop) (l : list A) (x : A) :
  Forall P l -> In x l -> P x.
Proof. intros H Hx. by apply (proj1 (List.Forall_forall _ _) H). Qed.

Lemma py_eq_sym (x y : pyval) : py_eq x y = py_eq y x.
Proof.
  revert y. induction x as [a|xs IH|xs IH|xs IH|kvs IH] using pyval_nested_ind;
    intros [b|ys|ys|ys|kvs']; try done.
  - apply atom_eq_sym.
  - revert ys. induction IH as [|x xs Hx _ IHl]; intros [|y ys]; try done.
    change (py_eq x y && py_eq (VList xs) (VList ys)
            = py_eq y x && py_eq (VList ys) (VList xs)).
    by rewrite Hx, IHl.
  - revert ys. induction IH as [|x xs Hx _ IHl]; intros [|y ys]; try done.
    change (py_eq x y && py_eq (VTuple xs) (VTuple ys)
            = py_eq y x && py_eq (VTuple ys) (VTuple xs)).
    by rewrite Hx, IHl.
  - simpl. rewrite andb_comm. f_equal.
    + apply forallb_ext_in. intros y _. apply existsb_ext_in. intros x Hx.
      first [apply (Forall_In _ _ _ IH Hx)|symmetry; apply (Forall_In _ _ _ IH Hx)].
    + apply forallb_ext_in. intros x Hx. apply existsb_ext_in. intros y _.
      first [apply (Forall_In _ _ _ IH Hx)|symmetry; apply (Forall_In _ _ _ IH Hx)].
  - simpl. rewrite andb_comm. f_equal.
    + apply forallb_ext_in. intros [k' v'] _. apply existsb_ext_in. intros [k v] Hx.
      rewrite (atom_eq_sym k' k). f_equal.
      first [apply (Forall_In _ _ _ IH Hx)|symmetry; apply (Forall_In _ _ _ IH Hx)].
    + apply forallb_ext_in. intros [k v] Hx. apply existsb_ext_in. intros [k' v'] _.
      rewrite (atom_eq_sym k' k). f_equal.
      first [apply (Forall_In _ _ _ IH Hx)|symmetry; apply (Forall_In _ _ _ IH Hx)].
Qed.

Lemma py_eq_list (xs ys : list pyval) : py_eq (VList xs) (VList ys) = seq_eq xs ys.
Proof. revert ys. induction xs as [|x xs IH]; intros [|y ys]; simpl; by rewrite <- ?IH. Qed.

Lemma py_eq_tuple (xs ys : list pyval) : py_eq (VTuple xs) (VTuple ys) = seq_eq xs ys.
Proof. revert ys. induction xs as [|x xs IH]; intros [|y ys]; simpl; by rewrite <- ?IH. Qed.

Lemma py_lt_list (xs ys : list pyval) : py_lt (VList xs) (VList ys) = seq_lt xs ys.
Proof. revert ys. induction xs as [|x xs IH]; intros [|y ys]; simpl; by rewrite <- ?IH. Qed.

Lemma py_lt_tuple (xs ys : list pyval) : py_lt (VTuple xs) (VTuple ys) = seq_lt xs ys.
Proof. revert ys. induction xs as [|x xs IH]; intros [|y ys]; simpl; by rewrite <- ?IH. Qed.

Lemma py_eq_set (xs ys : list pyval) :
  py_eq (VSet xs) (VSet ys) = py_subset xs ys && py_subset ys xs.
Proof.
  simpl. unfold py_subset. f_equal.
  apply forallb_ext_in. intros y _. apply existsb_ext_in. intros x _. apply py_eq_sym.
Qed.

Lemma py_eq_dict (xs ys : dict) :
  py_eq (VDict xs) (VDict ys) = dict_sub xs ys && dict_sub ys xs.
Proof.
  simpl. unfold dict_sub. f_equal.
  - apply forallb_ext_in. intros [k v] _. apply existsb_ext_in. by intros [k' v'] _.
  - apply forallb_ext_in. intros [k' v'] _. apply existsb_ext_in. intros [k v] _.
    simpl. by rewrite atom_eq_sym, py_eq_sym.
Qed.

Lemma py_subset_spec (xs ys : list pyval) :
  py_subset xs ys = true <->
  forall x, In x xs -> exists y, In y ys /\ py_eq x y = true.
Proof.
  unfold py_subset. rewrite forallb_forall.
  split; intros H x Hx; specialize (H x Hx).
  - by apply existsb_exists in H.
  - by apply existsb_exists.
Qed.

Lemma dict_sub_spec (xs ys : dict) :
  dict_sub xs ys = true <->
  forall e, In e xs ->
    exists e', In e' ys /\ atom_eq e.1 e'.1 = true /\ py_eq e.2 e'.2 = true.
Proof.
  unfold dict_sub. rewrite forallb_forall.
  split; intros H x Hx; specialize (H x Hx).
  - apply existsb_exists in H as (e' & Hin & He). apply andb_true_iff in He. eauto.
  - apply existsb_exists. destruct H as (e' & Hin & H1 & H2).
    exists e'. by rewrite H1, H2.
Qed.

Lemma py_eq_refl (x : pyval) : py_eq x x = true.
Proof.
  induction x as [a|xs IH|xs IH|xs IH|kvs IH] using pyval_nested_ind.
  - apply atom_eq_refl.
  - rewrite py_eq_list. induction IH as [|x xs Hx _ IHl]; simpl; [done|].
    by rewrite Hx, IHl.
  - rewrite py_eq_tuple. induction IH as [|x xs Hx _ IHl]; simpl; [done|].
    by rewrite Hx, IHl.
  - rewrite py_eq_set, andb_diag. apply py_subset_spec. intros x Hx.
    exists x. split; [done|]. apply (Forall_In _ _ _ IH Hx).
  - rewrite py_eq_dict, andb_diag. apply dict_sub_spec. intros e He.
    exists e. split; [done|]. split; [apply atom_eq_refl|].
    apply (Forall_In _ _ _ IH He).
Qed.

Lemma py_eq_trans (x y z : pyval) :
  py_eq x y = true -> py_eq y z = true -> py_eq x z = true.
Proof.
  revert y z. induction x as [a|xs IH|xs IH|xs IH|kvs IH] using pyval_nested_ind;
    intros [b|ys|ys|ys|kvs'] [c|zs|zs|zs|kvs'']; try done.
  - apply atom_eq_trans.
  - rewrite !py_eq_list. revert ys zs.
    induction IH as [|x xs Hx _ IHl]; intros [|y ys] [|z zs]; simpl; try done.
    rewrite !andb_true_iff. intros [H1 H2] [H3 H4]. eauto.
  - rewrite !py_eq_tuple. revert ys zs.
    induction IH as [|x xs Hx _ IHl]; intros [|y ys] [|z zs]; simpl; try done.
    rewrite !andb_true_iff. intros [H1 H2] [H3 H4]. eauto.
  - rewrite !py_eq_set, !andb_true_iff, !py_subset_spec.
    intros [H1 H2] [H3 H4]. split.
    + intros a Ha. destruct (H1 a Ha) as (b & Hb & Hab).
      destruct (H3 b Hb) as (c & Hc & Hbc). exists c. split; [done|].
      by apply (Forall_In _ _ _ IH Ha b c).
    + intros c Hc. destruct (H4 c Hc) as (b & Hb & Hcb).
      destruct (H2 b Hb) as (a & Ha & Hba). exists a. split; [done|].
      rewrite py_eq_sym. apply (Forall_In _ _ _ IH Ha b c); by rewrite py_eq_sym.
  - rewrite !py_eq_dict, !andb_true_iff, !dict_sub_spec.
    intros [H1 H2] [H3 H4]. split.
    + intros a Ha. destruct (H1 a Ha) as (b & Hb & Hk & Hab).
      destruct (H3 b Hb) as (c & Hc & Hk' & Hbc). exists c. split; [done|].
      split; [by eapply atom_eq_trans|].
      by apply (Forall_In _ _ _ IH Ha b.2 c.2).
    + intros c Hc. destruct (H4 c Hc) as (b & Hb & Hk & Hcb).
      destruct (H2 b Hb) as (a & Ha & Hk' & Hba). exists a. split; [done|].
      split; [by eapply atom_eq_trans|].
      rewrite py_eq_sym. apply (Forall_In _ _ _ IH Ha b.2 c.2); by rewrite py_eq_sym.
Qed.

Lemma py_eq_congr_l (x x' y : pyval) : py_eq x x' = true -> py_eq x y = py_eq x' y.
Proof.
  intros H. destruct (py_eq x y) eqn:E1, (py_eq x' y) eqn:E2; try done.
  - rewrite py_eq_sym in H. by rewrite (py_eq_trans _ _ _ H E1) in E2.
  - by rewrite (py_eq_trans _ _ _ H E2) in E1.
Qed.

Lemma py_eq_congr_r (x y y' : pyval) : py_eq y y' = true -> py_eq x y = py_eq x y'.
Proof. intros H. rewrite !(py_eq_sym x). by apply py_eq_congr_l. Qed.

Lemma seq_eq_length (xs ys : list pyval) : seq_eq xs ys = true -> length xs = length ys.
Proof.
  revert ys. induction xs as [|x xs IH]; intros [|y ys]; simpl; try done.
  rewrite andb_true_iff. intros [_ H]. f_equal. by apply IH.
Qed.

Lemma py_subset_trans (xs ys zs : list pyval) :
  py_subset xs ys = true -> py_subset ys zs = true -> py_subset xs zs = true.
Proof.
  rewrite !py_subset_spec. intros H1 H2 a Ha.
  destruct (H1 a Ha) as (b & Hb & Hab). destruct (H2 b Hb) as (c & Hc & Hbc).
  exists c. split; [done|]. by eapply py_eq_trans.
Qed.

Lemma py_subset_congr_l (xs xs' ys : list pyval) :
  py_subset xs xs' = true -> py_subset xs' xs = true ->
  py_subset xs ys = py_subset xs' ys.
Proof.
  intros H1 H2. destruct (py_subset xs ys) eqn:E1, (py_subset xs' ys) eqn:E2; try done.
  - by rewrite (py_subset_trans _ _ _ H2 E1) in E2.
  - by rewrite (py_subset_trans _ _ _ H1 E2) in E1.
Qed.

Lemma py_subset_congr_r (xs ys ys' : list pyval) :
  py_subset ys ys' = true -> py_subset ys' ys = true ->
  py_subset xs ys = py_subset xs ys'.
Proof.
  intros H1 H2. destruct (py_subset xs ys) eqn:E1, (py_subset xs ys') eqn:E2; try done.
  - by rewrite (py_subset_trans _ _ _ E1 H1) in E2.
  - by rewrite (py_subset_trans _ _ _ E2 H2) in E1.
Qed.

(** Operands that are [==] behave alike under [<]. *)
Lemma py_lt_eq_l (x x' y : pyval) : py_eq x x' = true -> py_lt x y = py_lt x' y.
Proof.
  revert x' y. induction x as [a|xs IH|xs IH|xs IH|kvs IH] using pyval_nested_ind;
    intros [a'|xs'|xs'|xs'|kvs'] [b|ys|ys|ys|kvs'']; try done.
  - apply atom_lt_eq_l.
  - rewrite py_eq_list, !py_lt_list. revert xs' ys.
    induction IH as [|x xs Hx _ IHl]; intros [|x' xs'] [|y ys]; simpl; try done.
    rewrite andb_true_iff. intros [H1 H2].
    rewrite (py_eq_congr_l _ _ _ H1), (Hx _ y H1). destruct (py_eq x' y); [|done].
    by apply IHl.
  - rewrite py_eq_tuple, !py_lt_tuple. revert xs' ys.
    induction IH as [|x xs Hx _ IHl]; intros [|x' xs'] [|y ys]; simpl; try done.
    rewrite andb_true_iff. intros [H1 H2].
    rewrite (py_eq_congr_l _ _ _ H1), (Hx _ y H1). destruct (py_eq x' y); [|done].
    by apply IHl.
  - rewrite py_eq_set, andb_true_iff. intros [H1 H2]. simpl.
    by rewrite (py_subset_congr_l _ _ _ H1 H2), (py_subset_congr_r _ _ _ H1 H2).
Qed.

Lemma py_lt_eq_r (x y y' : pyval) : py_eq y y' = true -> py_lt x y = py_lt x y'.
Proof.
  revert y y'. induction x as [a|xs IH|xs IH|xs IH|kvs IH] using pyval_nested_ind;
    intros [b|ys|ys|ys|kvs'] [b'|ys'|ys'|ys'|kvs'']; try done.
  - apply atom_lt_eq_r.
  - rewrite py_eq_list, !py_lt_list. revert ys ys'.
    induction IH as [|x xs Hx _ IHl]; intros [|y ys] [|y' ys']; simpl; try done.
    rewrite andb_true_iff. intros [H1 H2].
    rewrite (py_eq_congr_r _ _ _ H1), (Hx y _ H1). destruct (py_eq x y'); [|done].
    by apply IHl.
  - rewrite py_eq_tuple, !py_lt_tuple. revert ys ys'.
    induction IH as [|x xs Hx _ IHl]; intros [|y ys] [|y' ys']; simpl; try done.
    rewrite andb_true_iff. intros [H1 H2].
    rewrite (py_eq_congr_r _ _ _ H1), (Hx y _ H1). destruct (py_eq x y'); [|done].
    by apply IHl.
  - rewrite py_eq_set, andb_true_iff. intros [H1 H2]. simpl.
    by rewrite (py_subset_congr_l _ _ _ H1 H2), (py_subset_congr_r _ _ _ H1 H2).
Qed.

Lemma py_lt_asym (x y : pyval) : py_lt x y = Some true -> py_lt y x = Some false.
Proof.
  revert y. induction x as [a|xs IH|xs IH|xs IH|kvs IH] using pyval_nested_ind;
    intros [b|ys|ys|ys|kvs']; try done.
  - apply atom_lt_asym.
  - rewrite !py_lt_list. revert ys.
    induction IH as [|x xs Hx _ IHl]; intros [|y ys]; simpl; try done.
    rewrite (py_eq_sym y x). destruct (py_eq x y); [apply IHl|apply Hx].
  - rewrite !py_lt_tuple. revert ys.
    induction IH as [|x xs Hx _ IHl]; intros [|y ys]; simpl; try done.
    rewrite (py_eq_sym y x). destruct (py_eq x y); [apply IHl|apply Hx].
  - simpl. intros [= H]. f_equal.
    by destruct (py_subset xs ys), (py_subset ys xs).
Qed.

Lemma py_lt_irrefl (x : pyval) : py_lt x x <> Some true.
Proof. intros H. pose proof (py_lt_asym _ _ H). congruence. Qed.

Lemma py_lt_trans (x y z : pyval) :
  py_lt x y = Some true -> py_lt y z = Some true -> py_lt x z = Some true.
Proof.
  revert y z. induction x as [a|xs IH|xs IH|xs IH|kvs IH] using pyval_nested_ind;
    intros [b|ys|ys|ys|kvs'] [c|zs|zs|zs|kvs'']; try done.
  - apply atom_lt_trans.
  - rewrite !py_lt_list. revert ys zs.
    induction IH as [|x xs Hx _ IHl]; intros [|y ys] [|z zs]; simpl; try done.
    destruct (py_eq x y) eqn:Exy, (py_eq y z) eqn:Eyz.
    + rewrite (py_eq_trans _ _ _ Exy Eyz). apply IHl.
    + rewrite (py_eq_congr_l _ _ _ Exy), Eyz, (py_lt_eq_l _ _ _ Exy). by intros _.
    + rewrite <- (py_eq_congr_r _ _ _ Eyz), Exy, <- (py_lt_eq_r _ _ _ Eyz). by intros ? _.
    + intros H1 H2. destruct (py_eq x z) eqn:Exz; [|by eapply Hx].
      rewrite (py_lt_eq_l _ _ _ Exz) in H1. apply py_lt_asym in H2. congruence.
  - rewrite !py_lt_tuple. revert ys zs.
    induction IH as [|x xs Hx _ IHl]; intros [|y ys] [|z zs]; simpl; try done.
    destruct (py_eq x y) eqn:Exy, (py_eq y z) eqn:Eyz.
    + rewrite (py_eq_trans _ _ _ Exy Eyz). apply IHl.
    + rewrite (py_eq_congr_l _ _ _ Exy), Eyz, (py_lt_eq_l _ _ _ Exy). by intros _.
    + rewrite <- (py_eq_congr_r _ _ _ Eyz), Exy, <- (py_lt_eq_r _ _ _ Eyz). by intros ? _.
    + intros H1 H2. destruct (py_eq x z) eqn:Exz; [|by eapply Hx].
      rewrite (py_lt_eq_l _ _ _ Exz) in H1. apply py_lt_asym in H2. congruence.
  - simpl. intros [= H1] [= H2]. f_equal.
    apply andb_true_iff in H1 as [H1 H1'], H2 as [H2 H2'].
    rewrite (py_subset_trans _ _ _ H1 H2). simpl.
    destruct (py_subset zs xs) eqn:E; [|done].
    by rewrite (py_subset_trans _ _ _ E H1) in H2'.
Qed.

(** ** [freeze]: the equations of the source *)

Lemma mapM_snd_paired {A B} (f : A -> option B) (s : list A) :
  mapM snd ((fun x => (x, f x)) <$> s) = mapM f s.
Proof.
  induction s as [|x s IH]; csimpl; [done|].
  destruct (f x); [|done]. unfold mbind in *. by rewrite IH.
Qed.

Lemma sorted_paired {B} (f : pyval -> B) (xs : list pyval) :
  sorted_by (fun p q : pyval * B => py_lt p.1 q.1) ((fun x => (x, f x)) <$> xs)
  = fmap (M := list) (fun x => (x, f x)) <$> py_sorted xs.
Proof.
  pose proof (sorted_by_alike py_lt (fun p q : pyval * B => py_lt p.1 q.1)
                (fun x p => p = (x, f x))
                ltac:(by intros x ? y ? -> ->) xs ((fun x => (x, f x)) <$> xs)) as H.
  unfold py_sorted. destruct H as [s s' H|].
  - apply Forall2_fmap_r, Forall_Forall2_diag. by apply Forall_forall.
  - simpl. f_equal. clear -H. induction H as [|x p s s' -> _ IH]; csimpl; by rewrite ?IH.
  - done.
Qed.

(** [freeze] on a list, as the source has it: sort the elements, then
    freeze them in sorted order. *)
Lemma freeze_list (xs : list pyval) :
  freeze (VList xs) = s ← py_sorted xs; VTuple <$> mapM freeze s.
Proof.
  simpl. change (map ?f xs) with (f <$> xs). rewrite sorted_paired.
  destruct (py_sorted xs) as [s|]; simpl; [|done]. by rewrite mapM_snd_paired.
Qed.

Lemma freeze_set (xs : list pyval) :
  freeze (VSet xs) = s ← py_sorted xs; VTuple <$> mapM freeze s.
Proof.
  simpl. change (map ?f xs) with (f <$> xs). rewrite sorted_paired.
  destruct (py_sorted xs) as [s|]; simpl; [|done]. by rewrite mapM_snd_paired.
Qed.

Lemma freeze_dict (kvs : dict) :
  freeze (VDict kvs)
  = items ← mapM (fun kv : atom * pyval => fv ← freeze kv.2; Some (item (kv.1, fv))) kvs;
    VTuple <$> py_sorted items.
Proof. reflexivity. Qed.

(** ** Reordered keys *)

Lemma Forall2_In_l {A B} (R : A -> B -> Prop) (l : list A) (k : list B) (x : A) :
  Forall2 R l k -> In x l -> exists y, In y k /\ R x y.
Proof.
  induction 1 as [|a b l k Hab _ IH]; intros Hx; [done|].
  destruct Hx as [->|Hx]; [exists b; split; [by left|done]|].
  destruct (IH Hx) as (y & Hy & Hxy). exists y. split; [by right|done].
Qed.

Lemma Forall2_In_r {A B} (R : A -> B -> Prop) (l : list A) (k : list B) (y : B) :
  Forall2 R l k -> In y k -> exists x, In x l /\ R x y.
Proof.
  induction 1 as [|a b l k Hab _ IH]; intros Hy; [done|].
  destruct Hy as [->|Hy]; [exists a; split; [by left|done]|].
  destruct (IH Hy) as (x & Hx & Hxy). exists x. split; [by right|done].
Qed.

Lemma reorder_refl (x : pyval) : reorder x x.
Proof.
  induction x as [a|xs IH|xs IH|xs IH|kvs IH] using pyval_nested_ind.
  - constructor.
  - constructor. by apply Forall_Forall2_diag.
  - constructor. by apply Forall_Forall2_diag.
  - constructor. by apply Forall_Forall2_diag.
  - apply (reorder_dict kvs kvs kvs); [|done].
    apply Forall_Forall2_diag. eapply Forall_impl; [exact IH|]. by intros e He.
Qed.

(** Values that differ in the order of keys only are [==]. *)
Lemma reorder_py_eq (x y : pyval) : reorder x y -> py_eq x y = true.
Proof.
  revert y. induction x as [a|xs IH|xs IH|xs IH|kvs IH] using pyval_nested_ind;
    intros y Hr; inversion Hr as [|? ys H|? ys H|? ys H|? kvs' kvs'' H Hp]; subst.
  - apply atom_eq_refl.
  - rewrite py_eq_list. clear Hr. induction H as [|x y xs ys Hxy H IHl]; [done|].
    apply Forall_cons in IH as [Hx IH]. simpl. by rewrite (Hx y Hxy), IHl.
  - rewrite py_eq_tuple. clear Hr. induction H as [|x y xs ys Hxy H IHl]; [done|].
    apply Forall_cons in IH as [Hx IH]. simpl. by rewrite (Hx y Hxy), IHl.
  - rewrite py_eq_set, andb_true_iff, !py_subset_spec. split.
    + intros x Hx. destruct (Forall2_In_l _ _ _ _ H Hx) as (y & Hy & Hxy).
      exists y. split; [done|]. by apply (Forall_In _ _ _ IH Hx).
    + intros y Hy. destruct (Forall2_In_r _ _ _ _ H Hy) as (x & Hx & Hxy).
      exists x. split; [done|]. rewrite py_eq_sym. by apply (Forall_In _ _ _ IH Hx).
  - rewrite py_eq_dict, andb_true_iff, !dict_sub_spec. split.
    + intros e He. destruct (Forall2_In_l _ _ _ _ H He) as (e' & He' & Hk & Hv).
      exists e'. split; [|split].
      * apply list_elem_of_In. rewrite <- Hp. by apply list_elem_of_In.
      * rewrite Hk. apply atom_eq_refl.
      * by apply (Forall_In _ _ _ IH He).
    + intros e' He'.
      assert (In e' kvs') as He2.
      { apply list_elem_of_In. rewrite Hp. by apply list_elem_of_In. }
      destruct (Forall2_In_r _ _ _ _ H He2) as (e & He & Hk & Hv).
      exists e. split; [done|]. split.
      * rewrite Hk. apply atom_eq_refl.
      * rewrite py_eq_sym. by apply (Forall_In _ _ _ IH He).
Qed.

(** So [<] cannot tell them apart. *)
Lemma reorder_py_lt (x x' y y' : pyval) :
  reorder x x' -> reorder y y' -> py_lt x y = py_lt x' y'.
Proof.
  intros Hx Hy.
  rewrite (py_lt_eq_l x x' y (reorder_py_eq _ _ Hx)).
  apply py_lt_eq_r, reorder_py_eq, Hy.
Qed.

(** A hashable value holds no dict, so it has no keys to reorder. *)
Lemma reorder_hashable (x y : pyval) :
  reorder x y -> hashable x = hashable y /\ (hashable x = true -> x = y).
Proof.
  revert y. induction x as [a|xs IH|xs IH|xs IH|kvs IH] using pyval_nested_ind;
    intros y Hr; inversion Hr as [|? ys H|? ys H|? ys H|? kvs' kvs'' H Hp]; subst;
    try done.
  simpl. clear Hr. induction H as [|x y xs ys Hxy H IHl]; [done|].
  apply Forall_cons in IH as [Hx IH]. destruct (Hx y Hxy) as [He Hh].
  destruct (IHl IH) as [He' Hh']. simpl. rewrite He, He'. split; [done|].
  rewrite andb_true_iff. intros [H1 H2]. rewrite <- He in H1. rewrite <- He' in H2.
  f_equal. f_equal; [by apply Hh|]. specialize (Hh' H2). by injection Hh'.
Qed.

(** ** Sorting the entries of a dict *)

Lemma atom_lt_kind (a b : atom) :
  is_Some (atom_lt a b) <-> exists c, kind a = Some c /\ kind b = Some c.
Proof.
  destruct a as [|x|m|s], b as [|y|n|t]; simpl; split; intros H;
    first [ by destruct H as [? ?]
          | by destruct H as (c & ? & ?); simplify_eq
          | by eauto ].
Qed.

Lemma atom_lt_total (a b : atom) (c : bool) :
  kind a = Some c -> kind b = Some c -> atom_eq a b = false ->
  (atom_lt a b = Some true /\ atom_lt b a = Some false)
  \/ (atom_lt b a = Some true /\ atom_lt a b = Some false).
Proof.
  assert (Hz : forall m n : Z, (m =? n) = false ->
            (Some (m <? n) = Some true /\ Some (n <? m) = Some false)
            \/ (Some (n <? m) = Some true /\ Some (m <? n) = Some false)).
  { intros m n Hne. apply Z.eqb_neq in Hne.
    destruct (Z.ltb_spec m n), (Z.ltb_spec n m); try lia; auto. }
  destruct a as [|x|m|s], b as [|y|n|t]; simpl; intros Ha Hb Hne; simplify_eq;
    try by apply Hz.
  destruct (String.ltb s t) eqn:E1.
  - left. by rewrite (str_ltb_asym _ _ E1).
  - destruct (String.ltb t s) eqn:E2; [by right|].
    rewrite (str_ltb_total _ _ E1 E2), String.eqb_refl in Hne. done.
Qed.

Lemma item_lt (e e' : atom * pyval) :
  atom_eq e.1 e'.1 = false -> py_lt (item e) (item e') = atom_lt e.1 e'.1.
Proof. intros H. simpl. by rewrite H. Qed.

Lemma item_lt_same (e : atom * pyval) : py_lt (item e) (item e) = Some false.
Proof. simpl. by rewrite atom_eq_refl, py_eq_refl. Qed.

Lemma distinct_keys_spec (ks : list atom) :
  distinct_keys ks = true <->
  forall i j a b, i <> j -> ks !! i = Some a -> ks !! j = Some b -> atom_eq a b = false.
Proof.
  induction ks as [|k ks IH]; simpl.
  - split; [|done]. intros _ i j a b _ Hi. by rewrite lookup_nil in Hi.
  - rewrite andb_true_iff, negb_true_iff, IH. split.
    + intros [Hk Hks] [|i] [|j] a b Hij Hi Hj; simpl in *; try done.
      * injection Hi as <-. destruct (atom_eq k b) eqn:E; [|done].
        rewrite <- Hk. symmetry. apply existsb_exists. exists b. split; [|done].
        apply list_elem_of_In. by eapply list_elem_of_lookup_2.
      * injection Hj as <-. destruct (atom_eq a k) eqn:E; [|done].
        rewrite <- Hk. symmetry. apply existsb_exists. exists a.
        split; [|by rewrite atom_eq_sym].
        apply list_elem_of_In. by eapply list_elem_of_lookup_2.
      * apply (Hks i j); auto.
    + intros H. split.
      * destruct (existsb (atom_eq k) ks) eqn:E; [|done].
        apply existsb_exists in E as (b & Hb & Hkb).
        apply list_elem_of_In, list_elem_of_lookup in Hb as [j Hj].
        by rewrite (H 0%nat (S j) k b) in Hkb.
      * intros i j a b Hij Hi Hj. apply (H (S i) (S j)); auto.
Qed.

Lemma existsb_perm {A} (f : A -> bool) (l l' : list A) :
  l ≡ₚ l' -> existsb f l = existsb f l'.
Proof.
  induction 1 as [|x l l' _ IH|x y l|l1 l2 l3 _ IH1 _ IH2]; simpl.
  - done.
  - by rewrite IH.
  - by rewrite !orb_assoc, (orb_comm (f x)).
  - congruence.
Qed.

Lemma distinct_keys_perm (ks ks' : list atom) :
  ks ≡ₚ ks' -> distinct_keys ks = true -> distinct_keys ks' = true.
Proof.
  induction 1 as [|k ks ks' Hp IH|k1 k2 ks|ks1 ks2 ks3 _ IH1 _ IH2]; simpl; auto.
  - rewrite (existsb_perm _ _ _ Hp), !andb_true_iff. intros [H1 H2]. auto.
  - rewrite !andb_true_iff, !negb_true_iff, !orb_false_iff.
    intros [[H1 H2] [H3 H4]]. rewrite atom_eq_sym. done.
Qed.

Lemma distinct_keys_snoc (ks : list atom) (k : atom) :
  distinct_keys (ks ++ [k]) = true ->
  distinct_keys ks = true /\ forall k', In k' ks -> atom_eq k' k = false.
Proof.
  intros H. apply (distinct_keys_perm _ (k :: ks)) in H;
    [|by rewrite Permutation_app_comm].
  simpl in H. apply andb_true_iff in H as [H1 H2]. split; [done|].
  intros k' Hk'. apply negb_true_iff in H1.
  destruct (atom_eq k' k) eqn:E; [|done]. rewrite <- H1. symmetry.
  apply existsb_exists. exists k'. by rewrite atom_eq_sym.
Qed.

(** Entries with distinct keys that are [==] on their keys are the same
    entry. *)
Lemma distinct_keys_same (es : dict) (e e' : atom * pyval) :
  distinct_keys (dict_keys es) = true -> In e es -> In e' es ->
  atom_eq e.1 e'.1 = true -> e = e'.
Proof.
  rewrite distinct_keys_spec. intros Hd He He' Hk.
  apply list_elem_of_In, list_elem_of_lookup in He as [i Hi].
  apply list_elem_of_In, list_elem_of_lookup in He' as [j Hj].
  destruct (decide (i = j)) as [->|Hij]; [congruence|].
  unfold dict_keys in Hd.
  rewrite (Hd i j e.1 e'.1 Hij) in Hk; [done| |]; by rewrite list_lookup_fmap, ?Hi, ?Hj.
Qed.

Lemma item_inj (e e' : atom * pyval) : item e = item e' -> e = e'.
Proof. destruct e, e'. unfold item. simpl. congruence. Qed.

Lemma In_items (es : dict) (x : pyval) :
  In x (item <$> es) <-> exists e, In e es /\ x = item e.
Proof.
  rewrite <- list_elem_of_In, list_elem_of_fmap.
  split; intros (e & H1 & H2); exists e; by rewrite ?list_elem_of_In in *.
Qed.

(** Keys of one kind: the entries sort, and the order they came in does
    not matter. *)
Lemma py_sorted_items_uniform (es es' : dict) (c : bool) :
  distinct_keys (dict_keys es) = true ->
  Forall (fun e => kind e.1 = Some c) es ->
  es ≡ₚ es' ->
  py_sorted (item <$> es) = py_sorted (item <$> es').
Proof.
  intros Hd Hc Hp.
  apply (sorted_by_permutation py_lt (fun x => exists e, In e es /\ x = item e)).
  - intros x y (e & He & ->) (e' & He' & ->).
    destruct (atom_eq e.1 e'.1) eqn:E.
    + left. rewrite (distinct_keys_same es e e' Hd He He' E).
      split; [done|apply item_lt_same].
    + right. rewrite (item_lt e e' E), (item_lt e' e) by by rewrite atom_eq_sym.
      apply (atom_lt_total _ _ c); [by apply (Forall_In _ _ _ Hc He)
                                   |by apply (Forall_In _ _ _ Hc He')|done].
  - intros x y z _ _ _. apply py_lt_trans.
  - apply Forall_forall. intros x Hx. by apply In_items, list_elem_of_In.
  - by apply fmap_Permutation.
Qed.

(** When the entries of a dict sort, there is at most one of them or
    their keys are of one kind. *)
Lemma py_sorted_items_some (es : dict) (s : list pyval) :
  distinct_keys (dict_keys es) = true ->
  py_sorted (item <$> es) = Some s ->
  (length es <= 1)%nat \/ exists c, Forall (fun e => kind e.1 = Some c) es.
Proof.
  revert s. induction es as [|e es IH] using rev_ind; intros s Hd Hs.
  - left. simpl. lia.
  - unfold dict_keys in Hd. rewrite fmap_app in Hd.
    apply distinct_keys_snoc in Hd as [Hd Hne].
    unfold py_sorted, sorted_by in Hs. rewrite fmap_app in Hs.
    change (item <$> [e]) with [item e] in Hs. rewrite sorted_from_snoc in Hs.
    destruct (sorted_from py_lt (Some []) (item <$> es)) as [acc|] eqn:Hacc; [|done].
    simpl in Hs. specialize (IH acc Hd Hacc).
    pose proof (sorted_by_perm _ _ _ Hacc) as Hperm.
    destruct es as [|e1 es1] using rev_ind; [left; simpl; lia|]. clear IHes1.
    right. destruct acc as [|y acc].
    { apply Permutation_nil_l in Hperm. rewrite fmap_app in Hperm.
      by destruct (item <$> es1). }
    assert (In y (item <$> (es1 ++ [e1])%list)) as Hy.
    { apply list_elem_of_In. rewrite <- Hperm. left. }
    apply In_items in Hy as (e0 & He0 & ->).
    assert (Hk : atom_eq e.1 e0.1 = false).
    { rewrite atom_eq_sym. apply Hne, in_map, He0. }
    simpl in Hs. rewrite Hk in Hs.
    destruct (atom_lt e.1 e0.1) as [b|] eqn:Hlt; [|done].
    destruct (proj1 (atom_lt_kind e.1 e0.1)) as (c & Hc & Hc0); [by eexists|].
    exists c. apply Forall_app. split; [|by repeat constructor].
    destruct IH as [Hlen|(c' & Hall)].
    + rewrite length_app in Hlen. simpl in Hlen.
      destruct es1; [|simpl in Hlen; lia]. simpl in *.
      destruct He0 as [<-|[]]. by repeat constructor.
    + assert (c' = c) as ->; [|done].
      pose proof (Forall_In _ _ _ Hall He0) as H. simpl in H. congruence.
Qed.

(** The entries of a dict sort the same way whatever order they come in. *)
Lemma py_sorted_items_perm (es es' : dict) :
  distinct_keys (dict_keys es) = true ->
  es ≡ₚ es' ->
  py_sorted (item <$> es) = py_sorted (item <$> es').
Proof.
  assert (Hone : forall es es' s, distinct_keys (dict_keys es) = true -> es ≡ₚ es' ->
            py_sorted (item <$> es) = Some s ->
            py_sorted (item <$> es) = py_sorted (item <$> es')).
  { clear. intros es es' s Hd Hp Hs.
    destruct (py_sorted_items_some es s Hd Hs) as [Hlen|[c Hc]].
    - destruct es as [|e [|e2 es]]; simpl in Hlen; try lia.
      + by apply Permutation_nil_l in Hp as ->.
      + by apply Permutation_singleton_l in Hp as ->.
    - by apply (py_sorted_items_uniform es es' c). }
  intros Hd Hp.
  destruct (py_sorted (item <$> es)) as [s|] eqn:E1.
  - rewrite <- E1. by eapply Hone.
  - destruct (py_sorted (item <$> es')) as [s'|] eqn:E2; [|done].
    rewrite <- E1, <- E2. symmetry. eapply (Hone es' es s'); [|done|done].
    eapply distinct_keys_perm; [|exact Hd]. unfold dict_keys. by apply fmap_Permutation.
Qed.


(** ** The canonical form does not see the order of keys *)

Lemma mapM_alike {A A' B B'} (f : A -> option B) (g : A' -> option B')
    (R : B -> B' -> Prop) (l : list A) (k : list A') :
  Forall2 (fun x y => option_Forall2 R (f x) (g y)) l k ->
  option_Forall2 (Forall2 R) (mapM f l) (mapM g k).
Proof.
  induction 1 as [|x y l k Hxy _ IH]; csimpl; [by repeat constructor|].
  destruct Hxy as [b b' Hb|]; [|constructor]. csimpl.
  unfold mbind in *. destruct IH as [bs bs' Hbs|]; csimpl; by repeat constructor.
Qed.

Lemma mapM_perm {A B} (f : A -> option B) (l l' : list A) :
  l ≡ₚ l' -> option_Forall2 (≡ₚ) (mapM f l) (mapM f l').
Proof.
  induction 1 as [|x l l' _ IH|x y l|l1 l2 l3 _ IH1 _ IH2]; csimpl.
  - by repeat constructor.
  - destruct (f x); [|constructor]. csimpl. unfold mbind in *.
    destruct IH; csimpl; constructor. by constructor.
  - destruct (f x), (f y); csimpl; try constructor; unfold mbind;
      destruct (mapM f l); csimpl; constructor. apply Permutation_swap.
  - destruct IH1 as [a b Hab|]; inversion IH2; subst; constructor. by etrans.
Qed.

Lemma Forall2_impl_In {A B} (R Q : A -> B -> Prop) (l : list A) (k : list B) :
  Forall2 R l k -> (forall x y, In x l -> R x y -> Q x y) -> Forall2 Q l k.
Proof.
  induction 1 as [|x y l k Hxy _ IH]; intros H; constructor.
  - apply H; [by left|done].
  - apply IH. intros a b Ha. apply H. by right.
Qed.

Lemma freeze_dict_entries (kvs : dict) :
  freeze (VDict kvs) = es ← mapM frozen_entry kvs; VTuple <$> py_sorted (item <$> es).
Proof.
  rewrite freeze_dict.
  assert (mapM (fun kv : atom * pyval => fv ← freeze kv.2; Some (item (kv.1, fv))) kvs
          = fmap (M := list) item <$> mapM frozen_entry kvs) as ->.
  { unfold frozen_entry. induction kvs as [|kv kvs IH]; csimpl; [done|].
    destruct (freeze kv.2); csimpl; [|done]. unfold mbind in *. rewrite IH.
    match goal with |- context [mapM ?f kvs] => by destruct (mapM f kvs) end. }
  by destruct (mapM frozen_entry kvs).
Qed.

Lemma frozen_entries_keys (kvs es : dict) :
  mapM frozen_entry kvs = Some es -> dict_keys es = dict_keys kvs.
Proof.
  intros H. apply mapM_Some_1 in H. unfold dict_keys.
  induction H as [|kv e kvs es He _ IH]; [done|]. csimpl. rewrite IH. f_equal.
  unfold frozen_entry in He. destruct (freeze kv.2); [|done]. by injection He as <-.
Qed.

Lemma well_formed_dict (kvs : dict) :
  well_formed (VDict kvs) = true ->
  distinct_keys (dict_keys kvs) = true
  /\ forall e, In e kvs -> well_formed e.2 = true.
Proof.
  simpl. rewrite andb_true_iff, forallb_forall. done.
Qed.

Lemma well_formed_seq (xs : list pyval) (x : pyval) :
  forallb well_formed xs = true -> In x xs -> well_formed x = true.
Proof. rewrite forallb_forall. auto. Qed.

Lemma sorted_elements_reorder (xs ys : list pyval) :
  Forall (fun x => forall y, well_formed x = true -> reorder x y ->
                             option_Forall2 reorder (freeze x) (freeze y)) xs ->
  forallb well_formed xs = true ->
  Forall2 reorder xs ys ->
  option_Forall2 reorder (s ← py_sorted xs; VTuple <$> mapM freeze s)
                         (s ← py_sorted ys; VTuple <$> mapM freeze s).
Proof.
  intros IH Hwf H. unfold py_sorted.
  pose proof (sorted_by_perm py_lt xs) as Hperm.
  destruct (sorted_by_alike py_lt py_lt reorder reorder_py_lt xs ys H)
    as [s s' Hs|]; [|constructor]. cbn [mbind option_bind].
  specialize (Hperm s eq_refl).
  assert (Hm : option_Forall2 (Forall2 reorder) (mapM freeze s) (mapM freeze s')).
  { apply mapM_alike. apply (Forall2_impl_In _ _ _ _ Hs). intros a b Ha Hab.
    assert (In a xs) as Ha'.
    { apply list_elem_of_In. rewrite <- Hperm. by apply list_elem_of_In. }
    apply (Forall_In _ _ _ IH Ha'); [|done]. by apply (well_formed_seq xs). }
  destruct Hm; simpl; by repeat constructor.
Qed.

Lemma freeze_reorder (x y : pyval) :
  well_formed x = true -> reorder x y ->
  option_Forall2 reorder (freeze x) (freeze y).
Proof.
  revert y. induction x as [a|xs IH|xs IH|xs IH|kvs IH] using pyval_nested_ind;
    intros y Hwf Hr; inversion Hr as [|? ys H|? ys H|? ys H|? kvs' kvs'' H Hp]; subst.
  - by repeat constructor.
  - rewrite !freeze_list. by apply sorted_elements_reorder.
  - by repeat constructor.
  - rewrite !freeze_set. by apply sorted_elements_reorder.
  - apply well_formed_dict in Hwf as [Hd Hwf].
    rewrite !freeze_dict_entries.
    assert (H1 : option_Forall2 (Forall2 reorder_entry)
                   (mapM frozen_entry kvs) (mapM frozen_entry kvs')).
    { apply mapM_alike. apply (Forall2_impl_In _ _ _ _ H).
      intros e e' He [Hk Hv]. unfold frozen_entry. rewrite <- Hk.
      destruct (Forall_In _ _ _ IH He e'.2 (Hwf e He) Hv); csimpl;
        by repeat constructor. }
    pose proof (mapM_perm frozen_entry _ _ Hp) as H2.
    destruct (mapM frozen_entry kvs) as [es|] eqn:E1,
             (mapM frozen_entry kvs') as [es'|] eqn:E2,
             (mapM frozen_entry kvs'') as [es''|] eqn:E3;
      inversion H1 as [? ? Hes|]; inversion H2 as [? ? Hperm|]; subst;
      cbn [mbind option_bind]; [|constructor].
    assert (Hkeys : dict_keys es' = dict_keys kvs).
    { rewrite (frozen_entries_keys kvs' es') by done. unfold dict_keys.
      clear -H. induction H as [|e e' l k [Hk _] _ IHl]; csimpl; [done|].
      by rewrite IHl, Hk. }
    rewrite <- (py_sorted_items_perm es' es'') by (by rewrite ?Hkeys).
    unfold py_sorted.
    destruct (sorted_by_alike py_lt py_lt reorder reorder_py_lt
                (item <$> es) (item <$> es')) as [s s' Hs|]; csimpl;
      try by repeat constructor.
    apply Forall2_fmap. eapply Forall2_impl; [exact Hes|].
    intros e e' [Hk Hv]. unfold item. rewrite Hk. by repeat constructor.
Qed.

(** The naming step has one and the same outcome for a config and for
    each of its key-reorderings.  (Of a failed comparison this embedding
    keeps the class of the exception, [TypeError], with one text; the
    interpreter's text names the types of the two operands.) *)
Lemma name_config_reorder (w : world) (d d' : dict) (s : state) :
  well_formed (VDict d) = true ->
  reorder (VDict d) (VDict d') ->
  name_config w d s = name_config w d' s.
Proof.
  intros Hwf Hr. unfold name_config, hash_dict.
  destruct (freeze_reorder _ _ Hwf Hr) as [f f' Hf|]; [|done].
  destruct (reorder_hashable _ _ Hf) as [Hh Heq]. rewrite <- Hh.
  destruct (hashable f); [|done]. by rewrite (Heq eq_refl).
Qed.

(** ** The canonical form of the specification *)

Lemma canonical_list (xs : list pyval) :
  canonical (VList xs) = s ← py_sorted xs; VTuple <$> mapM canonical s.
Proof.
  simpl. change (map ?f xs) with (f <$> xs). rewrite sorted_paired.
  destruct (py_sorted xs) as [s|]; simpl; [|done]. by rewrite mapM_snd_paired.
Qed.

Lemma canonical_set (xs : list pyval) :
  canonical (VSet xs) = s ← py_sorted xs; VTuple <$> mapM canonical s.
Proof.
  simpl. change (map ?f xs) with (f <$> xs). rewrite sorted_paired.
  destruct (py_sorted xs) as [s|]; simpl; [|done]. by rewrite mapM_snd_paired.
Qed.

(** Sorting the pairs [(key, frozen value)] of entries with distinct keys
    is sorting the entries by key. *)
Lemma insert_item (e : atom * pyval) (acc : dict) :
  (forall y, In y acc -> atom_eq e.1 y.1 = false) ->
  insert_sorted py_lt (item e) (item <$> acc)
  = fmap (M := list) item <$> insert_sorted key_lt e acc.
Proof.
  unfold key_lt. induction acc as [|y acc IH]; intros Hne; [done|].
  csimpl. rewrite (Hne y) by by left.
  destruct (atom_lt e.1 y.1) as [[]|]; csimpl; [done| |done].
  rewrite IH by (intros z Hz; apply Hne; by right).
  by destruct (insert_sorted _ e acc).
Qed.

Lemma sorted_entries_items (es : dict) :
  distinct_keys (dict_keys es) = true ->
  py_sorted (item <$> es) = fmap (M := list) item <$> sorted_by key_lt es.
Proof.
  induction es as [|e es IH] using rev_ind; intros Hd; [done|].
  unfold dict_keys in Hd. rewrite fmap_app in Hd.
  apply distinct_keys_snoc in Hd as [Hd Hne].
  unfold py_sorted, sorted_by in *. rewrite fmap_app.
  change (item <$> [e]) with [item e]. rewrite !sorted_from_snoc, (IH Hd).
  destruct (sorted_from key_lt (Some []) es) as [acc|] eqn:E; [|done]. simpl.
  apply insert_item. intros y Hy. rewrite atom_eq_sym. apply Hne, in_map.
  apply list_elem_of_In. rewrite <- (sorted_by_perm _ _ _ E). by apply list_elem_of_In.
Qed.

Lemma mapM_ext_in {A B} (f g : A -> option B) (l : list A) :
  (forall x, In x l -> f x = g x) -> mapM f l = mapM g l.
Proof.
  induction l as [|x l IH]; intros H; csimpl; [done|].
  rewrite (H x) by by left. destruct (g x); [|done]. csimpl. unfold mbind in *.
  rewrite IH; [done|]. intros y Hy. apply H. by right.
Qed.

(** [freeze] computes the canonical form of the specification. *)
Lemma freeze_canonical (x : pyval) : well_formed x = true -> freeze x = canonical x.
Proof.
  induction x as [a|xs IH|xs IH|xs IH|kvs IH] using pyval_nested_ind; intros Hwf.
  - done.
  - rewrite freeze_list, canonical_list.
    destruct (py_sorted xs) as [s|] eqn:E; [|done]. cbn [mbind option_bind].
    f_equal. apply mapM_ext_in. intros x Hx.
    assert (In x xs) as Hx'.
    { apply list_elem_of_In. rewrite <- (sorted_by_perm _ _ _ E). by apply list_elem_of_In. }
    apply (Forall_In _ _ _ IH Hx'), (well_formed_seq xs); done.
  - done.
  - rewrite freeze_set, canonical_set.
    destruct (py_sorted xs) as [s|] eqn:E; [|done]. cbn [mbind option_bind].
    f_equal. apply mapM_ext_in. intros x Hx.
    assert (In x xs) as Hx'.
    { apply list_elem_of_In. rewrite <- (sorted_by_perm _ _ _ E). by apply list_elem_of_In. }
    apply (Forall_In _ _ _ IH Hx'), (well_formed_seq xs); done.
  - apply well_formed_dict in Hwf as [Hd Hwf].
    rewrite freeze_dict_entries.
    change (canonical (VDict kvs))
      with (entries ← mapM (fun kv : atom * pyval => c ← canonical kv.2; Some (kv.1, c)) kvs;
            sorted ← sorted_by key_lt entries;
            Some (VTuple (item <$> sorted))).
    rewrite <- (mapM_ext_in frozen_entry
                  (fun kv : atom * pyval => c ← canonical kv.2; Some (kv.1, c)) kvs).
    + destruct (mapM frozen_entry kvs) as [es|] eqn:E; [|done]. cbn [mbind option_bind].
      rewrite sorted_entries_items by by rewrite (frozen_entries_keys kvs es).
      by destruct (sorted_by key_lt es).
    + intros e He. unfold frozen_entry.
      by rewrite (Forall_In _ _ _ IH He (Hwf e He)).
Qed.

Lemma pretty_nonnegative (h : Z) : 0 <= h -> pretty h = pretty (Z.to_N h).
Proof. by destruct h. Qed.

Lemma config_filename_abs (h : Z) :
  config_filename (if h <? 0 then - h else h) = filename_of_hash h.
Proof.
  unfold config_filename, filename_of_hash. f_equal. f_equal.
  destruct (Z.ltb_spec h 0).
  - rewrite Z.abs_neq by lia. apply pretty_nonnegative. lia.
  - rewrite Z.abs_eq by lia. by apply pretty_nonnegative.
Qed.


(** ** What makes the sort of a list fail, and what makes it succeed *)

Import Shape.

Lemma py_lt_class (x y : pyval) (b : bool) :
  py_lt x y = Some b -> exists c, class_of x = Some c /\ class_of y = Some c.
Proof.
  destruct x as [[|?|?|?]|?|?|?|?], y as [[|?|?|?]|?|?|?|?]; simpl; intros H;
    try done; eauto.
Qed.

Section Uniform.
  Context {A K : Type} (lt : A -> A -> option bool) (cl : A -> option K).
  Hypothesis lt_class :
    forall x y b, lt x y = Some b -> exists c, cl x = Some c /\ cl y = Some c.

(** Items that sort are at most one, or all of one class. *)
Lemma sorted_by_uniform (l s : list A) :
  sorted_by lt l = Some s ->
  (length l <= 1)%nat \/ exists c, Forall (fun x => cl x = Some c) l.
Proof.
  revert s. induction l as [|x l IH] using rev_ind; intros s Hs.
  - left. simpl. lia.
  - unfold sorted_by in Hs. rewrite sorted_from_snoc in Hs.
    destruct (sorted_from lt (Some []) l) as [acc|] eqn:Hacc; [|done].
    simpl in Hs. specialize (IH acc Hacc).
    pose proof (sorted_by_perm _ _ _ Hacc) as Hperm.
    destruct acc as [|y acc].
    { apply Permutation_nil_l in Hperm. subst l. left. simpl. lia. }
    right. simpl in Hs. destruct (lt x y) as [b|] eqn:Hlt; [|done].
    destruct (lt_class _ _ _ Hlt) as (c & Hx & Hy).
    exists c. apply Forall_app. split; [|by repeat constructor].
    assert (Hin : y ∈ l) by (rewrite <- Hperm; left).
    destruct IH as [Hlen|(c' & Hall)].
    + destruct l as [|z [|z' l]]; simpl in Hlen; try lia.
      * by apply elem_of_nil in Hin.
      * apply list_elem_of_singleton in Hin as ->. by repeat constructor.
    + assert (c' = c) as ->; [|done].
      rewrite Forall_forall in Hall. specialize (Hall y Hin). congruence.
Qed.

(** Items any two of which [<] can compare do sort. *)
Lemma sorted_from_defined (l acc : list A) :
  (forall x y, x ∈ (acc ++ l)%list -> y ∈ (acc ++ l)%list -> is_Some (lt x y)) ->
  is_Some (sorted_from lt (Some acc) l).
Proof.
  revert acc. induction l as [|x l IH]; intros acc H; [by eexists|].
  rewrite sorted_from_cons. simpl.
  assert (Hins : exists acc', insert_sorted lt x acc = Some acc').
  { assert (Hacc : forall y, y ∈ acc -> is_Some (lt x y)).
    { intros y Hy. apply H; rewrite elem_of_app; [right; left|by left]. }
    clear -Hacc. induction acc as [|y acc IHa]; simpl; [by eexists|].
    destruct (Hacc y) as [b ->]; [left|]. simpl. destruct b; [by eexists|].
    destruct IHa as [a ->]; [|by eexists]. intros z Hz. apply Hacc. by right. }
  destruct Hins as [acc' Hacc']. rewrite Hacc'. apply IH.
  intros a b Ha Hb. apply H.
  - rewrite elem_of_app in Ha. rewrite (insert_sorted_perm _ _ _ _ Hacc') in Ha.
    rewrite elem_of_app. destruct Ha as [Ha|Ha]; [|right; by right].
    apply elem_of_cons in Ha as [->|Ha]; [right; left|by left].
  - rewrite elem_of_app in Hb. rewrite (insert_sorted_perm _ _ _ _ Hacc') in Hb.
    rewrite elem_of_app. destruct Hb as [Hb|Hb]; [|right; by right].
    apply elem_of_cons in Hb as [->|Hb]; [right; left|by left].
Qed.

Lemma sorted_by_defined (l : list A) :
  (forall x y, x ∈ l -> y ∈ l -> is_Some (lt x y)) -> is_Some (sorted_by lt l).
Proof. intros H. by apply sorted_from_defined. Qed.
End Uniform.

Lemma mixed_not_sorted (l : list pyval) : mixed l -> py_sorted l = None.
Proof.
  intros (i & j & x & y & Hij & Hi & Hj & Hc).
  destruct (py_sorted l) as [s|] eqn:E; [|done]. exfalso.
  apply (sorted_by_uniform py_lt class_of py_lt_class) in E as [Hlen|[c Hall]].
  - apply lookup_lt_Some in Hi, Hj. lia.
  - rewrite Forall_forall in Hall.
    pose proof (Hall x (list_elem_of_lookup_2 _ _ _ Hi)) as Hx.
    pose proof (Hall y (list_elem_of_lookup_2 _ _ _ Hj)) as Hy.
    destruct Hc; congruence.
Qed.

(** ** What the frozen form of a config is made of *)

Lemma forallb_perm {A} (f : A -> bool) (l l' : list A) :
  l ≡ₚ l' -> forallb f l = forallb f l'.
Proof.
  induction 1 as [|x l l' _ IH|x y l|l1 l2 l3 _ IH1 _ IH2]; simpl.
  - done.
  - by rewrite IH.
  - by destruct (f x), (f y).
  - congruence.
Qed.

Lemma forallb_frozen (P : pyval -> bool) (s cs : list pyval) :
  Forall (fun x => forall c, freeze x = Some c -> hashable c = P x) s ->
  mapM freeze s = Some cs ->
  forallb hashable cs = forallb P s.
Proof.
  intros IH H. apply mapM_Some_1 in H.
  induction H as [|x c s cs Hx _ IHs]; [done|].
  apply Forall_cons in IH as [IHx IH]. simpl. by rewrite (IHx c Hx), IHs.
Qed.

Lemma hashable_sorted_elements (xs : list pyval) (c : pyval) :
  Forall (fun x => forall c, freeze x = Some c -> hashable c = tuples_hashable x) xs ->
  (s ← py_sorted xs; VTuple <$> mapM freeze s) = Some c ->
  hashable c = forallb tuples_hashable xs.
Proof.
  intros IH H. destruct (py_sorted xs) as [s|] eqn:E; [|done]. simpl in H.
  destruct (mapM freeze s) as [cs|] eqn:M; [|done]. injection H as <-.
  pose proof (sorted_by_perm _ _ _ E) as Hp.
  rewrite <- (forallb_perm _ _ _ Hp). simpl.
  apply forallb_frozen; [|done]. by rewrite Hp.
Qed.

(** The frozen form is hashable exactly when the tuples of the value
    are. *)
Lemma freeze_hashable (x c : pyval) :
  freeze x = Some c -> hashable c = tuples_hashable x.
Proof.
  revert c. induction x as [a|xs IH|xs IH|xs IH|kvs IH] using pyval_nested_ind;
    intros c H.
  - by injection H as <-.
  - rewrite freeze_list in H. by apply hashable_sorted_elements.
  - by injection H as <-.
  - rewrite freeze_set in H. by apply hashable_sorted_elements.
  - rewrite freeze_dict_entries in H.
    destruct (mapM frozen_entry kvs) as [es|] eqn:E; [|done]. simpl in H.
    destruct (py_sorted (item <$> es)) as [s|] eqn:Hs; [|done]. injection H as <-.
    simpl. rewrite (forallb_perm _ _ _ (sorted_by_perm _ _ _ Hs)).
    apply mapM_Some_1 in E. clear Hs.
    induction E as [|kv e kvs es He _ IHe]; [done|].
    apply Forall_cons in IH as [IHkv IH]. csimpl. rewrite (IHe IH).
    unfold frozen_entry in He. destruct (freeze kv.2) as [fv|] eqn:Hfv; [|done].
    injection He as <-. simpl. by rewrite (IHkv fv eq_refl), andb_true_r.
Qed.

Lemma regular_tuples_hashable (x : pyval) : regular x = true -> tuples_hashable x = true.
Proof.
  induction x as [a|xs IH|xs IH|xs IH|kvs IH] using pyval_nested_ind;
    intros H; try done.
  - simpl in *. apply forallb_forall. intros x Hx.
    apply orb_true_iff in H as [H|H];
      apply (proj1 (forallb_forall _ _) H) in Hx; by destruct x as [[]| | | |].
  - simpl in *. apply andb_true_iff in H as [_ H].
    apply forallb_forall. intros kv Hkv.
    apply (Forall_In _ _ _ IH Hkv). by apply (proj1 (forallb_forall _ _) H).
Qed.

Lemma freeze_scalars (s : list pyval) :
  (forall x, x ∈ s -> is_number x = true \/ is_text x = true) ->
  mapM freeze s = Some s.
Proof.
  intros H. apply mapM_Some_2. induction s as [|x s IH]; constructor.
  - destruct (H x) as [Hx|Hx]; [left| |]; by destruct x as [[]| | | |].
  - apply IH. intros y Hy. apply H. by right.
Qed.

Lemma scalars_sorted (xs : list pyval) :
  forallb is_number xs || forallb is_text xs = true -> is_Some (py_sorted xs).
Proof.
  intros H. apply sorted_by_defined. intros x y Hx Hy.
  apply list_elem_of_In in Hx, Hy.
  apply orb_true_iff in H as [H|H];
    pose proof (proj1 (forallb_forall _ _) H x Hx);
    pose proof (proj1 (forallb_forall _ _) H y Hy);
    destruct x as [[]| | | |], y as [[]| | | |]; try done; by eexists.
Qed.

Lemma text_keys_sorted (es : dict) :
  forallb (fun kv : atom * pyval => is_text (VAtom kv.1)) es = true ->
  is_Some (sorted_by key_lt es).
Proof.
  intros H. apply sorted_by_defined. intros x y Hx Hy.
  apply list_elem_of_In in Hx, Hy.
  pose proof (proj1 (forallb_forall _ _) H x Hx).
  pose proof (proj1 (forallb_forall _ _) H y Hy).
  unfold key_lt. destruct x as [[] ?], y as [[] ?]; try done; by eexists.
Qed.

(** A regular config freezes. *)
Lemma freeze_regular (x : pyval) : regular x = true -> is_Some (freeze x).
Proof.
  induction x as [a|xs IH|xs IH|xs IH|kvs IH] using pyval_nested_ind;
    intros H; try done.
  - rewrite freeze_list. destruct (scalars_sorted xs H) as [s Hs]. rewrite Hs. simpl.
    rewrite freeze_scalars; [done|].
    intros x Hx. rewrite (sorted_by_perm _ _ _ Hs) in Hx. apply list_elem_of_In in Hx.
    simpl in H. apply orb_true_iff in H as [H|H]; [left|right];
      by apply (proj1 (forallb_forall _ _) H).
  - simpl in H. apply andb_true_iff in H as [H Hv]. apply andb_true_iff in H as [Hd Hk].
    rewrite freeze_dict_entries.
    assert (He : is_Some (mapM frozen_entry kvs)).
    { apply mapM_is_Some, Forall_forall. intros kv Hkv. apply list_elem_of_In in Hkv.
      unfold frozen_entry. simpl.
      destruct (Forall_In _ _ _ IH Hkv) as [fv ->]; [|done].
      by apply (proj1 (forallb_forall _ _) Hv). }
    destruct He as [es He]. rewrite He. simpl.
    pose proof (frozen_entries_keys _ _ He) as Hkeys.
    rewrite sorted_entries_items by by rewrite Hkeys.
    destruct (text_keys_sorted es) as [s ->]; [|done].
    clear -Hk He. apply mapM_Some_1 in He.
    induction He as [|kv e kvs es He _ IHe]; [done|].
    simpl in *. apply andb_true_iff in Hk as [Hkv Hk]. rewrite (IHe Hk), andb_true_r.
    unfold frozen_entry in He. destruct (freeze kv.2); [|done]. by injection He as <-.
Qed.

(** The frozen form of a dict depends on a value only through the frozen
    form of the value. *)
Lemma freeze_dict_value (pre post : dict) (k : atom) (v v' : pyval) :
  freeze v = freeze v' ->
  freeze (VDict (pre ++ (k, v) :: post)) = freeze (VDict (pre ++ (k, v') :: post)).
Proof.
  intros H. rewrite !freeze_dict_entries.
  assert (mapM frozen_entry (pre ++ (k, v) :: post)
          = mapM frozen_entry (pre ++ (k, v') :: post)) as ->; [|done].
  induction pre as [|e pre IH]; csimpl.
  - assert (frozen_entry (k, v) = frozen_entry (k, v')) as ->; [|done].
    unfold frozen_entry. simpl. by rewrite H.
  - destruct (frozen_entry e); csimpl; [|done]. unfold mbind in *. by rewrite IH.
Qed.

(** A dict with a value that does not freeze does not freeze. *)
Lemma freeze_dict_fails (d : dict) (e : atom * pyval) :
  In e d -> freeze e.2 = None -> freeze (VDict d) = None.
Proof.
  intros He Hf. rewrite freeze_dict_entries.
  assert (mapM frozen_entry d = None) as ->; [|done].
  apply eq_None_not_Some. rewrite mapM_is_Some, Forall_forall. intros H.
  apply list_elem_of_In in He. specialize (H e He). unfold frozen_entry in H. simpl in H.
  rewrite Hf in H. by destruct H.
Qed.

Lemma mutually_orderable_sorted (l l' : list pyval) :
  mutually_orderable l -> l ≡ₚ l' ->
  is_Some (py_sorted l) /\ py_sorted l = py_sorted l'.
Proof.
  intros Ho Hp. unfold mutually_orderable in Ho. rewrite Forall_forall in Ho.
  assert (Htri : forall x y, x ∈ l -> y ∈ l -> comparable x y).
  { intros x y Hx Hy. specialize (Ho x Hx). rewrite Forall_forall in Ho. by apply Ho. }
  assert (Htrans : forall x y z, x ∈ l -> y ∈ l -> z ∈ l ->
            py_lt x y = Some true -> py_lt y z = Some true -> py_lt x z = Some true).
  { intros x y z _ _ _. apply py_lt_trans. }
  assert (Hall : Forall (fun x => x ∈ l) l) by by apply Forall_forall.
  split.
  - destruct (sorted_by_total py_lt (fun x => x ∈ l) Htri Htrans l Hall) as (s & Hs & _).
    by exists s.
  - by apply (sorted_by_permutation py_lt (fun x => x ∈ l) Htri Htrans).
Qed.

Lemma regular_well_formed (x : pyval) : regular x = true -> well_formed x = true.
Proof.
  induction x as [a|xs IH|xs IH|xs IH|kvs IH] using pyval_nested_ind;
    intros H; try done.
  - simpl in *. apply forallb_forall. intros x Hx.
    apply orb_true_iff in H as [H|H];
      apply (proj1 (forallb_forall _ _) H) in Hx; by destruct x as [[]| | | |].
  - simpl in *. apply andb_true_iff in H as [H Hv]. apply andb_true_iff in H as [Hd _].
    rewrite Hd. simpl. apply forallb_forall. intros kv Hkv.
    apply (Forall_In _ _ _ IH Hkv). by apply (proj1 (forallb_forall _ _) Hv).
Qed.

(** A plain config freezes. *)
Lemma freeze_plain (x : pyval) : plain x = true -> is_Some (freeze x).
Proof.
  induction x as [a|xs IH|xs IH|xs IH|kvs IH] using pyval_nested_ind;
    intros H; try done.
  - rewrite freeze_list. destruct (scalars_sorted xs H) as [s Hs]. rewrite Hs. simpl.
    rewrite freeze_scalars; [done|].
    intros x Hx. rewrite (sorted_by_perm _ _ _ Hs) in Hx. apply list_elem_of_In in Hx.
    simpl in H. apply orb_true_iff in H as [H|H]; [left|right];
      by apply (proj1 (forallb_forall _ _) H).
  - simpl in H. apply andb_true_iff in H as [H Hv]. apply andb_true_iff in H as [Hd Hk].
    rewrite freeze_dict_entries.
    assert (He : is_Some (mapM frozen_entry kvs)).
    { apply mapM_is_Some, Forall_forall. intros kv Hkv. apply list_elem_of_In in Hkv.
      unfold frozen_entry. simpl.
      destruct (Forall_In _ _ _ IH Hkv) as [fv ->]; [|done].
      by apply (proj1 (forallb_forall _ _) Hv). }
    destruct He as [es He]. rewrite He. simpl.
    pose proof (frozen_entries_keys _ _ He) as Hkeys.
    rewrite sorted_entries_items by by rewrite Hkeys.
    destruct (text_keys_sorted es) as [s ->]; [|done].
    clear -Hk He. apply mapM_Some_1 in He.
    induction He as [|kv e kvs es He _ IHe]; [done|].
    simpl in *. apply andb_true_iff in Hk as [Hkv Hk]. rewrite (IHe Hk), andb_true_r.
    unfold frozen_entry in He. destruct (freeze kv.2); [|done]. by injection He as <-.
Qed.

(** ** The file name and the order of keys *)




(** ** The name of the model config *)

(** X1.  The naming step on a regular config (scalars, lists of numbers
    or of strings, mappings with distinct string keys, at any depth): the
    entries of every dict are put in the order of their keys alone (the
    values are canonicalised but never compared), the elements of every
    list are sorted, the result is hashed, and the file is called
    [model_config_dspy_N.yaml] with [N] the absolute value of the hash. *)
Theorem config_name_follows_the_steps (w : world) (d : dict) (s : state) :
  regular (VDict d) = true ->
  exists c,
    canonical (VDict d) = Some c
    /\ name_config w d s
       = (Returned ("model_config_dspy_"
                    ++ pretty (Z.to_N (Z.abs (py_hash w c))) ++ ".yaml"), s).
Proof.
  intros Hr. destruct (freeze_regular _ Hr) as [c Hc]. exists c.
  assert (Hh : hashable c = true).
  { rewrite (freeze_hashable _ _ Hc). by apply regular_tuples_hashable. }
  rewrite <- (freeze_canonical _ (regular_well_formed _ Hr)). split; [done|].
  unfold name_config, hash_dict. rewrite Hc, Hh.
  unfold mbind, M_bind, bind, ret. by rewrite config_filename_abs.
Qed.

(** X1 (a run). *)
Lemma config_name_follows_the_steps_witness :
  exists c,
    canonical (VDict [ (key "stages", VList [VInt 3; VInt 1; VInt 2]);
                       (key "num_epochs", VInt 3) ]) = Some c
    /\ name_config Demo.world
         [ (key "stages", VList [VInt 3; VInt 1; VInt 2]); (key "num_epochs", VInt 3) ]
         (caller_state None)
       = (Returned ("model_config_dspy_"
                    ++ pretty (Z.to_N (Z.abs (Demo.hash c))) ++ ".yaml"),
          caller_state None).
Proof.
  exact (config_name_follows_the_steps Demo.world
           [ (key "stages", VList [VInt 3; VInt 1; VInt 2]); (key "num_epochs", VInt 3) ]
           (caller_state None) eq_refl).
Defined.



(** X4.  On a plain config (a regular config in which tuples may stand
    for values) hashing the frozen config fails, with the [TypeError] of
    an unhashable value, exactly when one of its tuples holds a list, a
    set or a dict: [freeze] returns tuples as they are.  When no tuple
    does, the hash is returned and the state is untouched. *)
Theorem unhashable_only_through_tuples (w : world) (x : pyval) (s : state) :
  plain x = true ->
  ((hash_dict w x s).1 = Raised (TypeError "unhashable type")
   <-> tuples_hashable x = false)
  /\ (tuples_hashable x = true -> exists c,
        freeze x = Some c /\ hash_dict w x s = (Returned (py_hash w c), s)).
Proof.
  intros Hp. destruct (freeze_plain _ Hp) as [c Hc].
  unfold hash_dict. rewrite Hc, (freeze_hashable x c Hc).
  destruct (tuples_hashable x); split; try done.
  intros _. by exists c.
Qed.

(** X4 (a run).  A tuple that holds a list. *)
Lemma unhashable_only_through_tuples_witness :
  (hash_dict Demo.world
     (VDict [ (key "betas", VTuple [VInt 1; VList [VInt 2]]); (key "num_epochs", VInt 3) ])
     (caller_state None)).1
  = Raised (TypeError "unhashable type").
Proof.
  exact (proj2 (proj1 (unhashable_only_through_tuples Demo.world
                         (VDict [ (key "betas", VTuple [VInt 1; VList [VInt 2]]);
                                  (key "num_epochs", VInt 3) ])
                         (caller_state None) eq_refl))
           eq_refl).
Defined.

(** X5.  A regular config (scalars, lists of numbers or of strings,
    mappings with distinct string keys, at any depth) always gets a name:
    it freezes, its frozen form is hashable, and the naming step returns
    the file name of its hash without touching the state. *)
Theorem regular_config_gets_a_name (w : world) (d : dict) (s : state) :
  regular (VDict d) = true ->
  exists c,
    freeze (VDict d) = Some c
    /\ hashable c = true
    /\ name_config w d s = (Returned (filename_of_hash (py_hash w c)), s).
Proof.
  intros Hr. destruct (freeze_regular _ Hr) as [c Hc]. exists c.
  assert (Hh : hashable c = true).
  { rewrite (freeze_hashable _ _ Hc). by apply regular_tuples_hashable. }
  split; [done|]. split; [done|].
  unfold name_config, hash_dict. rewrite Hc, Hh.
  unfold mbind, M_bind, bind, ret. by rewrite config_filename_abs.
Qed.

(** X5 (a run). *)
Lemma regular_config_gets_a_name_witness :
  exists c,
    freeze (VDict [ (key "lora_config", VDict [(key "r", VInt 8)]);
                    (key "stages", VList [VInt 3; VInt 1; VInt 2]) ]) = Some c
    /\ hashable c = true
    /\ name_config Demo.world
         [ (key "lora_config", VDict [(key "r", VInt 8)]);
           (key "stages", VList [VInt 3; VInt 1; VInt 2]) ]
         (caller_state None)
       = (Returned (filename_of_hash (Demo.hash c)), caller_state None).
Proof.
  exact (regular_config_gets_a_name Demo.world
           [ (key "lora_config", VDict [(key "r", VInt 8)]);
             (key "stages", VList [VInt 3; VInt 1; VInt 2]) ]
           (caller_state None) eq_refl).
Defined.

(** ** Lookups in updated dicts *)

Lemma atom_eq_congr (a b c : atom) : atom_eq b c = true -> atom_eq a b = atom_eq a c.
Proof.
  intros H. destruct (atom_eq a b) eqn:E1, (atom_eq a c) eqn:E2; try done.
  - by rewrite (atom_eq_trans _ _ _ E1 H) in E2.
  - rewrite atom_eq_sym in H. by rewrite (atom_eq_trans _ _ _ E2 H) in E1.
Qed.

Lemma dict_get_eq (d : dict) (k k' : atom) :
  atom_eq k k' = true -> dict_get d k = dict_get d k'.
Proof.
  intros H. induction d as [|[k0 v0] d IH]; simpl; [done|].
  by rewrite (atom_eq_congr k0 k k' H), IH.
Qed.

Lemma dict_get_In (d : dict) (k : atom) (v : pyval) :
  dict_get d k = Some v -> exists k', In (k', v) d /\ atom_eq k' k = true.
Proof.
  induction d as [|[k0 v0] d IH]; simpl; [done|].
  destruct (atom_eq k0 k) eqn:E; intros H.
  - injection H as <-. exists k0. by split; [left|].
  - destruct (IH H) as (k' & Hin & Hk). exists k'. by split; [right|].
Qed.

Lemma dict_get_None (d : dict) (k : atom) :
  dict_get d k = None <-> forall k', In k' (dict_keys d) -> atom_eq k' k = false.
Proof.
  induction d as [|[k0 v0] d IH]; simpl; [done|].
  destruct (atom_eq k0 k) eqn:E; split; intros H.
  - done.
  - by rewrite (H k0) in E; [|left].
  - intros k' [<-|Hk']; [done|]. by apply IH.
  - apply IH. intros k' Hk'. apply H. by right.
Qed.

Lemma dict_keys_set (d : dict) (k : atom) (v : pyval) :
  dict_keys (dict_set d k v)
  = (dict_keys d ++ (if dict_has d k then [] else [k]))%list.
Proof.
  unfold dict_keys, dict_has. induction d as [|[k0 v0] d IH]; simpl; [done|].
  destruct (atom_eq k0 k); csimpl; [|by rewrite IH].
  by rewrite app_nil_r.
Qed.

Lemma distinct_keys_app_one (ks : list atom) (k : atom) :
  distinct_keys ks = true -> (forall k', In k' ks -> atom_eq k' k = false) ->
  distinct_keys (ks ++ [k]) = true.
Proof.
  induction ks as [|k0 ks IH]; intros Hd Hk; simpl in *; [done|].
  apply andb_true_iff in Hd as [Hn Hd]. apply andb_true_iff. split.
  - rewrite existsb_app. simpl. apply negb_true_iff in Hn. rewrite Hn. simpl.
    rewrite orb_false_r. apply negb_true_iff, Hk. by left.
  - apply IH; [done|]. intros k' Hk'. apply Hk. by right.
Qed.

Lemma distinct_keys_set (d : dict) (k : atom) (v : pyval) :
  distinct_keys (dict_keys d) = true -> distinct_keys (dict_keys (dict_set d k v)) = true.
Proof.
  intros Hd. rewrite dict_keys_set. destruct (dict_has d k) eqn:E.
  - by rewrite app_nil_r.
  - apply distinct_keys_app_one; [done|]. by apply dict_get_None, dict_has_false.
Qed.

Lemma distinct_keys_update (d other : dict) :
  distinct_keys (dict_keys d) = true ->
  distinct_keys (dict_keys (dict_update d other)) = true.
Proof.
  unfold dict_update. revert d. induction other as [|e other IH]; intros d Hd; [done|].
  simpl. by apply IH, distinct_keys_set.
Qed.

Lemma dict_get_set_eq (d : dict) (k k' : atom) (v : pyval) :
  atom_eq k k' = true -> dict_get (dict_set d k v) k' = Some v.
Proof.
  intros H. rewrite <- (dict_get_eq _ k k' H). apply dict_get_set, atom_eq_refl.
Qed.

(** [d.update(other)]: the entries of [other] win. *)
Lemma dict_get_update (d other : dict) (k : atom) :
  distinct_keys (dict_keys other) = true ->
  dict_get (dict_update d other) k
  = match dict_get other k with
    | Some v => Some v
    | None => dict_get d k
    end.
Proof.
  unfold dict_update. revert d.
  induction other as [|[k0 v0] other IH]; intros d Hd; [done|].
  simpl in *. apply andb_true_iff in Hd as [Hn Hd]. rewrite (IH _ Hd).
  destruct (atom_eq k0 k) eqn:E.
  - assert (dict_get other k = None) as ->.
    { apply dict_get_None. intros k' Hk'.
      apply negb_true_iff in Hn.
      destruct (atom_eq k' k) eqn:E'; [|done].
      rewrite atom_eq_sym in E'. pose proof (atom_eq_trans _ _ _ E E') as H.
      assert (existsb (atom_eq k0) (dict_keys other) = true); [|congruence].
      apply existsb_exists. by exists k'. }
    by apply dict_get_set_eq.
  - destruct (dict_get other k); [done|]. by apply dict_get_set_ne.
Qed.

(** The filter that drops the [None] values, on a dict with distinct
    keys. *)
Lemma dict_get_drop_none_distinct (d : dict) (k : atom) :
  distinct_keys (dict_keys d) = true ->
  dict_get (drop_none d) k = v ← dict_get d k; if is_none v then None else Some v.
Proof.
  induction d as [|[k0 v0] d IH]; intros Hd; [done|].
  simpl in Hd. apply andb_true_iff in Hd as [Hn Hd]. simpl.
  destruct (atom_eq k0 k) eqn:E; simpl.
  - destruct (is_none v0) eqn:Hv; simpl; [|by rewrite E].
    rewrite (IH Hd).
    assert (dict_get d k = None) as ->; [|done].
    apply dict_get_None. intros k' Hk'. apply negb_true_iff in Hn.
    destruct (atom_eq k' k) eqn:E'; [|done].
    rewrite atom_eq_sym in E'. pose proof (atom_eq_trans _ _ _ E E') as H.
    assert (existsb (atom_eq k0) (dict_keys d) = true); [|congruence].
    apply existsb_exists. by exists k'.
  - destruct (is_none v0); simpl; [|rewrite E]; by apply IH.
Qed.

(** ** Running [generate_config_files] *)

Import Render.

Lemma name_config_run (w : world) (cfg : dict) (s : state) :
  name_config w cfg s = (name_of w cfg, s).
Proof.
  unfold name_config, name_of, hash_dict.
  destruct (freeze (VDict cfg)) as [c|]; [|done]. by destruct (hashable c).
Qed.

Lemma after_nil (s : state) : after s [] = s.
Proof. unfold after. rewrite app_nil_r. by destruct s. Qed.

Lemma record_after (s : state) (evs : list event) (ev : event) :
  record ev (after s evs) = after s (evs ++ [ev]).
Proof. unfold record, after. simpl. by rewrite app_assoc. Qed.

Ltac gcf_finish w cfg Hl Hp :=
  rewrite run_bind; unfold ask at 1; rewrite Hl; cbv beta iota;
  rewrite run_bind; unfold update_with at 1; rewrite Hp; unfold ret at 1; cbv beta iota;
  rewrite run_bind, name_config_run; cbv beta iota;
  change (drop_none (dict_update (dict_set (dict_update _ _) (key "model_id") _) _))
    with cfg;
  rewrite record_after;
  destruct (name_of w cfg) as [filename|e]; [|done];
  rewrite run_bind; unfold info, emit at 1; cbv beta iota; rewrite record_after;
  rewrite run_bind; unfold ask at 1; cbv beta iota; rewrite record_after;
  unfold after at 1; cbn [trace];
  rewrite <- ?app_assoc; cbn [app];
  destruct (yaml_safe_dump w _ filename (VDict cfg)) as [[]|e]; [|done];
  rewrite run_bind; unfold update_with at 1;
  change [ (key "name", _); (key "entrypoint", _); (key "working_dir", _);
           (key "image_uri", _); (key "requirements", _); (key "env_vars", _) ]
    with (default_job_config w filename);
  destruct (as_pairs (get_or _ "compute_config" (VDict []))) as [cc|]; [|done];
  unfold ret at 1; cbv beta iota;
  rewrite run_bind; unfold ask at 1; cbv beta iota; rewrite record_after;
  unfold after at 1; cbn [trace];
  rewrite <- ?app_assoc; cbn [app];
  by destruct (job_config_new w _ _).

(** A call whose keyword arguments name a model and lead to a template
    that holds a mapping, step by step. *)
Lemma generate_config_files_run (w : world) (train_path : string)
    (eval_path : option string) (kwargs : dict) (s : state)
    (model path : pyval) (template hyperparameters : dict) :
  dict_get kwargs (key "model") = Some model ->
  is_none model = false ->
  template_of kwargs model = Returned path ->
  (forall t, yaml_safe_load w t path = Returned (VDict template)) ->
  as_pairs (get_or kwargs "hyperparameters" (VDict [])) = Some hyperparameters ->
  let cfg := merged_config template hyperparameters model train_path eval_path kwargs in
  exists logs,
    Forall (fun ev => is_log ev = true) logs
    /\ generate_config_files w train_path eval_path kwargs s
       = match name_of w cfg with
         | Raised e => (Raised e, after s (logs ++ [YamlLoad path]))
         | Returned filename =>
             let t2 := (logs ++ [ YamlLoad path;
                                  Log INFO ("Model config data: " ++ py_str w (VDict cfg)) ])%list in
             let t3 := (t2 ++ [YamlDump filename (VDict cfg)])%list in
             match yaml_safe_dump w (trace s ++ t2) filename (VDict cfg) with
             | Raised e => (Raised e, after s t3)
             | Returned _ =>
                 match as_pairs (get_or kwargs "compute_config" (VDict [])) with
                 | None =>
                     (Raised (TypeError "cannot convert dictionary update sequence"),
                      after s t3)
                 | Some compute_config =>
                     let fields :=
                       dict_update (default_job_config w filename) compute_config in
                     (match job_config_new w (trace s ++ t3) fields with
                      | Returned c =>
                          Returned (get_or kwargs "compute_yaml_path"
                                      (VStr "job_runner_config.yaml"), c)
                      | Raised e => Raised e
                      end,
                      after s (t3 ++ [JobConfigNew fields]))
                 end
             end
         end.
Proof.
  intros Hm Hn Ht Hl Hp cfg.
  unfold generate_config_files. cbv zeta.
  rewrite run_bind. unfold getitem at 1. rewrite Hm. unfold ret at 1. cbv beta iota.
  rewrite run_bind. rewrite Hn. unfold assert at 1. cbn [negb]. unfold ret at 1. cbv beta iota.
  rewrite run_bind. unfold template_of in Ht.
  destruct (truthy (get_or kwargs "train_config_yaml" VNone)) eqn:Hbase.
  - injection Ht as <-. unfold ret at 1. cbv beta iota.
    exists []. split; [done|]. rewrite <- (after_nil s) at 1.
    gcf_finish w cfg Hl Hp.
  - destruct model as [[| | |model_name]| | | |]; try done.
    destruct (get_yaml_config model_name) as [file|e] eqn:Hfile; [|done].
    injection Ht as <-.
    rewrite run_bind. unfold info, emit at 1. cbv beta iota. unfold ret at 1. cbv beta iota.
    eexists [Log INFO _]. split; [by repeat constructor|].
    rewrite <- (after_nil s) at 1. rewrite record_after.
    gcf_finish w cfg Hl Hp.
Qed.

Lemma logs_silent (logs : list event) :
  Forall (fun ev => is_log ev = true) logs ->
  dumped logs = [] /\ loaded logs = [] /\ job_configs logs = [].
Proof.
  induction 1 as [|ev logs Hev _ (IH1 & IH2 & IH3)]; [done|].
  by destruct ev.
Qed.

Lemma loaded_app (t1 t2 : list event) : loaded (t1 ++ t2) = (loaded t1 ++ loaded t2)%list.
Proof. apply omap_app. Qed.

Lemma job_configs_app (t1 t2 : list event) :
  job_configs (t1 ++ t2) = (job_configs t1 ++ job_configs t2)%list.
Proof. apply omap_app. Qed.

Lemma custom_modifications_keys (model : pyval) (train_path : string)
    (eval_path : option string) (kwargs : dict) :
  distinct_keys (dict_keys (custom_modifications model train_path eval_path kwargs)) = true.
Proof.
  unfold custom_modifications. destruct (truthy _); [|done]. by apply distinct_keys_set.
Qed.

Lemma custom_modifications_get (model : pyval) (train_path : string)
    (eval_path : option string) (kwargs : dict) (k : atom) :
  reserved k = false ->
  dict_get (custom_modifications model train_path eval_path kwargs) k = None.
Proof.
  intros Hk. unfold reserved in Hk.
  assert (Hall : forall k',
    In k' [ key "model_id"; key "train_path"; key "valid_path"; key "logger";
            key "num_checkpoints_to_keep"; key "output_dir" ] ->
    atom_eq k' k = false).
  { intros k' Hk'. rewrite atom_eq_sym. destruct (atom_eq k k') eqn:E; [|done].
    rewrite <- Hk. symmetry. apply existsb_exists. by exists k'. }
  apply dict_get_None. intros k' Hk'. apply Hall.
  unfold custom_modifications in Hk'. destruct (truthy _).
  - rewrite dict_keys_set in Hk'. apply in_app_or in Hk' as [Hk'|Hk'].
    + simpl in *. tauto.
    + destruct (dict_has _ _); [done|]. destruct Hk' as [<-|[]]. simpl. tauto.
  - simpl in *. tauto.
Qed.

(** Before the [None] values are dropped: the fixed fields win over the
    hyperparameters, which win over the template. *)
Lemma merged_config_get (template hyperparameters : dict) (model : pyval)
    (train_path : string) (eval_path : option string) (kwargs : dict) (k : atom) :
  distinct_keys (dict_keys hyperparameters) = true ->
  dict_get (dict_update (dict_set (dict_update template hyperparameters)
                                  (key "model_id") model)
                        (custom_modifications model train_path eval_path kwargs)) k
  = first_of [custom_modifications model train_path eval_path kwargs;
              hyperparameters; template] k.
Proof.
  intros Hh. rewrite dict_get_update by apply custom_modifications_keys. simpl.
  destruct (dict_get (custom_modifications _ _ _ _) k) as [v|] eqn:E; [done|].
  assert (Hk : atom_eq (key "model_id") k = false).
  { destruct (atom_eq (key "model_id") k) eqn:Hk; [|done].
    rewrite <- (dict_get_eq _ _ _ Hk) in E.
    unfold custom_modifications in E. destruct (truthy _); [|done].
    by rewrite dict_get_set_ne in E. }
  rewrite dict_get_set_ne, dict_get_update by done.
  destruct (dict_get hyperparameters k); [done|]. by destruct (dict_get template k).
Qed.

(** ** The fixed fields of the written config *)

(** C6.  Whatever the keyword arguments (the hyperparameters among them),
    the template and the world: every model config that
    [generate_config_files] writes has the logger provider ["wandb"] and
    [num_checkpoints_to_keep] equal to [10], and a call that returns has
    written exactly one.  And a config is written: when the keyword
    arguments name a model and lead to a template that holds a mapping,
    and the merged config gets a name, the call writes the merged config
    under that name, once, with the two fixed fields in it. *)
Theorem written_config_has_fixed_fields (w : world) (train_path : string)
    (eval_path : option string) (kwargs : dict) (s : state) :
  let r := generate_config_files w train_path eval_path kwargs s in
  (exists evs,
     trace r.2 = (trace s ++ evs)%list
     /\ Forall (fun pd => has_fixed_fields pd.2) (dumped evs)
     /\ (forall a, r.1 = Returned a -> exists path data, dumped evs = [(path, data)]))
  /\ (forall (model path : pyval) (template hyperparameters : dict) (filename : string),
        dict_get kwargs (key "model") = Some model ->
        is_none model = false ->
        template_of kwargs model = Returned path ->
        (forall t, yaml_safe_load w t path = Returned (VDict template)) ->
        as_pairs (get_or kwargs "hyperparameters" (VDict [])) = Some hyperparameters ->
        name_of w (merged_config template hyperparameters model train_path eval_path kwargs)
        = Returned filename ->
        exists evs data,
          trace r.2 = (trace s ++ evs)%list
          /\ dumped evs = [(filename, data)]
          /\ data = VDict (merged_config template hyperparameters model
                                         train_path eval_path kwargs)
          /\ has_fixed_fields data).
Proof.
  intros r. split; [apply generate_config_files_writes|].
  intros model path template hyperparameters filename Hm Hn Ht Hl Hp Hname.
  destruct (generate_config_files_run w train_path eval_path kwargs s model path
              template hyperparameters Hm Hn Ht Hl Hp) as (logs & Hlogs & Hrun).
  destruct (logs_silent logs Hlogs) as (Hd & _ & _).
  set (cfg := merged_config template hyperparameters model train_path eval_path kwargs) in *.
  assert (Hfix : has_fixed_fields (VDict cfg)) by apply fixed_fields_survive.
  unfold r. rewrite Hrun, Hname. cbv zeta.
  destruct (yaml_safe_dump w _ filename (VDict cfg)) as [[]|e];
    [destruct (as_pairs (get_or kwargs "compute_config" (VDict []))) as [cc|]|];
    eexists _, (VDict cfg); (split; [reflexivity|]);
    rewrite ?dumped_app, Hd; simpl; done.
Qed.

(** C6 (a run).  Hyperparameters that try to set both fields, over a
    template that sets them too: the config is written, with the fixed
    values. *)
Lemma written_config_has_fixed_fields_witness :
  exists filename,
    dumped (trace (generate_config_files Demo.world "s3://bucket/artifacts/data.jsonl" None
      [ (key "model", VStr "meta-llama/Llama-3-8b");
        (key "hyperparameters",
         VDict [ (key "num_checkpoints_to_keep", VInt 3);
                 (key "logger", VDict [(key "provider", VStr "tensorboard")]) ]) ]
      (caller_state None)).2)
    = [ (filename,
         VDict [ (key "learning_rate", VInt 3);
                 (key "num_checkpoints_to_keep", VInt 10);
                 (key "logger", VDict [(key "provider", VStr "wandb")]);
                 (key "model_id", VStr "meta-llama/Llama-3-8b");
                 (key "train_path", VStr "s3://bucket/artifacts/data.jsonl") ]) ].
Proof.
  destruct (proj2 (written_config_has_fixed_fields Demo.world
                     "s3://bucket/artifacts/data.jsonl" None
                     [ (key "model", VStr "meta-llama/Llama-3-8b");
                       (key "hyperparameters",
                        VDict [ (key "num_checkpoints_to_keep", VInt 3);
                                (key "logger",
                                 VDict [(key "provider", VStr "tensorboard")]) ]) ]
                     (caller_state None))
              (VStr "meta-llama/Llama-3-8b")
              (VStr "configs/training/full_param/llama-3-8b.yaml")
              [ (key "learning_rate", VInt 3); (key "num_checkpoints_to_keep", VInt 1);
                (key "logger", VDict [(key "provider", VStr "none")]) ]
              [ (key "num_checkpoints_to_keep", VInt 3);
                (key "logger", VDict [(key "provider", VStr "tensorboard")]) ]
              _ eq_refl eq_refl eq_refl (fun _ => eq_refl) eq_refl eq_refl)
    as (evs & data & Ht & Hd & Hdata & _).
  eexists. rewrite Ht. simpl. rewrite Hd, Hdata. reflexivity.
Defined.

(** ** What [generate_config_files] reads and writes *)

(** X6.  A call whose keyword arguments lack ["model"], give [None] for
    it, or lead to no template (no truthy [train_config_yaml], and a model
    that is not a string or whose name has neither "llama" nor "mistral"
    in it) raises before anything is read, logged or written: the state is
    the one the call started in. *)
Theorem bad_arguments_fail_before_any_effect (w : world) (train_path : string)
    (eval_path : option string) (kwargs : dict) (s : state) (e : exn) :
  (dict_get kwargs (key "model") = None /\ e = KeyError "model")
  \/ (dict_get kwargs (key "model") = Some VNone
      /\ e = AssertionError "Model is required to generate the config files")
  \/ (exists model,
        dict_get kwargs (key "model") = Some model /\ is_none model = false
        /\ template_of kwargs model = Raised e) ->
  generate_config_files w train_path eval_path kwargs s = (Raised e, s).
Proof.
  intros [[Hm ->]|[[Hm ->]|(model & Hm & Hn & Ht)]];
    unfold generate_config_files; cbv zeta;
    rewrite run_bind; unfold getitem at 1; rewrite Hm; [done| |].
  - unfold ret at 1. cbv beta iota. by rewrite run_bind.
  - unfold ret at 1. cbv beta iota.
    rewrite run_bind, Hn. unfold assert at 1. cbn [negb]. unfold ret at 1. cbv beta iota.
    rewrite run_bind. unfold template_of in Ht.
    destruct (truthy (get_or kwargs "train_config_yaml" VNone)); [done|].
    destruct model as [[| | |model_name]| | | |]; try by injection Ht as <-.
    destruct (get_yaml_config model_name); [done|]. by injection Ht as <-.
Qed.

(** X6 (a run).  A model of a family without a default template. *)
Lemma bad_arguments_fail_before_any_effect_witness :
  generate_config_files Demo.world "s3://bucket/artifacts/data.jsonl" None
    [(key "model", VStr "gpt2")] (caller_state None)
  = (Raised (RuntimeError "No default yaml found for the model"), caller_state None).
Proof.
  apply (bad_arguments_fail_before_any_effect Demo.world).
  right. right. exists (VStr "gpt2"). by repeat split.
Defined.

(** X7.  A call whose keyword arguments name a model and lead to a
    template that holds a mapping reads that template and nothing else,
    and whatever it writes is the merged config: for every key the fixed
    fields decide first, then the hyperparameters, then the template, and
    an entry whose value is [None] is left out.  So the written config has
    the model as [model_id] and the train path, and with no eval path it
    has no [valid_path], whatever the template and the hyperparameters
    say. *)
Theorem written_config_merges_by_precedence (w : world) (train_path : string)
    (eval_path : option string) (kwargs : dict) (s : state)
    (model path : pyval) (template hyperparameters : dict) :
  dict_get kwargs (key "model") = Some model ->
  is_none model = false ->
  template_of kwargs model = Returned path ->
  (forall t, yaml_safe_load w t path = Returned (VDict template)) ->
  as_pairs (get_or kwargs "hyperparameters" (VDict [])) = Some hyperparameters ->
  distinct_keys (dict_keys template) = true ->
  distinct_keys (dict_keys hyperparameters) = true ->
  let r := generate_config_files w train_path eval_path kwargs s in
  let cfg := merged_config template hyperparameters model train_path eval_path kwargs in
  (exists evs,
     trace r.2 = (trace s ++ evs)%list
     /\ loaded evs = [path]
     /\ Forall (fun pd => pd.2 = VDict cfg) (dumped evs))
  /\ (forall k,
        dict_get cfg k
        = v ← first_of [ custom_modifications model train_path eval_path kwargs;
                         hyperparameters; template ] k;
          if is_none v then None else Some v)
  /\ dict_get cfg (key "model_id") = Some model
  /\ dict_get cfg (key "train_path") = Some (VStr train_path)
  /\ (eval_path = None -> dict_get cfg (key "valid_path") = None).
Proof.
  intros Hm Hn Ht Hl Hp Hdt Hdh r cfg.
  assert (Hget : forall k,
    dict_get cfg k
    = v ← first_of [ custom_modifications model train_path eval_path kwargs;
                     hyperparameters; template ] k;
      if is_none v then None else Some v).
  { intros k. unfold cfg, merged_config. cbv zeta.
    fold (custom_modifications model train_path eval_path kwargs).
    rewrite dict_get_drop_none_distinct
      by by apply distinct_keys_update, distinct_keys_set, distinct_keys_update.
    by rewrite merged_config_get. }
  split; [|split; [exact Hget|]].
  - destruct (generate_config_files_run w train_path eval_path kwargs s model path
                template hyperparameters Hm Hn Ht Hl Hp) as (logs & Hlogs & Hrun).
    destruct (logs_silent logs Hlogs) as (Hd & Hlo & _).
    unfold r. rewrite Hrun. fold cfg.
    destruct (name_of w cfg) as [filename|e]; cbv zeta.
    + destruct (yaml_safe_dump w _ filename (VDict cfg)) as [[]|e];
        [destruct (as_pairs (get_or kwargs "compute_config" (VDict []))) as [cc|]|];
        eexists; (split; [reflexivity|]);
        rewrite ?loaded_app, ?dumped_app, Hd, Hlo; simpl;
        (split; [done|by repeat constructor]).
    + eexists. split; [reflexivity|]. rewrite loaded_app, dumped_app, Hd, Hlo. by simpl.
  - rewrite !Hget. unfold custom_modifications.
    destruct (truthy (get_or kwargs "output_dir" VNone)); simpl; rewrite Hn;
      (split; [done|]); (split; [done|]); by intros ->.
Qed.

(** X7 (a run).  Hyperparameters that set a [valid_path], in a call
    without an eval path. *)
Lemma written_config_merges_by_precedence_witness :
  dict_get
    (merged_config
       [ (key "learning_rate", VInt 3); (key "num_checkpoints_to_keep", VInt 1);
         (key "logger", VDict [(key "provider", VStr "none")]) ]
       [ (key "learning_rate", VInt 5); (key "valid_path", VStr "val.jsonl") ]
       (VStr "meta-llama/Llama-3-8b") "s3://bucket/artifacts/data.jsonl" None
       [ (key "model", VStr "meta-llama/Llama-3-8b");
         (key "hyperparameters",
          VDict [ (key "learning_rate", VInt 5); (key "valid_path", VStr "val.jsonl") ]) ])
    (key "valid_path")
  = None.
Proof.
  exact (proj2 (proj2 (proj2 (proj2
           (written_config_merges_by_precedence Demo.world
              "s3://bucket/artifacts/data.jsonl" None
              [ (key "model", VStr "meta-llama/Llama-3-8b");
                (key "hyperparameters",
                 VDict [ (key "learning_rate", VInt 5);
                         (key "valid_path", VStr "val.jsonl") ]) ]
              (caller_state None) (VStr "meta-llama/Llama-3-8b")
              (VStr "configs/training/full_param/llama-3-8b.yaml")
              [ (key "learning_rate", VInt 3); (key "num_checkpoints_to_keep", VInt 1);
                (key "logger", VDict [(key "provider", VStr "none")]) ]
              [ (key "learning_rate", VInt 5); (key "valid_path", VStr "val.jsonl") ]
              eq_refl eq_refl eq_refl (fun _ => eq_refl) eq_refl eq_refl eq_refl))))
           eq_refl).
Defined.

(** X3.  A list among the hyperparameters with two elements of different
    classes (a number and a string, say), or with two elements one of
    which takes part in no ordering ([None], a dict), under a key that
    [generate_config_files] does not set itself: the call raises the
    [TypeError] of the failed comparison when it comes to name the config,
    and neither a model config nor a job config has been written. *)
Theorem mixed_list_fails_before_writing (w : world) (train_path : string)
    (eval_path : option string) (kwargs : dict) (s : state)
    (model path : pyval) (template hyperparameters : dict)
    (k : atom) (l : list pyval) :
  dict_get kwargs (key "model") = Some model ->
  is_none model = false ->
  template_of kwargs model = Returned path ->
  (forall t, yaml_safe_load w t path = Returned (VDict template)) ->
  as_pairs (get_or kwargs "hyperparameters" (VDict [])) = Some hyperparameters ->
  distinct_keys (dict_keys hyperparameters) = true ->
  dict_get hyperparameters k = Some (VList l) ->
  reserved k = false ->
  mixed l ->
  let r := generate_config_files w train_path eval_path kwargs s in
  r.1 = Raised (TypeError "'<' not supported between instances")
  /\ exists evs,
       trace r.2 = (trace s ++ evs)%list /\ dumped evs = [] /\ job_configs evs = [].
Proof.
  intros Hm Hn Ht Hl Hp Hdh Hk Hres Hmixed r.
  set (cfg := merged_config template hyperparameters model train_path eval_path kwargs).
  assert (Hname : name_of w cfg = Raised (TypeError "'<' not supported between instances")).
  { assert (Hget : dict_get cfg k = Some (VList l)).
    { unfold cfg, merged_config. cbv zeta.
      fold (custom_modifications model train_path eval_path kwargs).
      apply dict_get_drop_none; [|done].
      rewrite merged_config_get by done. simpl.
      by rewrite custom_modifications_get, Hk. }
    apply dict_get_In in Hget as (k' & Hin & _).
    unfold name_of. rewrite (freeze_dict_fails cfg (k', VList l) Hin); [done|].
    simpl fst. simpl snd. by rewrite freeze_list, mixed_not_sorted. }
  destruct (generate_config_files_run w train_path eval_path kwargs s model path
              template hyperparameters Hm Hn Ht Hl Hp) as (logs & Hlogs & Hrun).
  destruct (logs_silent logs Hlogs) as (Hd & _ & Hj).
  unfold r. rewrite Hrun. fold cfg. rewrite Hname. split; [done|].
  eexists. split; [reflexivity|]. by rewrite dumped_app, job_configs_app, Hd, Hj.
Qed.

(** X3 (a run).  The stages [1, "x"]. *)
Lemma mixed_list_fails_before_writing_witness :
  (generate_config_files Demo.world "s3://bucket/artifacts/data.jsonl" None
     [ (key "model", VStr "meta-llama/Llama-3-8b");
       (key "hyperparameters", VDict [(key "stages", VList [VInt 1; VStr "x"])]) ]
     (caller_state None)).1
  = Raised (TypeError "'<' not supported between instances").
Proof.
  refine (proj1 (mixed_list_fails_before_writing Demo.world
                   "s3://bucket/artifacts/data.jsonl" None
                   [ (key "model", VStr "meta-llama/Llama-3-8b");
                     (key "hyperparameters",
                      VDict [(key "stages", VList [VInt 1; VStr "x"])]) ]
                   (caller_state None) (VStr "meta-llama/Llama-3-8b")
                   (VStr "configs/training/full_param/llama-3-8b.yaml")
                   [ (key "learning_rate", VInt 3); (key "num_checkpoints_to_keep", VInt 1);
                     (key "logger", VDict [(key "provider", VStr "none")]) ]
                   [(key "stages", VList [VInt 1; VStr "x"])]
                   (key "stages") [VInt 1; VStr "x"]
                   eq_refl eq_refl eq_refl (fun _ => eq_refl) eq_refl eq_refl eq_refl
                   eq_refl _)).
  exists 0%nat, 1%nat, (VInt 1), (VStr "x"). repeat split; [done|by left].
Defined.

(** X8.  The job config handed to the platform, in a call that gets as
    far: it is made after the model config was written, once; its fields
    are the defaults overridden key by key by the caller's
    [compute_config] (a whole value at a time: a caller's [env_vars]
    replaces the default one), and unless the caller overrides it the
    entry point runs [llmforge] on the very file that was written. *)
Theorem job_config_names_the_written_file (w : world) (train_path : string)
    (eval_path : option string) (kwargs : dict) (s : state)
    (model path : pyval) (template hyperparameters compute_config : dict) :
  dict_get kwargs (key "model") = Some model ->
  is_none model = false ->
  template_of kwargs model = Returned path ->
  (forall t, yaml_safe_load w t path = Returned (VDict template)) ->
  as_pairs (get_or kwargs "hyperparameters" (VDict [])) = Some hyperparameters ->
  as_pairs (get_or kwargs "compute_config" (VDict [])) = Some compute_config ->
  distinct_keys (dict_keys compute_config) = true ->
  let r := generate_config_files w train_path eval_path kwargs s in
  let cfg := merged_config template hyperparameters model train_path eval_path kwargs in
  exists evs,
    trace r.2 = (trace s ++ evs)%list
    /\ (forall a, r.1 = Returned a ->
          job_configs evs <> []
          /\ a.1 = get_or kwargs "compute_yaml_path" (VStr "job_runner_config.yaml"))
    /\ (forall fields, fields ∈ job_configs evs ->
          exists filename,
            name_of w cfg = Returned filename
            /\ dumped evs = [(filename, VDict cfg)]
            /\ job_configs evs = [fields]
            /\ (forall k, dict_get fields k
                          = first_of [compute_config; default_job_config w filename] k)
            /\ (dict_get compute_config (key "entrypoint") = None ->
                dict_get fields (key "entrypoint")
                = Some (VStr ("llmforge anyscale finetune " ++ filename)))).
Proof.
  intros Hm Hn Ht Hl Hp Hcc Hdc r cfg.
  destruct (generate_config_files_run w train_path eval_path kwargs s model path
              template hyperparameters Hm Hn Ht Hl Hp) as (logs & Hlogs & Hrun).
  destruct (logs_silent logs Hlogs) as (Hd & _ & Hj).
  unfold r. rewrite Hrun. fold cfg. rewrite Hcc.
  destruct (name_of w cfg) as [filename|e]; cbv zeta.
  - destruct (yaml_safe_dump w _ filename (VDict cfg)) as [[]|e].
    + eexists. split; [reflexivity|].
      rewrite !job_configs_app, !dumped_app, Hj, Hd. simpl.
      split.
      * intros a Ha. split; [done|].
        destruct (job_config_new w _ _); [|done]. by injection Ha as <-.
      * intros fields Hf. apply list_elem_of_singleton in Hf as ->.
        exists filename. split; [done|]. split; [done|]. split; [done|].
        assert (Hget : forall k,
          dict_get (dict_update (default_job_config w filename) compute_config) k
          = first_of [compute_config; default_job_config w filename] k).
        { intros k. rewrite dict_get_update by done. cbn [first_of].
          destruct (dict_get compute_config k); [done|].
          by destruct (dict_get (default_job_config w filename) k). }
        split; [exact Hget|]. intros He. rewrite Hget. cbn [first_of]. by rewrite He.
    + eexists. split; [reflexivity|].
      rewrite !job_configs_app, Hj. simpl. split; [done|].
      intros fields Hf. by apply elem_of_nil in Hf.
  - eexists. split; [reflexivity|].
    rewrite !job_configs_app, Hj. simpl. split; [done|].
    intros fields Hf. by apply elem_of_nil in Hf.
Qed.

(** X8 (a run).  A caller that sets the job's name and nothing else. *)
Lemma job_config_names_the_written_file_witness :
  exists evs,
    trace (generate_config_files Demo.world "s3://bucket/artifacts/data.jsonl" None
             [ (key "model", VStr "meta-llama/Llama-3-8b");
               (key "compute_config", VDict [(key "name", VStr "my-job")]) ]
             (caller_state None)).2
    = ([] ++ evs)%list
    /\ exists fields filename,
         job_configs evs = [fields]
         /\ (dumped evs).*1 = [filename]
         /\ dict_get fields (key "name") = Some (VStr "my-job")
         /\ dict_get fields (key "entrypoint")
            = Some (VStr ("llmforge anyscale finetune " ++ filename)).
Proof.
  destruct (job_config_names_the_written_file Demo.world
              "s3://bucket/artifacts/data.jsonl" None
              [ (key "model", VStr "meta-llama/Llama-3-8b");
                (key "compute_config", VDict [(key "name", VStr "my-job")]) ]
              (caller_state None) (VStr "meta-llama/Llama-3-8b")
              (VStr "configs/training/full_param/llama-3-8b.yaml")
              [ (key "learning_rate", VInt 3); (key "num_checkpoints_to_keep", VInt 1);
                (key "logger", VDict [(key "provider", VStr "none")]) ]
              [] [(key "name", VStr "my-job")]
              eq_refl eq_refl eq_refl (fun _ => eq_refl) eq_refl eq_refl eq_refl)
    as (evs & Ht & Hret & Hf).
  exists evs. split; [exact Ht|].
  destruct (Hret _ eq_refl) as [Hne _].
  destruct (job_configs evs) as [|fields rest] eqn:E; [done|].
  destruct (Hf fields ltac:(left)) as (filename & _ & Hd & Hone & Hget & _).
  injection Hone as ->. exists fields, filename.
  split; [done|]. split; [by rewrite Hd|].
  rewrite !Hget. done.
Defined.

(** ** Substrings, pieces and paths *)

Import Upload.

Lemma prefix_chars (sub s : string) (c : ascii) :
  String.prefix sub s = true -> In c (chars sub) -> In c (chars s).
Proof.
  revert s. induction sub as [|a sub IH]; intros s Hp Hc; [done|].
  destruct s as [|b s]; [done|]. simpl in Hp.
  destruct (ascii_dec a b) as [->|]; [|done].
  destruct Hc as [<-|Hc]; [by left|]. right. by apply IH.
Qed.

(** A substring has no character that the string lacks. *)
Lemma contains_chars (sub s : string) (c : ascii) :
  contains sub s = true -> In c (chars sub) -> In c (chars s).
Proof.
  induction s as [|b s IH]; simpl; intros H Hc.
  - by destruct sub.
  - apply orb_true_iff in H as [H|H].
    + by apply (prefix_chars sub (String b s)).
    + right. by apply IH.
Qed.

Lemma lower_ascii_idemp (c : ascii) : lower_ascii (lower_ascii c) = lower_ascii c.
Proof. by destruct c as [[] [] [] [] [] [] [] []]. Qed.

Lemma lower_idemp (s : string) : lower (lower s) = lower s.
Proof. induction s as [|c s IH]; simpl; [done|]. by rewrite lower_ascii_idemp, IH. Qed.

(** No piece of a split holds the separator. *)
Lemma split_on_pieces (sep : ascii) (s : string) :
  Forall (fun piece => ~ In sep (chars piece)) (split_on sep s).
Proof.
  induction s as [|c s IH]; simpl.
  - repeat constructor. by intros [].
  - destruct (Ascii.eqb_spec c sep) as [->|Hne].
    + constructor; [by intros []|done].
    + destruct (split_on sep s) as [|piece rest].
      * repeat constructor. by intros [?|[]].
      * apply Forall_cons in IH as [Hp Hr]. constructor; [|done].
        intros [?|?]; [done|by apply Hp].
Qed.

Lemma last_component_no_slash (path : string) :
  contains "/" (last_component path) = false.
Proof.
  unfold last_component.
  assert (H : ~ In slash (chars (List.last (split_on slash path) ""))).
  { pose proof (split_on_pieces slash path) as Hall.
    induction Hall as [|piece rest Hp _ IH]; [by intros []|].
    destruct rest as [|piece' rest]; [done|]. exact IH. }
  destruct (contains "/" _) eqn:E; [|done].
  exfalso. apply H. apply (contains_chars "/" _ slash E). by left.
Qed.

Lemma prefix_no_slash (name : string) :
  contains "/" name = false -> String.prefix "/" name = false.
Proof.
  intros H. destruct name as [|c name]; [done|]. simpl in *.
  apply orb_false_iff in H as [H _]. exact H.
Qed.

(** Where [submit_data] puts a file is directly under the storage
    root. *)
Lemma destination_under (storage path : string) : under storage (destination storage path).
Proof.
  exists (last_component path). split; [apply last_component_no_slash|].
  unfold destination, path_join. simpl. unfold join2.
  rewrite (prefix_no_slash _ (last_component_no_slash path)).
  destruct (_ || _)%bool; auto.
Qed.

(** ** The template of a model family *)

(** X9.  The family of a model is looked up in its lower-cased name, its
    size in the name as given.  So a llama model whose size is written in
    upper case ("70B": a name without a lower-case "b") gets the template
    of the small model, where the same name in lower case gets the
    template of the large one. *)
Theorem upper_case_size_gets_the_small_template (name : string) :
  contains "llama" (lower name) = true ->
  contains "70b" (lower name) = true ->
  ~ In "b"%char (chars name) ->
  get_yaml_config name = Returned "llama-3-8b.yaml"
  /\ get_yaml_config (lower name) = Returned "llama-3-70b.yaml".
Proof.
  intros Hl H70 Hb. unfold get_yaml_config. rewrite lower_idemp, Hl. split.
  - destruct (contains "70b" name) eqn:E.
    { exfalso. apply Hb, (contains_chars "70b" name _ E). simpl. tauto. }
    destruct (contains "13b" name) eqn:E'; [|done].
    exfalso. apply Hb, (contains_chars "13b" name _ E'). simpl. tauto.
  - by rewrite H70.
Qed.

(** X9 (a run). *)
Lemma upper_case_size_gets_the_small_template_witness :
  get_yaml_config "meta-llama/Meta-Llama-3-70B-Instruct" = Returned "llama-3-8b.yaml"
  /\ get_yaml_config (lower "meta-llama/Meta-Llama-3-70B-Instruct")
     = Returned "llama-3-70b.yaml".
Proof.
  apply upper_case_size_gets_the_small_template; [reflexivity|reflexivity|].
  intros H. simpl in H. repeat (destruct H as [H|H]; [discriminate H|]). exact H.
Defined.

(** ** More on the storage uploader *)

Lemma submit_data_run (w : world) (train_path : string) (eval_path : option string)
    (storage : string) (s : state) :
  environ w "ANYSCALE_ARTIFACT_STORAGE" = Some storage ->
  (forall t path, exists items, read_jsonl w t path = Returned items) ->
  let val := p ← eval_path; if truthy (VStr p) then Some p else None in
  exists evs,
    submit_data w train_path eval_path s
    = (Returned (destination storage train_path, destination storage <$> val),
       mkState (heap s) (job_id_attr s) (trace s ++ evs))
    /\ shell_commands evs
       = copy_command train_path (destination storage train_path)
         :: option_list ((fun p => copy_command p (destination storage p)) <$> val).
Proof.
  intros Henv Hread val. unfold submit_data.
  set (datasets := ("train", train_path) :: _).
  destruct (upload_all_run w datasets storage
              (record (EnvRead "ANYSCALE_ARTIFACT_STORAGE") s) Hread)
    as (evs & Hup & Hc).
  exists (EnvRead "ANYSCALE_ARTIFACT_STORAGE" :: evs). split.
  - rewrite run_bind. unfold emit at 1. rewrite Henv, run_bind.
    unfold ret at 1. rewrite run_bind, Hup.
    unfold datasets, val, record. simpl.
    rewrite <- app_assoc. simpl.
    destruct eval_path as [p|]; simpl; [|done].
    by destruct (negb (String.eqb p "")).
  - transitivity (shell_commands evs); [reflexivity|].
    rewrite Hc. unfold datasets, val. simpl.
    destruct eval_path as [p|]; simpl; [|done].
    by destruct (negb (String.eqb p "")).
Qed.



(** X11.  A train file and an eval file with the same file name in
    different directories are copied to one and the same remote file, the
    eval data last: [submit_data] returns the same remote path twice. *)
Theorem same_file_name_same_destination (w : world) (train_path eval_path : string)
    (storage : string) (s : state) :
  environ w "ANYSCALE_ARTIFACT_STORAGE" = Some storage ->
  (forall t path, exists items, read_jsonl w t path = Returned items) ->
  eval_path <> "" ->
  last_component train_path = last_component eval_path ->
  let r := submit_data w train_path (Some eval_path) s in
  let remote := destination storage train_path in
  r.1 = Returned (remote, Some remote)
  /\ exists evs,
       trace r.2 = (trace s ++ evs)%list
       /\ shell_commands evs
          = [copy_command train_path remote; copy_command eval_path remote].
Proof.
  intros Henv Hread Hne Hlast r remote.
  destruct (submit_data_run w train_path (Some eval_path) storage s Henv Hread)
    as (evs & Hrun & Hc).
  assert (Hd : destination storage eval_path = remote).
  { unfold remote, destination. by rewrite Hlast. }
  assert (Ht : negb (String.eqb eval_path "") = true).
  { apply negb_true_iff. by apply String.eqb_neq. }
  unfold r. rewrite Hrun. simpl in *. rewrite Ht in *. simpl in *. rewrite Hd in *.
  split; [done|]. by exists evs.
Qed.

(** X11 (a run). *)
Lemma same_file_name_same_destination_witness :
  (submit_data Demo.world "train/data.jsonl" (Some "val/data.jsonl")
     (caller_state None)).1
  = Returned ("s3://bucket/artifacts/data.jsonl", Some "s3://bucket/artifacts/data.jsonl").
Proof.
  exact (proj1 (same_file_name_same_destination Demo.world "train/data.jsonl"
                  "val/data.jsonl" "s3://bucket/artifacts" (caller_state None)
                  eq_refl (fun _ _ => ex_intro _ [VNone] eq_refl)
                  ltac:(discriminate) eq_refl)).
Defined.

(** ** More on [finetune_anyscale] *)

(** X12.  A caller whose [train_kwargs] already holds ["model"] is
    refused by the assertion: the call raises [AssertionError], the
    [except] clause logs it, and nothing else happens; the caller's dict
    is as it was and no job id is stored. *)
Theorem model_in_kwargs_is_refused (w : world) (model : string)
    (train_data : list pyval) (d : dict) :
  dict_has d (key "model") = true ->
  let r := call_finetune_anyscale w model train_data (Some d) in
  r.1 = Raised (AssertionError "Model should not be in the train_kwargs")
  /\ trace r.2
     = [failure_log (AssertionError "Model should not be in the train_kwargs")]
  /\ kwargs_after (Some d) r.2 = Some d
  /\ job_id_attr r.2 = None.
Proof.
  intros Hm r.
  unfold r, call_finetune_anyscale, call_finetune_with, finetune_with, finetune_body,
    kwargs_after.
  destruct d as [|kv d]; [done|].
  exec. exec. by rewrite Hm.
Qed.

(** X12 (a run). *)
Lemma model_in_kwargs_is_refused_witness :
  (call_finetune_anyscale Demo.world "meta-llama/Llama-3-8b" Demo.good_data
     (Some [(key "model", VStr "mistralai/Mistral-7B")])).1
  = Raised (AssertionError "Model should not be in the train_kwargs").
Proof.
  exact (proj1 (model_in_kwargs_is_refused Demo.world "meta-llama/Llama-3-8b"
                  Demo.good_data [(key "model", VStr "mistralai/Mistral-7B")] eq_refl)).
Defined.

(** X13.  Every call of [finetune_anyscale] ends in an exception, and the
    last thing it does is log that exception at error level, with its
    message: whatever fails inside, the [except] clause logs it and raises
    it again unchanged. *)
Theorem every_failure_is_logged_last (w : world) (model : string)
    (train_data : list pyval) (train_kwargs : option dict) :
  let r := call_finetune_anyscale w model train_data train_kwargs in
  exists e, r.1 = Raised e /\ last (trace r.2) = Some (failure_log e).
Proof.
  cbv zeta. unfold call_finetune_anyscale, call_finetune_with, finetune_with.
  destruct (finetune_body_stuck w SFT model train_data (caller_ref train_kwargs)
              (caller_state train_kwargs) eq_refl) as ([e He] & _ & _).
  exists e. unfold try_except.
  destruct (finetune_body w SFT model train_data (caller_ref train_kwargs)
              (caller_state train_kwargs)) as [[a|e'] s']; simpl in He; [done|].
  injection He as ->. simpl. split; [done|]. by rewrite last_snoc.
Qed.

Lemma verify_dataset_true (w : world) (ds : list pyval) (s : state) (v : pyval)
    (lens : list Z) :
  openai_data_validation w ds = Returned v -> truthy v = false ->
  check_message_lengths w ds = Returned lens ->
  verify_dataset w ds s
  = (Returned true, record (MessageLengths ds) (record (Validate ds) s)).
Proof. intros Hv Ht Hl. by rewrite verify_dataset_run, Hv, Ht, Hl. Qed.

(** X14.  With a dataset that passes validation and no storage root in
    the environment, the call fails with [KeyError] only after the data
    has been validated and saved locally: the trace is the one below, with
    no file read for upload and no shell command. *)
Theorem missing_storage_fails_after_saving (w : world) (model : string)
    (train_data : list pyval) (train_kwargs : option dict)
    (v : pyval) (lens : list Z) (data_path : string) :
  (forall d, train_kwargs = Some d -> dict_has d (key "model") = false) ->
  openai_data_validation w train_data = Returned v ->
  truthy v = false ->
  check_message_lengths w train_data = Returned lens ->
  (forall t, save_data w t train_data PROVIDER_ANYSCALE = Returned data_path) ->
  environ w "ANYSCALE_ARTIFACT_STORAGE" = None ->
  let r := call_finetune_anyscale w model train_data train_kwargs in
  r.1 = Raised (KeyError "ANYSCALE_ARTIFACT_STORAGE")
  /\ trace r.2 =
     [ Log INFO "[Finetune] Starting training process...";
       Log INFO "[Finetune] Retrieving the `serve_config_path` if provided, otherwise defaulting to `serve_1B.yaml`...";
       Log INFO "[Finetune] Validating the dataset format...";
       Validate train_data;
       MessageLengths train_data;
       Log INFO "[Finetune] Converting data to JSONL format...";
       SaveData train_data PROVIDER_ANYSCALE;
       Log INFO "[Finetune] Submitting data to remote storage...";
       EnvRead "ANYSCALE_ARTIFACT_STORAGE";
       failure_log (KeyError "ANYSCALE_ARTIFACT_STORAGE") ].
Proof.
  intros Hm Hv Ht Hl Hsave Henv r.
  assert (Hsub : forall s,
    submit_data w data_path None s
    = (Raised (KeyError "ANYSCALE_ARTIFACT_STORAGE"),
       record (EnvRead "ANYSCALE_ARTIFACT_STORAGE") s)).
  { intros s. unfold submit_data. rewrite run_bind. unfold emit at 1.
    by rewrite Henv, run_bind. }
  unfold r, call_finetune_anyscale, call_finetune_with, finetune_with, finetune_body.
  destruct train_kwargs as [[|kv d]|]; simpl.
  - repeat exec. rewrite (verify_dataset_true w _ _ v lens) by done.
    repeat exec. rewrite Hsave. repeat exec. rewrite Hsub. by repeat exec.
  - exec. exec. rewrite (Hm _ eq_refl). simpl.
    repeat exec. rewrite (verify_dataset_true w _ _ v lens) by done.
    repeat exec. rewrite Hsave. repeat exec. rewrite Hsub. by repeat exec.
  - repeat exec. rewrite (verify_dataset_true w _ _ v lens) by done.
    repeat exec. rewrite Hsave. repeat exec. rewrite Hsub. by repeat exec.
Qed.

(** X14 (a run).  The demo world without its storage root. *)
Lemma missing_storage_fails_after_saving_witness :
  (call_finetune_anyscale (without_storage Demo.world) "meta-llama/Llama-3-8b"
     Demo.good_data None).1
  = Raised (KeyError "ANYSCALE_ARTIFACT_STORAGE").
Proof.
  exact (proj1 (missing_storage_fails_after_saving (without_storage Demo.world)
                  "meta-llama/Llama-3-8b" Demo.good_data None (VDict []) [1]
                  "/tmp/dspy/data.jsonl"
                  ltac:(intros d H; discriminate H) eq_refl eq_refl eq_refl
                  (fun _ => eq_refl) eq_refl)).
Defined.

(** ** The order of the steps *)

Import Pipeline.

Lemma steps_taken_app (t1 t2 : list event) :
  steps_taken (t1 ++ t2) = (steps_taken t1 ++ steps_taken t2)%list.
Proof. apply omap_app. Qed.

Lemma in_order_bind {A B} (lo : nat) (mid : A -> nat) (hi : B -> nat)
    (m : M A) (k : A -> M B) :
  in_order lo mid m -> (forall a, in_order (mid a) hi (k a)) ->
  in_order lo hi (m ≫= k).
Proof.
  intros Hm Hk s. rewrite run_bind.
  destruct (Hm s) as (e1 & Ht1 & H1 & J1). destruct (m s) as [[a|e] s']; simpl in *.
  - destruct H1 as [H1 Hlo]. destruct (Hk a s') as (e2 & Ht2 & H2 & J2).
    exists (e1 ++ e2)%list. split; [by rewrite Ht2, Ht1, app_assoc|].
    rewrite steps_taken_app, H1, length_app, length_seq.
    split.
    + destruct ((k a s').1) as [b|e].
      * destruct H2 as [H2 Hhi]. rewrite H2. split; [|lia].
        replace (hi b - lo)%nat with ((mid a - lo) + (hi b - mid a))%nat by lia.
        rewrite seq_app. do 2 f_equal. lia.
      * destruct H2 as (n & H2 & Hn). exists ((mid a - lo) + n)%nat. rewrite H2.
        split; [|lia]. rewrite seq_app. do 2 f_equal. lia.
    + destruct J2 as [J2|J2]; [|right; lia].
      destruct J1 as [J1|J1]; [left; congruence|].
      rewrite H1, length_seq in J1. right.
      assert (length (steps_taken e2) = 0)%nat; [|lia].
      destruct ((k a s').1) as [b|e].
      * destruct H2 as [H2 Hhi]. rewrite H2, length_seq. lia.
      * destruct H2 as (n & H2 & Hn). rewrite H2, length_seq. lia.
  - exists e1. split; [done|]. split; [done|]. exact J1.
Qed.

(** A piece that always raises: what is planned after it does not
    matter. *)
Lemma in_order_raises {A B} (lo : nat) (mid : A -> nat) (hi : B -> nat)
    (m : M A) (k : A -> M B) :
  (forall s, exists e, (m s).1 = Raised e) -> in_order lo mid m ->
  in_order lo hi (m ≫= k).
Proof.
  intros Hr Hm s. rewrite run_bind.
  destruct (Hm s) as (e1 & Ht1 & H1 & J1). destruct (Hr s) as [e He].
  destruct (m s) as [[a|e'] s']; simpl in *; [done|]. by exists e1.
Qed.

Lemma in_order_silent {A} (lo : nat) (hi : A -> nat) (m : M A) :
  (forall s, trace (m s).2 = trace s /\ job_id_attr (m s).2 = job_id_attr s) ->
  (forall s a, (m s).1 = Returned a -> hi a = lo) ->
  (lo <= last_step)%nat ->
  in_order lo hi m.
Proof.
  intros Hm Hhi Hlo s. destruct (Hm s) as [Ht Hj].
  exists []. split; [by rewrite app_nil_r|]. split; [|by left].
  destruct ((m s).1) as [a|e] eqn:E.
  - rewrite (Hhi s a E), Nat.sub_diag. split; [done|lia].
  - exists 0%nat. split; [done|lia].
Qed.

Lemma in_order_ret {A} (lo : nat) (a : A) :
  (lo <= last_step)%nat -> in_order lo (fun _ => lo) (mret a).
Proof. intros Hlo. by apply in_order_silent. Qed.

Lemma in_order_raise {A} (lo : nat) (hi : A -> nat) (e : exn) :
  (lo <= last_step)%nat -> in_order lo hi (raise e).
Proof. intros Hlo. by apply in_order_silent. Qed.

Lemma in_order_log (lo : nat) (lv : level) (msg : string) :
  (lo <= last_step)%nat -> in_order lo (fun _ => lo) (emit (Log lv msg)).
Proof.
  intros Hlo s. exists [Log lv msg]. split; [done|]. simpl.
  rewrite Nat.sub_diag. split; [|by left]. split; [done|lia].
Qed.

Lemma in_order_emit (lo : nat) (ev : event) :
  step_of ev = Some lo -> (S lo <= last_step)%nat ->
  in_order lo (fun _ => S lo) (emit ev).
Proof.
  intros Hev Hlo s. exists [ev]. split; [done|]. simpl.
  unfold steps_taken. simpl. rewrite Hev. simpl.
  replace (S lo - lo)%nat with 1%nat by lia. split; [|by left]. split; [done|lia].
Qed.

Lemma in_order_ask {A} (lo : nat) (ev : event) (answer : list event -> outcome A) :
  step_of ev = Some lo -> (S lo <= last_step)%nat ->
  in_order lo (fun _ => S lo) (ask ev answer).
Proof.
  intros Hev Hlo s. exists [ev]. split; [done|]. simpl.
  unfold steps_taken. simpl. rewrite Hev. simpl. split; [|by left].
  destruct (answer (trace s)).
  - replace (S lo - lo)%nat with 1%nat by lia. split; [done|lia].
  - exists 1%nat. split; [done|lia].
Qed.

(** The job id is stored when the job has been submitted. *)
Lemma in_order_set_job_id (id : string) :
  in_order last_step (fun _ => last_step) (set_job_id id).
Proof.
  intros s. exists []. split; [by rewrite app_nil_r|]. simpl.
  split; [|by right]. split; [done|lia].
Qed.

(** The [except] clause of [finetune_anyscale] adds a log line. *)
Lemma in_order_logged {A} (lo : nat) (hi : A -> nat) (m : M A) (msg : exn -> string) :
  in_order lo hi m ->
  in_order lo hi (try_except m (fun e => error (msg e);; raise e)).
Proof.
  intros Hm s. unfold try_except.
  destruct (Hm s) as (e1 & Ht1 & H1 & J1). destruct (m s) as [[a|e] s']; simpl in *.
  - by exists e1.
  - exists (e1 ++ [Log ERROR (msg e)])%list. split; [by rewrite Ht1, app_assoc|].
    rewrite steps_taken_app. simpl. by rewrite app_nil_r.
Qed.

(** Pieces that neither leave the module nor store a job id. *)
Ltac silent :=
  apply in_order_silent;
  [ intros ?;
    cbv [mret M_ret ret raise assert deref store new_dict get_job_id
         getitem update_with name_config hash_dict spread or_new_dict
         mbind M_bind bind];
    repeat case_match; simplify_eq/=; done
  | intros ? ? ?; reflexivity
  | unfold last_step; lia ].

Ltac ordered_step extra :=
  cbv beta zeta;
  first [ extra |
  lazymatch goal with
  | |- in_order _ _ (mbind _ _) => eapply in_order_bind; [|intros ?]
  | |- in_order _ _ (emit (Log _ _)) => apply in_order_log; unfold last_step; lia
  | |- in_order _ _ (emit _) => apply in_order_emit; [reflexivity|unfold last_step; lia]
  | |- in_order _ _ (ask _ _) => apply in_order_ask; [reflexivity|unfold last_step; lia]
  | |- in_order _ _ (mret _) => apply in_order_ret; unfold last_step; lia
  | |- in_order _ _ (ret _) => apply in_order_ret; unfold last_step; lia
  | |- in_order _ _ (raise _) => apply in_order_raise; unfold last_step; lia
  | |- in_order _ _ _ => first [ solve [silent] | case_match ]
  end ].

Ltac ordered extra := repeat ordered_step extra.

Lemma in_order_verify_dataset (w : world) (ds : list pyval) :
  in_order 0 (fun verified : bool => if verified then 2 else 1)%nat (verify_dataset w ds).
Proof.
  intros s. rewrite verify_dataset_run.
  destruct (openai_data_validation w ds) as [v|e].
  - destruct (truthy v).
    + eexists [_; _]. split; [simpl; by rewrite <- app_assoc|]. simpl.
      split; [|by left]. split; [done|unfold last_step; lia].
    + eexists [_; _]. split; [simpl; by rewrite <- app_assoc|]. simpl.
      split; [|by left]. destruct (check_message_lengths w ds).
      * split; [done|unfold last_step; lia].
      * exists 2%nat. split; [done|unfold last_step; lia].
  - eexists [_]. split; [done|]. split; [|by left].
    exists 1%nat. split; [done|unfold last_step; lia].
Qed.

Lemma in_order_submit_data (w : world) (train_path : string) :
  in_order 3 (fun _ => 6%nat) (submit_data w train_path None).
Proof.
  unfold submit_data. simpl. unfold upload, info.
  ordered fail.
Qed.

Lemma in_order_generate_config_files (w : world) (train_path : string)
    (eval_path : option string) (kwargs : dict) :
  in_order 6 (fun _ => 9%nat) (generate_config_files w train_path eval_path kwargs).
Proof.
  unfold generate_config_files, info.
  ordered fail.
Qed.

Lemma in_order_start_remote_training (w : world) (cfg : pyval) (kwargs : dict) :
  in_order 9 (fun _ => 10%nat) (start_remote_training w cfg kwargs).
Proof. unfold start_remote_training. ordered fail. Qed.

Ltac flow_pieces :=
  idtac;
  lazymatch goal with
  | |- in_order _ _ (wait_for_training _ (ArgVal _) ≫= _) =>
      eapply in_order_raises;
      [intros ?; eexists; reflexivity|unfold wait_for_training, info]
  | |- in_order _ _ (verify_dataset _ _) => apply in_order_verify_dataset
  | |- in_order _ _ (submit_data _ _ None) => apply in_order_submit_data
  | |- in_order _ _ (generate_config_files _ _ _ _) => apply in_order_generate_config_files
  | |- in_order _ _ (start_remote_training _ _ _) => apply in_order_start_remote_training
  | |- in_order _ _ (set_job_id _) => apply in_order_set_job_id
  end.

Lemma in_order_finetune_body (w : world) (model : string) (train_data : list pyval)
    (train_kwargs : option nat) :
  in_order 0 (fun _ => 10%nat) (finetune_body w SFT model train_data train_kwargs).
Proof.
  unfold finetune_body, info, error.
  ordered ltac:(idtac; flow_pieces).
  Unshelve. exact (fun _ => last_step).
Qed.

(** X15.  The calls by which [finetune_anyscale] leaves the module are
    made in the order of the source, each at most once and none skipped:
    validation, message lengths, saving the data, reading the storage root,
    reading the saved file, the copy command, loading the template,
    writing the config, making the job config, submitting the job.  A job
    id is stored only when all ten have been made; and they are all made,
    in the run of the demo world. *)
Theorem steps_run_in_order (w : world) (model : string)
    (train_data : list pyval) (train_kwargs : option dict) :
  let r := call_finetune_anyscale w model train_data train_kwargs in
  (exists n, (n <= 10)%nat /\ steps_taken (trace r.2) = seq 0 n)
  /\ (forall id, job_id_attr r.2 = Some id -> steps_taken (trace r.2) = seq 0 10)
  /\ steps_taken (trace (call_finetune_anyscale Demo.world "meta-llama/Llama-3-8b"
                           Demo.good_data None).2)
     = seq 0 10.
Proof.
  cbv zeta. split; [|split; [|by vm_compute]].
  - destruct (in_order_logged 0 (fun _ => 10%nat) _
                (fun e => "[Finetune] Error occurred during training: " ++ exn_str e)
                (in_order_finetune_body w model train_data (caller_ref train_kwargs))
                (caller_state train_kwargs)) as (evs & Ht & Ho & _).
    unfold call_finetune_anyscale, call_finetune_with, finetune_with.
    rewrite Ht. simpl.
    match type of Ho with
    | match ?o with _ => _ end => destruct o
    end.
    + destruct Ho as [-> _]. exists 10%nat. split; [lia|done].
    + destruct Ho as (n & -> & Hn). exists n. unfold last_step in Hn. split; [lia|done].
  - intros id Hid.
    destruct (in_order_logged 0 (fun _ => 10%nat) _
                (fun e => "[Finetune] Error occurred during training: " ++ exn_str e)
                (in_order_finetune_body w model train_data (caller_ref train_kwargs))
                (caller_state train_kwargs)) as (evs & Ht & Ho & Hj).
    unfold call_finetune_anyscale, call_finetune_with, finetune_with in *.
    rewrite Ht. simpl. destruct Hj as [Hj|Hj]; [by rewrite Hid in Hj|].
    simpl in Hj. unfold last_step in Hj.
    match type of Ho with
    | match ?o with _ => _ end => destruct o
    end.
    + by destruct Ho as [-> _].
    + destruct Ho as (n & Hn & _). rewrite Hn, length_seq in Hj. by rewrite Hn, Hj.
Qed.
